(** * Leelo: the article-extraction pipeline

    A shallow embedding of [src/server/services/extractor.ts] and
    [src/server/services/queue.ts], and the properties of the extraction
    pipeline proved on it.

    Conventions of the embedding.
    - A JavaScript string is the list of its UTF-16 code units, each an
      [N]; [js "text"] is the string of an ASCII literal.
    - A value that may be [undefined] or [null] is an [option].
    - A function that may throw returns a [result]; what is thrown is a
      [thrown] value, an [Error] object with its message or something else.
    - What the JavaScript runtime and the third-party packages provide
      (the URL parser, the DOM, Readability, the network, sharp) is
      gathered in the class [Runtime]; the functions of the source are
      translated over an arbitrary instance of it. *)

From Stdlib Require Import ZArith NArith List String Ascii Bool Lia DecimalString.
From stdpp Require Import gmap strings list fin_maps.

(** ** Thrown values and results *)

Inductive thrown : Type :=
| JsError (message : list N)   (* [new Error(message)] and its subclasses *)
| JsOther.                     (* any thrown value that is not an [Error] *)

Inductive result (A : Type) : Type :=
| Ok (value : A)
| Throw (e : thrown).
Arguments Ok {A} value.
Arguments Throw {A} e.

(** ** JavaScript strings *)

Module JsString.

Definition ch (a : ascii) : N := N_of_ascii a.

Definition js (s : string) : list N := ch <$> list_ascii_of_string s.

(** A literal that has double quotes, written with single quotes in
    their place. *)
Definition jsq (s : string) : list N :=
  (fun c => if (c =? 39)%N then 34%N else c) <$> js s.

(** [String(n)] of a natural number. *)
Definition decimal (n : N) : list N :=
  js (NilEmpty.string_of_uint (N.to_uint n)).

Definition dquote : N := 34.
Definition squote : N := 39.
Definition dollar : N := 36.

(** A template literal renders [undefined] by its name. *)
Definition render (o : option (list N)) : list N :=
  match o with
  | Some s => s
  | None => js "undefined"
  end.

(** Truthiness of a possibly missing string: [null], [undefined] and
    the empty string are falsy. *)
Definition truthy (o : option (list N)) : bool :=
  match o with
  | Some (_ :: _) => true
  | _ => false
  end.

(** [a || b] on possibly missing strings. *)
Definition or_else (a b : option (list N)) : option (list N) :=
  if truthy a then a else b.

(** ASCII letters only: the source applies [toLowerCase] to host names,
    which the URL parser delivers in ASCII. *)
Definition lower_char (c : N) : N :=
  if ((65 <=? c) && (c <=? 90))%N then (c + 32)%N else c.

Definition toLowerCase (s : list N) : list N := lower_char <$> s.

(** [\s] of a regular expression, which is also what [trim] removes:
    the WhiteSpace and LineTerminator code points of ECMAScript. *)
Definition isWhiteSpace (c : N) : bool :=
  ((9 <=? c) && (c <=? 13) || (c =? 32) || (c =? 160) || (c =? 5760)
   || (8192 <=? c) && (c <=? 8202) || (c =? 8232) || (c =? 8233)
   || (c =? 8239) || (c =? 8287) || (c =? 12288) || (c =? 65279))%N.

Fixpoint trimStart (s : list N) : list N :=
  match s with
  | c :: s' => if isWhiteSpace c then trimStart s' else s
  | [] => []
  end.

Definition trimEnd (s : list N) : list N := reverse (trimStart (reverse s)).

Definition trim (s : list N) : list N := trimEnd (trimStart s).

(** The longest prefix of [s] whose code units satisfy [p], and what
    follows it. *)
Fixpoint span (p : N -> bool) (s : list N) : list N * list N :=
  match s with
  | c :: s' => if p c then let (a, b) := span p s' in (c :: a, b) else ([], s)
  | [] => ([], [])
  end.

(** [s.startsWith(p)] and [s.endsWith(p)] *)
Definition startsWith (s p : list N) : bool := bool_decide (p `prefix_of` s).
Definition endsWith (s p : list N) : bool := bool_decide (p `suffix_of` s).

(** A literal of a regular expression under the [i] flag, at the head
    of [s]. *)
Fixpoint startsWith_ci (s p : list N) : bool :=
  match p, s with
  | [], _ => true
  | _ :: _, [] => false
  | a :: p', b :: s' => (lower_char a =? lower_char b)%N && startsWith_ci s' p'
  end.

(** [s.indexOf(p)], [None] for -1. *)
Fixpoint indexOf (s p : list N) : option nat :=
  if startsWith s p then Some O
  else match s with
       | [] => None
       | _ :: s' => S <$> indexOf s' p
       end.

(** [s.includes(p)] *)
Definition includes (s p : list N) : bool :=
  match indexOf s p with Some _ => true | None => false end.

(** GetSubstitution of ECMAScript for a string pattern, which has no
    capture groups: [$$], [$&], [$`] and [$'] are expanded, every other
    [$] stands for itself. *)
Fixpoint substitution (matched before after rep : list N) : list N :=
  match rep with
  | [] => []
  | c :: r =>
      if (c =? dollar)%N then
        match r with
        | d :: r' =>
            if (d =? dollar)%N then dollar :: substitution matched before after r'
            else if (d =? ch "&")%N then matched ++ substitution matched before after r'
            else if (d =? ch "`")%N then before ++ substitution matched before after r'
            else if (d =? squote)%N then after ++ substitution matched before after r'
            else c :: substitution matched before after r
        | [] => [c]
        end
      else c :: substitution matched before after r
  end.

(** [s.replace(pat, rep)] with a string pattern: the first occurrence
    only. *)
Definition replace (s pat rep : list N) : list N :=
  match indexOf s pat with
  | None => s
  | Some i =>
      let before := take i s in
      let after := drop (i + length pat) s in
      before ++ substitution pat before after rep ++ after
  end.

End JsString.

Import JsString.


(** ** The runtime: built-ins and third-party packages *)

(** What the source reads of a [URL] object. *)
Record URL : Type := {
  protocol : list N;
  host : list N;
  hostname : list N;
  href : list N;
}.

(** What the source reads of a DOM element. *)
Record Element : Type := {
  getAttribute : list N -> option (list N);
  textContent : list N;
}.

(** A document is used through [querySelector] only: the first element
    that matches a selector, if there is one. *)
Definition Document : Type := list N -> option Element.

(** The object returned by [Readability.parse()]. *)
Record ReadabilityArticle : Type := {
  r_title : option (list N);
  r_byline : option (list N);
  r_excerpt : option (list N);
  r_content : option (list N);
  r_textContent : option (list N);
}.

(** The response of [fetch]; [body] is what [text()] or [arrayBuffer()]
    gives. *)
Record Response : Type := {
  ok : bool;
  status : N;
  statusText : list N;
  body : result (list N);
}.

Class Runtime : Type := {
  (** [new URL(url, base)], [None] when it throws. *)
  URL_new : list N -> option (list N) -> option URL;
  (** [new Date(s).getTime()], [None] for [NaN]. *)
  Date_getTime : list N -> option Z;
  (** [new JSDOM(html, { url }).window.document] *)
  JSDOM_document : list N -> option (list N) -> result Document;
  (** [new Readability(document).parse()]; Readability works on the
      document in place, so the document it leaves is part of the
      outcome. *)
  Readability_parse : Document -> result (option ReadabilityArticle * Document);
  (** [fetch(url)] *)
  fetch : list N -> result Response;
  (** [sharp(buffer).resize(800, 600, ...).webp({ quality: 80 })]: the
      bytes that [toFile] writes. *)
  sharp_webp : list N -> result (list N);
  (** What [prisma.article.update] throws when no row has the id; Prisma
      names the call in its error, here by its line in [queue.ts]. *)
  update_not_found : N -> thrown;
  (** The [TypeError] of reading the named property of [undefined]. *)
  read_of_undefined : list N -> thrown;
}.

(** A model of the URL parser on plain absolute [http:] and [https:]
    URLs, [scheme://host[:port][/...]] with a host of letters, digits,
    [-], [.] and [_] whose last label is not a number.  It is used to
    evaluate the functions of the source on concrete URLs of that kind,
    and on no others: it does not know the numeric hosts, which the real
    parser reads as IPv4 addresses, nor user names and passwords, nor the
    URLs that are relative to a base, and what it answers for them says
    nothing about the real parser. *)
Module PlainUrl.

Definition host_char (c : N) : bool :=
  ((97 <=? c) && (c <=? 122) || (48 <=? c) && (c <=? 57)
   || (c =? ch "-") || (c =? ch ".") || (c =? ch "_"))%N.

Definition digit (c : N) : bool := ((48 <=? c) && (c <=? 57))%N.

Definition port_number (port : list N) : N :=
  foldl (fun n c => (10 * n + (c - 48))%N) 0%N port.

Definition after_scheme (scheme rest : list N) : option URL :=
  let (h, r1) := span host_char (toLowerCase rest) in
  let r1 := drop (length h) rest in
  let (port, r2) :=
    match r1 with
    | c :: r => if (c =? ch ":")%N then span digit r else ([], r1)
    | [] => ([], r1)
    end in
  let path_ok :=
    match r2 with
    | [] => true
    | c :: _ => (c =? ch "/")%N || (c =? ch "?")%N || (c =? ch "#")%N
    end in
  let default_port := if bool_decide (scheme = js "https:") then 443%N else 80%N in
  if bool_decide (h = []) || negb path_ok || (65535 <? port_number port)%N then None
  else
    let hst :=
      match port with
      | [] => h
      | _ => if (port_number port =? default_port)%N then h
             else h ++ js ":" ++ decimal (port_number port)
      end in
    let path := match r2 with
                | [] => js "/"
                | c :: _ => if (c =? ch "/")%N then r2 else js "/" ++ r2
                end in
    Some {| protocol := scheme; host := hst; hostname := h;
            href := scheme ++ js "//" ++ hst ++ path |}.

Definition parse (url : list N) (base : option (list N)) : option URL :=
  if startsWith_ci url (js "https://") then after_scheme (js "https:") (drop 8 url)
  else if startsWith_ci url (js "http://") then after_scheme (js "http:") (drop 7 url)
  else None.

End PlainUrl.

(** A runtime with the plain URL parser, the other capabilities given. *)
Definition plain_runtime
    (dom : list N -> option (list N) -> result Document)
    (readability : Document -> result (option ReadabilityArticle * Document))
    (net : list N -> result Response)
    (sharp : list N -> result (list N)) : Runtime :=
  {| URL_new := PlainUrl.parse;
     Date_getTime := fun _ => None;
     JSDOM_document := dom;
     Readability_parse := readability;
     fetch := net;
     sharp_webp := sharp;
     update_not_found := fun line =>
       JsError (js "Invalid `prisma.article.update()` invocation in queue.ts:"
                ++ decimal line ++ js " Record to update not found.");
     read_of_undefined := fun property =>
       JsError (js "Cannot read properties of undefined (reading '" ++ property
                ++ js "')") |}.

(** A runtime without network: every [fetch] fails. *)
Definition offline_runtime : Runtime :=
  plain_runtime
    (fun _ _ => Ok (fun _ => None))
    (fun d => Ok (None, d))
    (fun _ => Throw (JsError (js "fetch failed")))
    (fun _ => Throw (JsError (js "Input buffer contains unsupported image format"))).

(** ** MD5, as [createHash('md5').update(s).digest('hex')] computes it *)

Module Md5.

Local Open Scope N_scope.

(** The UTF-8 encoding of a string, which is what [update] hashes; a
    surrogate without its partner is encoded as U+FFFD. *)
Fixpoint utf8 (s : list N) : list N :=
  match s with
  | [] => []
  | c :: s' =>
      if c <? 128 then c :: utf8 s'
      else if c <? 2048 then
        N.lor 192 (N.shiftr c 6) :: N.lor 128 (N.land c 63) :: utf8 s'
      else if (55296 <=? c) && (c <=? 56319) then
        match s' with
        | d :: s'' =>
            if (56320 <=? d) && (d <=? 57343) then
              let cp := 65536 + N.shiftl (c - 55296) 10 + (d - 56320) in
              N.lor 240 (N.shiftr cp 18)
                :: N.lor 128 (N.land (N.shiftr cp 12) 63)
                :: N.lor 128 (N.land (N.shiftr cp 6) 63)
                :: N.lor 128 (N.land cp 63) :: utf8 s''
            else 239 :: 191 :: 189 :: utf8 s'
        | [] => [239; 191; 189]
        end
      else if (56320 <=? c) && (c <=? 57343) then 239 :: 191 :: 189 :: utf8 s'
      else
        N.lor 224 (N.land (N.shiftr c 12) 15)
          :: N.lor 128 (N.land (N.shiftr c 6) 63)
          :: N.lor 128 (N.land c 63) :: utf8 s'
  end.

Definition w32 (x : N) : N := x mod 4294967296.

Definition rotl (x c : N) : N :=
  w32 (N.lor (N.shiftl x c) (N.shiftr x (32 - c))).

Definition not32 (x : N) : N := N.lxor x 4294967295.

Definition K : list N :=
  [3614090360; 3905402710; 606105819; 3250441966; 4118548399; 1200080426;
   2821735955; 4249261313; 1770035416; 2336552879; 4294925233; 2304563134;
   1804603682; 4254626195; 2792965006; 1236535329; 4129170786; 3225465664;
   643717713; 3921069994; 3593408605; 38016083; 3634488961; 3889429448;
   568446438; 3275163606; 4107603335; 1163531501; 2850285829; 4243563512;
   1735328473; 2368359562; 4294588738; 2272392833; 1839030562; 4259657740;
   2763975236; 1272893353; 4139469664; 3200236656; 681279174; 3936430074;
   3572445317; 76029189; 3654602809; 3873151461; 530742520; 3299628645;
   4096336452; 1126891415; 2878612391; 4237533241; 1700485571; 2399980690;
   4293915773; 2240044497; 1873313359; 4264355552; 2734768916; 1309151649;
   4149444226; 3174756917; 718787259; 3951481745].

Definition shifts : list N :=
  [7; 12; 17; 22; 7; 12; 17; 22; 7; 12; 17; 22; 7; 12; 17; 22;
   5; 9; 14; 20; 5; 9; 14; 20; 5; 9; 14; 20; 5; 9; 14; 20;
   4; 11; 16; 23; 4; 11; 16; 23; 4; 11; 16; 23; 4; 11; 16; 23;
   6; 10; 15; 21; 6; 10; 15; 21; 6; 10; 15; 21; 6; 10; 15; 21].

Record state : Type := { sa : N; sb : N; sc : N; sd : N }.

Definition init : state :=
  {| sa := 1732584193; sb := 4023233417; sc := 2562383102; sd := 271733878 |}.

(** The message with its padding: a 1 bit, zeros up to 56 modulo 64
    bytes, and the length in bits on 8 bytes, least significant
    first. *)
Definition le_bytes (n : nat) (x : N) : list N :=
  (fun i => N.land (N.shiftr x (8 * N.of_nat i)) 255) <$> seq 0 n.

Definition pad (m : list N) : list N :=
  let len := N.of_nat (length m) in
  let zeros := N.to_nat ((119 - len mod 64) mod 64) in
  m ++ [128] ++ replicate zeros 0 ++ le_bytes 8 ((8 * len) mod 18446744073709551616).

Definition word_at (block : list N) (g : nat) : N :=
  let b i := default 0 (block !! (4 * g + i)%nat) in
  b 0%nat + N.shiftl (b 1%nat) 8 + N.shiftl (b 2%nat) 16 + N.shiftl (b 3%nat) 24.

Definition step (block : list N) (st : state) (i : nat) : state :=
  let '{| sa := a; sb := b; sc := c; sd := d |} := st in
  let '(f, g) :=
    if (i <? 16)%nat then (N.lor (N.land b c) (N.land (not32 b) d), i)
    else if (i <? 32)%nat then
      (N.lor (N.land d b) (N.land (not32 d) c), ((5 * i + 1) mod 16)%nat)
    else if (i <? 48)%nat then (N.lxor b (N.lxor c d), ((3 * i + 5) mod 16)%nat)
    else (N.lxor c (N.lor b (not32 d)), ((7 * i) mod 16)%nat) in
  let f' := w32 (f + a + default 0 (K !! i) + word_at block g) in
  {| sa := d; sd := c; sc := b;
     sb := w32 (b + rotl f' (default 0 (shifts !! i))) |}.

Definition compress (st : state) (block : list N) : state :=
  let st' := foldl (step block) st (seq 0 64) in
  {| sa := w32 (sa st + sa st'); sb := w32 (sb st + sb st');
     sc := w32 (sc st + sc st'); sd := w32 (sd st + sd st') |}.

Fixpoint blocks (n : nat) (m : list N) : list (list N) :=
  match n with
  | O => []
  | S n' => take 64 m :: blocks n' (drop 64 m)
  end.

Definition digest (s : list N) : state :=
  let m := pad (utf8 s) in
  foldl compress init (blocks (length m / 64) m).

Definition hex_digit (x : N) : N := if x <? 10 then 48 + x else 87 + x.

Definition hex_byte (x : N) : list N := [hex_digit (x / 16); hex_digit (x mod 16)].

Definition hex_word (x : N) : list N := le_bytes 4 x ≫= hex_byte.

Definition hex_state (st : state) : list N :=
  hex_word (sa st) ++ hex_word (sb st) ++ hex_word (sc st) ++ hex_word (sd st).

Definition hex (s : list N) : list N := hex_state (digest s).

(** Every word of a state is a 32-bit word. *)
Definition bounded (st : state) : Prop :=
  sa st < 4294967296 /\ sb st < 4294967296
  /\ sc st < 4294967296 /\ sd st < 4294967296.

(** A digest as one number, which is below 2^128. *)
Definition number (st : state) : N :=
  sa st + 4294967296 * (sb st + 4294967296 * (sc st + 4294967296 * sd st)).

End Md5.

(** A page that Readability makes nothing of: no body, a title in the
    Open Graph metadata. *)
Definition sample_page : list N :=
  jsq "<html><head><meta property='og:title' content='My Video'></head><body></body></html>".

Definition sample_document : Document :=
  fun selector =>
    if bool_decide (selector = jsq "[property='og:title']") then
      Some {| getAttribute := fun name =>
                if bool_decide (name = js "content") then Some (js "My Video") else None;
              textContent := [] |}
    else None.

(** A runtime whose network serves [sample_page] for every URL, and
    whose image encoder accepts what it is given. *)
Definition online_runtime : Runtime :=
  plain_runtime
    (fun _ _ => Ok sample_document)
    (fun d => Ok (None, d))
    (fun _ => Ok {| ok := true; status := 200; statusText := js "OK";
                    body := Ok sample_page |})
    (fun buffer => Ok buffer).

(** ** [ContentExtractor] *)

Module ContentExtractor.

Section WithRuntime.

Context {R : Runtime}.

(** [isExactDomain(url, domain)] *)
Definition isExactDomain (url domain : list N) : bool :=
  match URL_new url None with
  | Some urlObj =>
      let hostname := toLowerCase (hostname urlObj) in
      bool_decide (hostname = domain) || endsWith hostname (ch "." :: domain)
  | None => false
  end.

(** *** [sanitizeHtml] *)

(** [s.replace(/<[^>]*>/g, '')]: a [<] opens a tag when a [>]
    follows somewhere; the tag runs to the first [>]. *)
Fixpoint strip_tags (inside : bool) (s : list N) : list N :=
  match s with
  | [] => []
  | c :: s' =>
      if inside then strip_tags (negb (c =? ch ">")%N) s'
      else if (c =? ch "<")%N && existsb (N.eqb (ch ">")) s'
           then strip_tags true s'
           else c :: strip_tags false s'
  end.

(** [s.replace(new RegExp(entity, 'gi'), replacement)]; [skip] counts
    the code units of a match that are still to be passed. *)
Fixpoint replace_all_ci (entity replacement : list N) (skip : nat) (s : list N)
  : list N :=
  match s with
  | [] => []
  | c :: s' =>
      match skip with
      | S k => replace_all_ci entity replacement k s'
      | O =>
          if startsWith_ci s entity
          then replacement ++ replace_all_ci entity replacement (length entity - 1) s'
          else c :: replace_all_ci entity replacement 0 s'
      end
  end.

Definition htmlEntities : list (list N * list N) :=
  [ (js "&amp;", js "&"); (js "&lt;", js "<"); (js "&gt;", js ">");
    (js "&quot;", [dquote]); (js "&#39;", [squote]); (js "&apos;", [squote]);
    (js "&nbsp;", js " "); (js "&copy;", [169%N]); (js "&reg;", [174%N]);
    (js "&trade;", [8482%N]); (js "&hellip;", js "..."); (js "&mdash;", [8212%N]);
    (js "&ndash;", [8211%N]); (js "&lsquo;", [8216%N]); (js "&rsquo;", [8217%N]);
    (js "&ldquo;", [8220%N]); (js "&rdquo;", [8221%N]) ].

Definition alnum (c : N) : bool :=
  ((97 <=? c) && (c <=? 122) || (65 <=? c) && (c <=? 90)
   || (48 <=? c) && (c <=? 57))%N.

(** The length of a match of [&#?[a-zA-Z0-9]+;] at the head of [s]. *)
Definition entity_here (s : list N) : option nat :=
  match s with
  | c :: r =>
      if (c =? ch "&")%N then
        let (hash, r1) :=
          match r with
          | h :: r' => if (h =? ch "#")%N then (1, r') else (0, r)
          | [] => (0, r)
          end in
        let (name, r2) := span alnum r1 in
        match name, r2 with
        | _ :: _, e :: _ =>
            if (e =? ch ";")%N then Some (1 + hash + length name + 1) else None
        | _, _ => None
        end
      else None
  | [] => None
  end.

(** [s.replace(/&#?[a-zA-Z0-9]+;/g, '')] *)
Fixpoint strip_entities (skip : nat) (s : list N) : list N :=
  match s with
  | [] => []
  | c :: s' =>
      match skip with
      | S k => strip_entities k s'
      | O =>
          match entity_here s with
          | Some n => strip_entities (n - 1) s'
          | None => c :: strip_entities 0 s'
          end
      end
  end.

(** [s.replace(/\s+/g, ' ')] *)
Fixpoint collapse_spaces (inws : bool) (s : list N) : list N :=
  match s with
  | [] => []
  | c :: s' =>
      if isWhiteSpace c
      then (if inws then collapse_spaces true s' else ch " " :: collapse_spaces true s')
      else c :: collapse_spaces false s'
  end.

Definition sanitizeHtml (html : list N) : list N :=
  match html with
  | [] => []
  | _ =>
      let sanitized := strip_tags false html in
      let sanitized :=
        foldl (fun sanitized '(entity, replacement) =>
                 replace_all_ci entity replacement 0 sanitized)
              sanitized htmlEntities in
      let sanitized := strip_entities 0 sanitized in
      trim (collapse_spaces false sanitized)
  end.

(** *** Words *)

(** A word: one or more code units, none of them white space. *)
Definition is_word (w : list N) : Prop :=
  w <> [] /\ Forall (fun c => isWhiteSpace c = false) w.

(** Words with one space between them. *)
Fixpoint sentence (words : list (list N)) : list N :=
  match words with
  | [] => []
  | [w] => w
  | w :: ws => w ++ ch " " :: sentence ws
  end.


(** [text.split(/\s+/)]: [cur] is the piece being read. *)
Fixpoint split_spaces (inws : bool) (cur : list N) (s : list N) : list (list N) :=
  match s with
  | [] => [cur]
  | c :: s' =>
      if isWhiteSpace c
      then (if inws then split_spaces true cur s' else cur :: split_spaces true [] s')
      else split_spaces false (cur ++ [c]) s'
  end.

(** [countWords(text)] *)
Definition countWords (text : list N) : nat :=
  length (split_spaces false [] (trim text)).

(** [Math.ceil(wordCount / 200)]: the quotient of two integers below
    2^53 is rounded up exactly. *)
Definition readingTime_of (wordCount : nat) : nat := (wordCount + 199) / 200.

(** *** The image pipeline *)

Context (assetsPath : list N).

(** [path.join(assetsPath, filename)], for a plain file name. *)
Definition path_join (dir filename : list N) : list N := dir ++ js "/" ++ filename.

(** The local file name of a remote image. *)
Definition localFilename (imageUrl : list N) : list N :=
  let hash := Md5.hex imageUrl in
  hash ++ js ".webp".

(** [downloadAndOptimizeImage(imageUrl)]; [assets] is the content of
    the local asset directory, by path. *)
Definition downloadAndOptimizeImage (imageUrl : list N)
    (assets : gmap (list N) (list N)) : option (list N) * gmap (list N) (list N) :=
  match fetch imageUrl with
  | Throw _ => (None, assets)
  | Ok response =>
      if negb (ok response) then (None, assets)
      else match body response with
           | Throw _ => (None, assets)
           | Ok buffer =>
               let filename := localFilename imageUrl in
               let filepath := path_join assetsPath filename in
               match sharp_webp buffer with
               | Throw _ => (None, assets)
               | Ok webp => (Some filename, <[filepath := webp]> assets)
               end
           end
  end.

(** [resolveUrl(url, baseUrl)] *)
Definition resolveUrl (url : list N) (baseUrl : option (list N)) : list N :=
  if startsWith url (js "http://") || startsWith url (js "https://") then url
  else if truthy baseUrl then
    match URL_new url baseUrl with
    | Some u => href u
    | None => url
    end
  else url.

(** *** Metadata *)

(** A loop over selectors that returns at the first hit. *)
Fixpoint first_of {A B : Type} (f : A -> option B) (l : list A) : option B :=
  match l with
  | [] => None
  | x :: l' => match f x with Some y => Some y | None => first_of f l' end
  end.

Definition nonblank (o : option (list N)) : option (list N) :=
  match o with
  | Some s => match trim s with [] => None | t => Some t end
  | None => None
  end.

(** [extractTitle(document)] *)
Definition extractTitle (document : Document) : list N :=
  let selectors :=
    [ js "h1"; jsq "[property='og:title']"; jsq "[name='twitter:title']"; js "title" ] in
  default (js "Untitled Article")
    (first_of (fun selector =>
       match document selector with
       | Some element =>
           let content := or_else (getAttribute element (js "content"))
                                  (Some (textContent element)) in
           nonblank content
       | None => None
       end) selectors).

(** [extractAuthor(document)] *)
Definition extractAuthor (document : Document) : option (list N) :=
  let selectors :=
    [ jsq "[property='article:author']"; jsq "[name='author']";
      jsq "[property='og:article:author']"; js ".author"; js ".byline";
      jsq "[rel='author']" ] in
  first_of (fun selector =>
    match document selector with
    | Some element =>
        let content := or_else (getAttribute element (js "content"))
                               (Some (textContent element)) in
        nonblank content
    | None => None
    end) selectors.

(** [extractExcerpt(content)] *)
Definition extractExcerpt (content : list N) : option (list N) :=
  let plainText := sanitizeHtml content in
  if (200 <? length plainText)%nat then Some (take 200 plainText ++ js "...")
  else match plainText with [] => None | _ => Some plainText end.

(** [extractPublishedDate(document)] *)
Definition extractPublishedDate (document : Document) : option Z :=
  let selectors :=
    [ jsq "[property='article:published_time']";
      jsq "[property='og:article:published_time']"; jsq "[name='pubdate']";
      js "time[datetime]"; js ".published"; js ".date" ] in
  first_of (fun selector =>
    match document selector with
    | Some element =>
        let dateStr :=
          or_else (or_else (getAttribute element (js "content"))
                           (getAttribute element (js "datetime")))
                  (Some (textContent element)) in
        if truthy dateStr then Date_getTime (trim (default [] dateStr)) else None
    | None => None
    end) selectors.

(** [extractFavicon(document, baseUrl)] *)
Definition extractFavicon (document : Document) (baseUrl : option (list N))
  : option (list N) :=
  let selectors :=
    [ jsq "link[rel='icon']"; jsq "link[rel='shortcut icon']";
      jsq "link[rel='apple-touch-icon']" ] in
  match first_of (fun selector =>
          match document selector with
          | Some element =>
              let href := getAttribute element (js "href") in
              if truthy href then Some (resolveUrl (default [] href) baseUrl) else None
          | None => None
          end) selectors with
  | Some icon => Some icon
  | None =>
      if truthy baseUrl then
        match URL_new (default [] baseUrl) None with
        | Some url => Some (protocol url ++ js "//" ++ host url ++ js "/favicon.ico")
        | None => None
        end
      else None
  end.

(** [extractDescription(document)] *)
Definition extractDescription (document : Document) : option (list N) :=
  let selectors :=
    [ jsq "[property='og:description']"; jsq "[name='description']";
      jsq "[name='twitter:description']"; jsq "[property='description']" ] in
  first_of (fun selector =>
    match document selector with
    | Some element => nonblank (getAttribute element (js "content"))
    | None => None
    end) selectors.

(** [extractAndOptimizeImage(document, baseUrl)]: the loop returns at
    the first element that has a source; [downloadAndOptimizeImage]
    catches its own failures, so the [catch] of the loop is never
    entered. *)
Definition extractAndOptimizeImage (document : Document) (baseUrl : option (list N))
    (assets : gmap (list N) (list N)) : option (list N) * gmap (list N) (list N) :=
  let selectors :=
    [ jsq "[property='og:image']"; jsq "[name='twitter:image']"; js "article img";
      js ".featured-image img"; js "img" ] in
  match first_of (fun selector =>
          match document selector with
          | Some element =>
              let src := or_else (getAttribute element (js "content"))
                                 (getAttribute element (js "src")) in
              if truthy src then Some (resolveUrl (default [] src) baseUrl) else None
          | None => None
          end) selectors with
  | Some imageUrl => downloadAndOptimizeImage imageUrl assets
  | None => (None, assets)
  end.

(** *** Images of the content *)

Definition is_quote (c : N) : bool := (c =? dquote)%N || (c =? squote)%N.

Definition not_gt (c : N) : bool := negb (c =? ch ">")%N.

(** The end of the image pattern at the head of [t]: [src=], a quote
    of either kind, a captured run of one or more code units that are
    not quotes, a quote, a run without [>], and [>].  It gives the
    capture and the number of code units matched.  Each of the two
    runs is followed by a code unit that it excludes, so only the
    longest run can succeed. *)
Definition img_src_here (t : list N) : option (list N * nat) :=
  if startsWith_ci t (js "src=") then
    match drop 4 t with
    | q :: t1 =>
        if is_quote q then
          let (src, t2) := span (fun c => negb (is_quote c)) t1 in
          match src, t2 with
          | _ :: _, _ :: t3 =>
              let (rest, t4) := span not_gt t3 in
              match t4 with
              | _ :: _ => Some (src, (4 + 1 + length src + 1 + length rest + 1)%nat)
              | [] => None
              end
          | _, _ => None
          end
        else None
    | [] => None
    end
  else None.

(** A run without [>] followed by the above, the longest run first. *)
Fixpoint img_attrs (t : list N) : option (list N * nat) :=
  match t with
  | [] => None
  | c :: t' =>
      match (if not_gt c then img_attrs t' else None) with
      | Some (src, n) => Some (src, S n)
      | None => img_src_here t
      end
  end.

(** A match of the image pattern, [<img[^>]+] and the end above, under
    the [i] flag at the head of [s]: the tag and the capture. *)
Definition img_here (s : list N) : option (list N * list N) :=
  if startsWith_ci s (js "<img") then
    match drop 4 s with
    | c :: t =>
        if not_gt c then
          match img_attrs t with
          | Some (src, n) => Some (take (4 + 1 + n) s, src)
          | None => None
          end
        else None
    | [] => None
    end
  else None.

(** [[...content.matchAll(imgRegex)]] *)
Fixpoint matchAll_img (skip : nat) (s : list N) : list (list N * list N) :=
  match s with
  | [] => []
  | _ :: s' =>
      match skip with
      | S k => matchAll_img k s'
      | O =>
          match img_here s with
          | Some (tag, src) => (tag, src) :: matchAll_img (length tag - 1) s'
          | None => matchAll_img 0 s'
          end
      end
  end.

(** [processImagesInContent(content, baseUrl)] *)
Definition processImagesInContent (content : list N) (baseUrl : option (list N))
    (assets : gmap (list N) (list N)) : list N * gmap (list N) (list N) :=
  let matches := matchAll_img 0 content in
  foldl (fun '(processedContent, assets) '(fullImgTag, src) =>
           let absoluteUrl := resolveUrl src baseUrl in
           let '(optimizedPath, assets) :=
             downloadAndOptimizeImage absoluteUrl assets in
           if truthy optimizedPath then
             let newImgTag :=
               replace fullImgTag src (js "/assets/" ++ default [] optimizedPath) in
             (replace processedContent fullImgTag newImgTag, assets)
           else (processedContent, assets))
        (content, assets) matches.

(** *** The fallback document *)

(** [extractDomain(url)] *)
Definition extractDomain (url : list N) : list N :=
  match URL_new url None with
  | Some u => replace (hostname u) (js "www.") []
  | None => url
  end.

Definition youtube_note : list N :=
  jsq "<p class='content-note'><strong>This is a YouTube video.</strong> Visit the link to watch the video.</p>".

Definition social_note : list N :=
  jsq "<p class='content-note'><strong>This is a social media post.</strong> Visit the link to see the full post and comments.</p>".

Definition generic_note : list N :=
  jsq "<p class='content-note'><strong>Content could not be extracted automatically.</strong> This might be a dynamic page, video, or other media. Visit the link to view the full content.</p>".

(** [createFallbackContent(title, description, baseUrl)] *)
Definition createFallbackContent (title : list N) (description baseUrl : option (list N))
  : list N :=
  let domain :=
    if truthy baseUrl then extractDomain (default [] baseUrl) else js "this page" in
  let content := jsq "<div class='fallback-content'>" in
  let content := content ++ (js "<h1>" ++ title ++ js "</h1>") in
  let content :=
    if truthy description
    then content ++ (jsq "<p class='description'>" ++ default [] description ++ js "</p>")
    else content in
  let content :=
    if truthy baseUrl
       && (isExactDomain (default [] baseUrl) (js "youtube.com")
           || isExactDomain (default [] baseUrl) (js "youtu.be"))
    then content ++ youtube_note
    else if truthy baseUrl
            && (isExactDomain (default [] baseUrl) (js "twitter.com")
                || isExactDomain (default [] baseUrl) (js "x.com"))
    then content ++ social_note
    else content ++ generic_note in
  let content :=
    content ++ (jsq "<p class='source'>Source: <a href='" ++ render baseUrl
                ++ jsq "' target='_blank' rel='noopener noreferrer'>" ++ domain
                ++ js "</a></p>") in
  content ++ js "</div>".

(** *** [extractFromHtml] and [extractFromUrl] *)

Record ExtractedArticle : Type := {
  title : list N;
  author : option (list N);
  content : list N;
  excerpt : option (list N);
  wordCount : nat;
  readingTime : nat;
  publishedAt : option Z;
  favicon : option (list N);
  image : option (list N);
  originalHtml : list N;
}.

(** The text whose words are counted:
    [article?.textContent || this.sanitizeHtml(content)]. *)
Definition counted_text (article : option ReadabilityArticle) (content : list N)
  : list N :=
  match article with
  | Some a =>
      if truthy (r_textContent a) then default [] (r_textContent a)
      else sanitizeHtml content
  | None => sanitizeHtml content
  end.

(** The two branches of [if (article)] in [extractFromHtml]: the
    title, the author, the excerpt and the content. *)
Definition chooseFields (article : option ReadabilityArticle) (document : Document)
    (baseUrl : option (list N))
  : list N * option (list N) * option (list N) * list N :=
  match article with
  | Some a =>
      ( default (extractTitle document)
          (if truthy (r_title a) then r_title a else None),
        or_else (r_byline a) (extractAuthor document),
        or_else (r_excerpt a)
          (if truthy (r_content a)
           then extractExcerpt (default [] (r_content a)) else None),
        default [] (or_else (r_content a) (Some [])) )
  | None =>
      let title := extractTitle document in
      let author := extractAuthor document in
      let description := extractDescription document in
      let excerpt := description in
      (title, author, excerpt, createFallbackContent title description baseUrl)
  end.

(** [extractFromHtml(html, baseUrl)] *)
Definition extractFromHtml (html : list N) (baseUrl : option (list N))
    (assets : gmap (list N) (list N))
  : result ExtractedArticle * gmap (list N) (list N) :=
  match JSDOM_document html baseUrl with
  | Throw error => (Throw error, assets)
  | Ok document =>
      match Readability_parse document with
      | Throw error => (Throw error, assets)
      | Ok (article, document) =>
          let '(title, author, excerpt, content) :=
            chooseFields article document baseUrl in
          let publishedAt := extractPublishedDate document in
          let favicon := extractFavicon document baseUrl in
          let '(image, assets) := extractAndOptimizeImage document baseUrl assets in
          let wordCount := countWords (counted_text article content) in
          let readingTime := readingTime_of wordCount in
          let '(processedContent, assets) :=
            processImagesInContent content baseUrl assets in
          (Ok {| title := title; author := author; content := processedContent;
                 excerpt := excerpt; wordCount := wordCount;
                 readingTime := readingTime; publishedAt := publishedAt;
                 favicon := favicon; image := image; originalHtml := html |},
           assets)
      end
  end.

(** What [extractFromHtml] returns when the DOM and Readability do not
    throw. *)
Definition assembled (html : list N) (baseUrl : option (list N))
    (article : option ReadabilityArticle) (document : Document)
    (fs : gmap (list N) (list N)) : ExtractedArticle :=
  let fields := chooseFields article document baseUrl in
  let words := countWords (counted_text article fields.2) in
  let lead := extractAndOptimizeImage document baseUrl fs in
  {| title := fields.1.1.1; author := fields.1.1.2;
     content := (processImagesInContent fields.2 baseUrl lead.2).1;
     excerpt := fields.1.2; wordCount := words; readingTime := readingTime_of words;
     publishedAt := extractPublishedDate document;
     favicon := extractFavicon document baseUrl; image := lead.1;
     originalHtml := html |}.

(** [extractFromUrl(url)] *)
Definition extractFromUrl (url : list N) (assets : gmap (list N) (list N))
  : result ExtractedArticle * gmap (list N) (list N) :=
  match fetch url with
  | Throw error => (Throw error, assets)
  | Ok response =>
      if negb (ok response) then
        (Throw (JsError (js "Failed to fetch URL: " ++ decimal (status response)
                         ++ js " " ++ statusText response)), assets)
      else match body response with
           | Throw error => (Throw error, assets)
           | Ok html => extractFromHtml html (Some url) assets
           end
  end.

End WithRuntime.

End ContentExtractor.

(** ** The shape of an image tag *)

Module ImageTag.

Import ContentExtractor.

(** What the image pattern matches, with its capture [src]: [head]
    begins with [<img], has no [>] and ends with [src=]; a quote of
    either kind; the capture, without quotes; a quote; a run without
    [>]; and [>]. *)
Definition shape (tag src : list N) : Prop :=
  exists (head rest : list N) (q q' : N),
    tag = head ++ q :: src ++ q' :: rest ++ [ch ">"]
    /\ startsWith_ci head (js "<i") = true
    /\ Forall (fun c => not_gt c = true) head
    /\ last head = Some (ch "=")
    /\ is_quote q = true /\ is_quote q' = true
    /\ src <> []
    /\ Forall (fun c => is_quote c = false) src
    /\ Forall (fun c => not_gt c = true) rest.

(** The text of the note about a video, from its [<strong>] on. *)
Definition note_text : list N :=
  js "<strong>This is a YouTube video.</strong> Visit the link to watch the video.</p>".

(** The note with the end of the tag that opens it. *)
Definition closed_note : list N := dquote :: ch ">" :: note_text.

(** A content that holds the note, after a tag that is closed behind
    the letter [e] of [content-note] or the letter [p] of [.webp]. *)
Definition holds_note (s : list N) : Prop :=
  exists (u v : list N) (c : N),
    s = u ++ c :: closed_note ++ v /\ (c = ch "e" \/ c = ch "p").

End ImageTag.

(** ** The job queue and the extraction state: [queue.ts] *)

Module Queue.

Inductive ExtractionStatus : Type := pending | extracting | completed | failed.

(** A row of the [articles] table, with the columns that the pipeline
    reads or writes. *)
Record Article : Type := {
  id : list N;
  url : list N;
  userId : list N;
  title : list N;
  author : option (list N);
  content : option (list N);
  excerpt : option (list N);
  wordCount : option nat;
  readingTime : option nat;
  publishedAt : option Z;
  favicon : option (list N);
  image : option (list N);
  originalHtml : option (list N);
  extractionStatus : ExtractionStatus;
  extractionError : option (list N);
  updatedAt : Z;
}.

(** [ArticleExtractionJob]: the only kind of job. *)
Record JobData : Type := ExtractArticle {
  articleId : list N;
  job_url : list N;
  job_userId : list N;
}.

(** The state that the functions of [queue.ts] work on: the [articles]
    table by primary key, the asset directory, the module variables and
    the clock in milliseconds.  [queue] is [None] until [setupQueue] has
    run: the variables [queue] and [prisma] are assigned there and nowhere
    else, so that both are undefined or both are set.  Once set, [queue]
    holds the jobs that have been given to [queue.push], oldest first; it
    is a record of the calls, and a job stays in it when it has ended.
    [statusLog] records every write of [extractionStatus] and [writeLog]
    every row that an update has written, oldest first; no function
    reads them. *)
Record World : Type := {
  articles : gmap (list N) Article;
  assets : gmap (list N) (list N);
  queue : option (list JobData);
  clock : Z;
  statusLog : list (list N * ExtractionStatus);
  writeLog : list (list N * Article);
}.

Definition with_assets (w : World) (fs : gmap (list N) (list N)) : World :=
  {| articles := articles w; assets := fs; queue := queue w; clock := clock w;
     statusLog := statusLog w; writeLog := writeLog w |}.

Definition with_queue (w : World) (q : option (list JobData)) : World :=
  {| articles := articles w; assets := assets w; queue := q; clock := clock w;
     statusLog := statusLog w; writeLog := writeLog w |}.

Definition advance (w : World) (ms : Z) : World :=
  {| articles := articles w; assets := assets w; queue := queue w;
     clock := (clock w + ms)%Z; statusLog := statusLog w; writeLog := writeLog w |}.

Section Prisma.

Context {R : Runtime}.

(** [prisma.article.update({ where: { id }, data })] at the call on
    [line] of [queue.ts], for the updates of this file, which all write
    [extractionStatus]: it throws when there is no such row.  The
    functions that call it run only once [setupQueue] has assigned
    [prisma]: the handler of the queue, and the loop of
    [cleanupStuckExtractions] behind its [findMany]. *)
Definition update (line : N) (articleId : list N) (data : Article -> Article)
    (w : World) : result World :=
  match articles w !! articleId with
  | None => Throw (update_not_found line)
  | Some a =>
      let a' := data a in
      Ok {| articles := <[articleId := a']> (articles w); assets := assets w;
            queue := queue w; clock := clock w;
            statusLog := statusLog w ++ [(articleId, extractionStatus a')];
            writeLog := writeLog w ++ [(articleId, a')] |}
  end.

End Prisma.

(** The [data] of the three updates of [processArticleExtraction].  A
    field given as [undefined] is left as it is. *)
Definition markExtracting (now : Z) (a : Article) : Article :=
  {| id := id a; url := url a; userId := userId a; title := title a;
     author := author a; content := content a; excerpt := excerpt a;
     wordCount := wordCount a; readingTime := readingTime a;
     publishedAt := publishedAt a; favicon := favicon a; image := image a;
     originalHtml := originalHtml a;
     extractionStatus := extracting; extractionError := None; updatedAt := now |}.

Definition keep {A : Type} (new old : option A) : option A :=
  match new with Some _ => new | None => old end.

Definition markCompleted (extracted : ContentExtractor.ExtractedArticle) (now : Z)
    (a : Article) : Article :=
  {| id := id a; url := url a; userId := userId a;
     title := ContentExtractor.title extracted;
     author := keep (ContentExtractor.author extracted) (author a);
     content := Some (ContentExtractor.content extracted);
     excerpt := keep (ContentExtractor.excerpt extracted) (excerpt a);
     wordCount := Some (ContentExtractor.wordCount extracted);
     readingTime := Some (ContentExtractor.readingTime extracted);
     publishedAt := keep (ContentExtractor.publishedAt extracted) (publishedAt a);
     favicon := keep (ContentExtractor.favicon extracted) (favicon a);
     image := keep (ContentExtractor.image extracted) (image a);
     originalHtml := Some (ContentExtractor.originalHtml extracted);
     extractionStatus := completed; extractionError := None; updatedAt := now |}.

Definition failure_content (url errorMessage : list N) : list N :=
  js "<p>Failed to extract content from URL: " ++ url ++ js "</p><p>Error: "
    ++ errorMessage ++ js "</p>".

Definition markFailed (url errorMessage : list N) (now : Z) (a : Article) : Article :=
  {| id := id a; url := Queue.url a; userId := userId a;
     title := js "Failed to extract";
     author := author a;
     content := Some (failure_content url errorMessage);
     excerpt := excerpt a; wordCount := wordCount a; readingTime := readingTime a;
     publishedAt := publishedAt a; favicon := favicon a; image := image a;
     originalHtml := originalHtml a;
     extractionStatus := failed; extractionError := Some errorMessage;
     updatedAt := now |}.

(** The [data] of the update of [cleanupStuckExtractions]. *)
Definition markTimedOut (now : Z) (a : Article) : Article :=
  {| id := id a; url := url a; userId := userId a; title := title a;
     author := author a; content := content a; excerpt := excerpt a;
     wordCount := wordCount a; readingTime := readingTime a;
     publishedAt := publishedAt a; favicon := favicon a; image := image a;
     originalHtml := originalHtml a;
     extractionStatus := failed;
     extractionError := Some (js "Extraction timeout - job was stuck");
     updatedAt := now |}.

(** [error instanceof Error ? error.message : 'Unknown error'] *)
Definition errorMessage_of (error : thrown) : list N :=
  match error with
  | JsError message => message
  | JsOther => js "Unknown error"
  end.

Section WithRuntime.

Context {R : Runtime} (assetsPath : list N).

(** The [try] block of [processArticleExtraction]. *)
Definition tryExtraction (jobData : JobData) (w : World) : result unit * World :=
  match update 69 (articleId jobData) (markExtracting (clock w)) w with
  | Throw error => (Throw error, w)
  | Ok w =>
      match ContentExtractor.extractFromUrl assetsPath (job_url jobData) (assets w) with
      | (Throw error, fs) => (Throw error, with_assets w fs)
      | (Ok extracted, fs) =>
          let w := with_assets w fs in
          match update 82 (articleId jobData) (markCompleted extracted (clock w)) w with
          | Throw error => (Throw error, w)
          | Ok w => (Ok (), w)
          end
      end
  end.

(** [processArticleExtraction(jobData, extractor)] *)
Definition processArticleExtraction (jobData : JobData) (w : World)
  : result unit * World :=
  match tryExtraction jobData w with
  | (Ok _, w) => (Ok (), w)
  | (Throw error, w) =>
      let errorMessage := errorMessage_of error in
      match update 108 (articleId jobData)
                   (markFailed (job_url jobData) errorMessage (clock w)) w with
      | Throw error' => (Throw error', w)
      | Ok w => (Throw error, w)
      end
  end.

(** The process function given to [new Queue] by [setupQueue]: what it
    passes to [cb]. *)
Definition handler (job : JobData) (w : World) : result unit * World :=
  processArticleExtraction job w.

End WithRuntime.

(** The options given to [new Queue] by [setupQueue]. *)
Record Options : Type := { concurrent : nat; maxRetries : nat; retryDelay : Z }.

Definition options : Options :=
  {| concurrent := 2; maxRetries := 3; retryDelay := 5000 |}.

(** [setupQueue(prismaClient)]: it assigns [prisma] and a new queue. *)
Definition setupQueue (w : World) : World := with_queue w (Some []).

(** *** The worker of the queue *)

Inductive Event : Type :=
| Invoked (attempt : nat)       (* the handler is called *)
| Waited (ms : Z)               (* the delay before another attempt *)
| TaskFinish
| TaskFailed (error : thrown).  (* the job is dropped *)

(** Modelled from the spec: the retry loop of the queue, which belongs
    to the [better-queue] package and is not part of the sources.  On a
    failure of the handler the same job is attempted again, up to
    [maxAttempts] attempts in all, with a fixed delay between attempts;
    when the attempts are exhausted the job is dropped and the queue
    writes nothing.  [run] is the handler at each attempt ([attempt]
    counts from 0) and [left] the number of attempts that remain. *)
Fixpoint attempts (run : nat -> World -> result unit * World) (delay : Z)
    (attempt left : nat) (w : World) : list Event * World :=
  match left with
  | O => ([], w)
  | S left' =>
      match run attempt w with
      | (Ok _, w) => ([Invoked attempt; TaskFinish], w)
      | (Throw error, w) =>
          match left' with
          | O => ([Invoked attempt; TaskFailed error], w)
          | S _ =>
              let '(events, w) := attempts run delay (S attempt) left' (advance w delay) in
              (Invoked attempt :: Waited delay :: events, w)
          end
      end
  end.

(** A job on a worker of the queue that [setupQueue] creates. *)
Definition run_job (run : nat -> World -> result unit * World) (w : World)
  : list Event * World :=
  attempts run (retryDelay options) 0 (maxRetries options) w.

Definition is_invocation (e : Event) : bool :=
  match e with Invoked _ => true | _ => false end.

Definition invocations (events : list Event) : nat :=
  length (List.filter is_invocation events).

(** How a job has ended: the error with which it was dropped, if it
    was. *)
Definition outcome (events : list Event) : option thrown :=
  match last events with
  | Some (TaskFailed error) => Some error
  | _ => None
  end.

(** Every row is stored under its own [id], the primary key. *)
Definition keyed (table : gmap (list N) Article) : Prop :=
  forall k a, table !! k = Some a -> id a = k.

(** The job that [retryExtractionJob] makes for an article. *)
Definition job_of (a : Article) : JobData :=
  {| articleId := id a; job_url := url a; job_userId := userId a |}.

Section WithQueue.

Context {R : Runtime} (assetsPath : list N).

(** Modelled from the spec: [queue.push(jobData, cb)], of the
    [better-queue] package, up to its call of [cb].  The queue schedules
    the job on a worker, which runs it by the retry loop above.  The spec
    does not say when [cb] is called; the package calls it when the job
    has ended, without an error when the handler has succeeded and with
    the error of the last attempt when the job is dropped.  The result is
    the error given to [cb], if any.  Jobs are taken one at a time: what
    other jobs do in the meantime is not part of the model. *)
Definition push (jobData : JobData) (w : World) : option thrown * World :=
  let '(events, w) := run_job (fun _ => handler assetsPath jobData) w in
  (outcome events, w).

(** [addJob(jobData)]: how the promise settles, [Ok] for resolved and
    [Throw] for rejected, and the state when it does. *)
Definition addJob (jobData : JobData) (w : World) : result unit * World :=
  match queue w with
  | None => (Throw (JsError (js "Queue not initialized")), w)
  | Some q =>
      match push jobData (with_queue w (Some (q ++ [jobData]))) with
      | (Some error, w) => (Throw error, w)
      | (None, w) => (Ok (), w)
      end
  end.

(** [retryExtractionJob(articleId)]; before [setupQueue], [prisma] is
    undefined and [prisma.article] throws. *)
Definition retryExtractionJob (articleId : list N) (w : World) : result unit * World :=
  match queue w with
  | None => (Throw (read_of_undefined (js "article")), w)
  | Some _ =>
      match articles w !! articleId with
      | None => (Throw (JsError (js "Article not found")), w)
      | Some article =>
          addJob {| articleId := id article; job_url := url article;
                    job_userId := userId article |} w
      end
  end.

Definition stuckThreshold (w : World) : Z := (clock w - 10 * 60 * 1000)%Z.

Definition is_stuck (threshold : Z) (a : Article) : bool :=
  match extractionStatus a with
  | extracting => (updatedAt a <? threshold)%Z
  | _ => false
  end.

(** The body of the loop of [cleanupStuckExtractions]; what it throws
    is caught and logged. *)
Definition reschedule (w : World) (article : Article) : World :=
  match update 190 (id article) (markTimedOut (clock w)) w with
  | Throw _ => w
  | Ok w => snd (retryExtractionJob (id article) w)
  end.

(** [cleanupStuckExtractions()]: the count that it returns, or what it
    throws; before [setupQueue], [prisma] is undefined and
    [prisma.article] throws at [findMany]. *)
Definition cleanupStuckExtractions (w : World) : result nat * World :=
  match queue w with
  | None => (Throw (read_of_undefined (js "article")), w)
  | Some _ =>
      let threshold := stuckThreshold w in
      let stuckArticles :=
        filter (fun a => is_stuck threshold a = true) (map_to_list (articles w)).*2 in
      (Ok (length stuckArticles), foldl reschedule w stuckArticles)
  end.

End WithQueue.

(** *** Vocabulary for the statements about jobs *)

(** The rows that have been written under the key [k], oldest first. *)
Definition writes_of (k : list N) (w : World) : list Article :=
  (List.filter (fun e => bool_decide (e.1 = k)) (writeLog w)).*2.

(** The jobs of a list that are for the article [k]. *)
Definition jobs_for (k : list N) (jobs : list JobData) : list JobData :=
  List.filter (fun j => bool_decide (articleId j = k)) jobs.

(** From [w] to [w'] only the row of [k] has been written, if there is
    one: the other rows, the keys of the table and the record of the
    pushed jobs are the same, the row keeps its id, URL and owner, and
    time has not gone back. *)
Definition touches_only (k : list N) (w w' : World) : Prop :=
  queue w' = queue w
  /\ (clock w <= clock w')%Z
  /\ (forall k', k' <> k -> articles w' !! k' = articles w !! k')
  /\ (forall a, articles w !! k = Some a ->
        exists a', articles w' !! k = Some a'
                   /\ id a' = id a /\ url a' = url a /\ userId a' = userId a)
  /\ (articles w !! k = None -> articles w' !! k = None)
  /\ (exists rows, writeLog w' = writeLog w ++ rows /\ Forall (fun e => e.1 = k) rows).

(** What a call has thrown, or a promise was rejected with, if it was. *)
Definition rejection {A : Type} (r : result A) : option thrown :=
  match r with
  | Ok _ => None
  | Throw e => Some e
  end.

(** An extraction of the article has ended, with the error [error] if
    it has failed. *)
Definition ended (error : option thrown) (a : Article) : Prop :=
  match error with
  | None => extractionStatus a = completed /\ extractionError a = None
  | Some e =>
      extractionStatus a = failed
      /\ extractionError a = Some (errorMessage_of e)
      /\ title a = js "Failed to extract"
  end.

(** The error, if there is one, is what the extractor has thrown for
    the URL, on some state of the asset directory. *)
Definition from_extraction {R : Runtime} (assetsPath url : list N)
    (error : option thrown) : Prop :=
  match error with
  | None => True
  | Some e =>
      exists fs fs' : gmap (list N) (list N),
        ContentExtractor.extractFromUrl assetsPath url fs = (Throw e, fs')
  end.

End Queue.

(** ** Sample inputs, on which the statements are evaluated *)

Module Samples.

Definition assets_dir : list N := js "/data/assets".

(** A runtime in which Readability extracts [article] from every
    document. *)
Definition reader_runtime (article : ReadabilityArticle) : Runtime :=
  plain_runtime
    (fun _ _ => Ok sample_document)
    (fun d => Ok (Some article, d))
    (fun _ => Throw (JsError (js "fetch failed")))
    (fun buffer => Ok buffer).

Definition article_of_text (text : list N) : ReadabilityArticle :=
  {| r_title := Some (js "A title"); r_byline := None; r_excerpt := None;
     r_content := Some (js "<p>" ++ text ++ js "</p>");
     r_textContent := Some text |}.

Definition four_hundred_words : list (list N) := replicate 400 (js "word").

(** An article whose extraction has completed. *)
Definition read_article : Queue.Article :=
  {| Queue.id := js "a1"; Queue.url := js "https://blog.example/post";
     Queue.userId := js "u1"; Queue.title := js "A title";
     Queue.author := Some (js "An author");
     Queue.content := Some (js "<p>The text of the post.</p>");
     Queue.excerpt := None; Queue.wordCount := Some 5; Queue.readingTime := Some 1;
     Queue.publishedAt := None; Queue.favicon := None; Queue.image := None;
     Queue.originalHtml := Some (js "<html></html>");
     Queue.extractionStatus := Queue.completed; Queue.extractionError := None;
     Queue.updatedAt := 1000 |}.

(** An article left in [extracting] by a worker that died at time 0. *)
Definition stuck_article : Queue.Article :=
  {| Queue.id := js "a2"; Queue.url := js "https://news.example/item";
     Queue.userId := js "u1"; Queue.title := js "Extracting...";
     Queue.author := None; Queue.content := None;
     Queue.excerpt := None; Queue.wordCount := None; Queue.readingTime := None;
     Queue.publishedAt := None; Queue.favicon := None; Queue.image := None;
     Queue.originalHtml := None;
     Queue.extractionStatus := Queue.extracting; Queue.extractionError := None;
     Queue.updatedAt := 0 |}.

(** Both articles, eleven minutes after time 0, before [setupQueue]. *)
Definition world0 : Queue.World :=
  {| Queue.articles := <[js "a1" := read_article]> (<[js "a2" := stuck_article]> ∅);
     Queue.assets := ∅; Queue.queue := None; Queue.clock := 660000;
     Queue.statusLog := []; Queue.writeLog := [] |}.

Definition job1 : Queue.JobData := Queue.job_of read_article.

End Samples.

(** ** A caller: the retry route of [routes/articles.ts] *)

Module Routes.

Import Queue.

(** [request.user], as the [authenticate] hook leaves it. *)
Record User : Type := { user_id : list N; isAdmin : bool }.

(** What a handler answers: the status code, the [message] or [error]
    text, and the [cleaned] count where there is one. *)
Record Reply : Type := { code : N; text : list N; cleaned : option nat }.

Section WithQueue.

Context {R : Runtime} (assetsPath : list N).

(** [fastify.prisma.article.findFirst({ where: { id, userId } })]; the
    primary key identifies the row. *)
Definition findFirst (id userId : list N) (w : World) : option Article :=
  match articles w !! id with
  | Some article =>
      if bool_decide (Queue.userId article = userId) then Some article else None
  | None => None
  end.

(** [POST /:id/retry-extraction] *)
Definition retryExtraction (user : User) (id : list N) (w : World) : Reply * World :=
  let userId := user_id user in
  match findFirst id userId w with
  | None => ({| code := 404; text := js "Article not found"; cleaned := None |}, w)
  | Some _ =>
      match retryExtractionJob assetsPath id w with
      | (Ok _, w) =>
          ({| code := 200; text := js "Extraction job queued for retry";
              cleaned := None |}, w)
      | (Throw _, w) =>
          ({| code := 500; text := js "Failed to queue retry job"; cleaned := None |}, w)
      end
  end.

End WithQueue.

End Routes.

(** ** More sample inputs *)

Module MoreSamples.

(** A runtime whose server answers every request with 404. *)
Definition not_found_runtime : Runtime :=
  plain_runtime
    (fun _ _ => Ok sample_document)
    (fun d => Ok (None, d))
    (fun _ => Ok {| ok := false; status := 404; statusText := js "Not Found";
                    body := Ok [] |})
    (fun buffer => Ok buffer).

(** The owner of the sample articles, and somebody else. *)
Definition owner : Routes.User := {| Routes.user_id := js "u1"; Routes.isAdmin := false |}.
Definition stranger : Routes.User := {| Routes.user_id := js "u2"; Routes.isAdmin := false |}.

(** A document whose lead image is given in the Open Graph metadata. *)
Definition image_document : Document :=
  fun selector =>
    if bool_decide (selector = jsq "[property='og:image']") then
      Some {| getAttribute := fun name =>
                if bool_decide (name = js "content")
                then Some (js "https://cdn.example/lead.png") else None;
              textContent := [] |}
    else None.

(** A runtime that serves [sample_page] for every URL, with a document
    that has a lead image. *)
Definition image_runtime : Runtime :=
  plain_runtime
    (fun _ _ => Ok image_document)
    (fun d => Ok (None, d))
    (fun _ => Ok {| ok := true; status := 200; statusText := js "OK";
                    body := Ok sample_page |})
    (fun buffer => Ok buffer).

(** A runtime whose network fails with an error that has no message. *)
Definition silent_runtime : Runtime :=
  plain_runtime
    (fun _ _ => Ok sample_document)
    (fun d => Ok (None, d))
    (fun _ => Throw (JsError []))
    (fun buffer => Ok buffer).

(** An article, by Readability, that has an image, for a document that has
    a lead image, in a runtime whose network does not serve images. *)
Definition illustrated_article : ReadabilityArticle :=
  {| r_title := Some (js "A title"); r_byline := None; r_excerpt := None;
     r_content := Some (jsq "<p>Look: <img src='https://cdn.example/a.png'> here</p>");
     r_textContent := Some (js "Look: here") |}.

Definition no_image_runtime : Runtime :=
  plain_runtime
    (fun _ _ => Ok image_document)
    (fun d => Ok (Some illustrated_article, d))
    (fun _ => Throw (JsError (js "fetch failed")))
    (fun buffer => Ok buffer).

End MoreSamples.

(** ** Vocabulary of the further properties *)

Module Shapes.

(** A lowercase hexadecimal digit. *)
Definition hex_char (c : N) : bool :=
  ((48 <=? c) && (c <=? 57) || (97 <=? c) && (c <=? 102))%N.

(** The name of a cached image: 32 hexadecimal digits and [.webp]. *)
Definition cache_name (name : list N) : Prop :=
  exists digits : list N,
    name = digits ++ js ".webp" /\ length digits = 32
    /\ Forall (fun c => hex_char c = true) digits.

(** A file of the image cache: a cache name in the asset directory. *)
Definition cache_file (assetsPath p : list N) : Prop :=
  exists name : list N,
    p = ContentExtractor.path_join assetsPath name /\ cache_name name.

(** What became of a directory [fs] in [fs']: every path holds what it
    held, or it is a file of the image cache that has been written. *)
Definition grown (assetsPath : list N) (fs fs' : gmap (list N) (list N)) : Prop :=
  forall p : list N,
    fs' !! p = fs !! p \/ (cache_file assetsPath p /\ is_Some (fs' !! p)).

(** White space is normalized in [s]: no white space at either end, and
    within [s] only single spaces. *)
Definition normalized (s : list N) : Prop :=
  (forall c r, s = c :: r -> isWhiteSpace c = false)
  /\ (forall r c, s = r ++ [c] -> isWhiteSpace c = false)
  /\ Forall (fun c => isWhiteSpace c = true -> c = ch " ") s
  /\ (forall u a b v, s = u ++ a :: b :: v ->
        isWhiteSpace a = true -> isWhiteSpace b = false).

(** The words of a text counted one by one, a word being a maximal run
    of code units that are not white space; [inword] says that the code
    unit before [s] belongs to a word.  The source does not count in this
    way: this is what its count is compared with. *)
Fixpoint word_runs (inword : bool) (s : list N) : nat :=
  match s with
  | [] => 0
  | c :: s' =>
      if isWhiteSpace c then word_runs false s'
      else (if inword then 0 else 1) + word_runs true s'
  end.

(** A tag: [<], code units other than [>], and [>]. *)
Definition tag (t : list N) : Prop :=
  exists body : list N, t = ch "<" :: body ++ [ch ">"] /\ ch ">" ∉ body.

(** No tag is left in [s]: no [<] has a [>] anywhere after it. *)
Definition tagless (s : list N) : Prop :=
  forall u v : list N, s = u ++ ch "<" :: v -> ch ">" ∉ v.

(** [s] holds the beginning of an image tag, in either case. *)
Fixpoint has_img (s : list N) : bool :=
  match s with
  | [] => false
  | _ :: s' => startsWith_ci s (js "<img") || has_img s'
  end.

(** A code unit that neither ends a quoted attribute value or a tag nor
    is an equals sign. *)
Definition url_char (c : N) : bool :=
  negb (ContentExtractor.is_quote c) && ContentExtractor.not_gt c
  && negb (c =? ch "=")%N.

(** An image tag that has its source for only attribute. *)
Definition image_tag (src : list N) : list N :=
  jsq "<img src='" ++ src ++ jsq "'>".

End Shapes.

(** * Properties *)

Example replace_first :
  replace (js "a-b-c") (js "-") (js "+") = js "a+b-c"
  /\ replace (js "xAy") (js "A") (js "[$&$$$`$'$1]") = js "x[A$xy$1]y"
  /\ trim (js "  a b  ") = js "a b"
  /\ endsWith (js "m.youtube.com") (js ".youtube.com") = true.
Proof. vm_compute. auto. Qed.

Example plain_url_hostnames :
  hostname <$> PlainUrl.parse (js "https://M.YouTube.com:8080/watch?v=1") None
    = Some (js "m.youtube.com")
  /\ href <$> PlainUrl.parse (js "http://example.org") None
    = Some (js "http://example.org/")
  /\ PlainUrl.parse (js "/relative/path") None = None.
Proof. vm_compute. auto. Qed.

Example md5_test_vectors :
  Md5.hex (js "") = js "d41d8cd98f00b204e9800998ecf8427e"
  /\ Md5.hex (js "abc") = js "900150983cd24fb0d6963f7d28e17f72"
  /\ Md5.hex (js "https://example.com/a.png") = js "8c11d92f07c76baf29e49afd2301deb2"
  /\ Md5.hex (replicate 56 (ch "x")) = js "668a72d5ba17f08e62dabcafad6db14b"
  /\ Md5.hex (replicate 64 (ch "x")) = js "c1bb4f81d892b2d57947682aeb252456"
  /\ Md5.hex (replicate 120 (ch "x")) = js "fb98667f98096de92620b64f46e1c5b5"
  /\ Md5.hex ([104; 233; 108; 108; 111; 32; 8482; 32; 55357; 56832]%N)
     = js "bebb6c5d18df0c8dc963a67fcd6163ef".
Proof. vm_compute. repeat split. Qed.

(** ** Strings *)

Lemma endsWith_spec (s p : list N) :
  endsWith s p = true <-> exists k, s = k ++ p.
Proof. unfold endsWith. rewrite bool_decide_eq_true. reflexivity. Qed.

Lemma startsWith_spec (s p : list N) :
  startsWith s p = true <-> exists k, s = p ++ k.
Proof. unfold startsWith. rewrite bool_decide_eq_true. reflexivity. Qed.

(** ** Domain matching *)

Section IsExactDomain.

Context {R : Runtime}.

Lemma isExactDomain_unparsed (url domain : list N) :
  URL_new url None = None -> ContentExtractor.isExactDomain url domain = false.
Proof. unfold ContentExtractor.isExactDomain. intros ->. reflexivity. Qed.

Lemma isExactDomain_iff (url domain : list N) (u : URL) :
  URL_new url None = Some u ->
  ContentExtractor.isExactDomain url domain = true
  <-> toLowerCase (hostname u) = domain
      \/ exists sub, toLowerCase (hostname u) = sub ++ ch "." :: domain.
Proof.
  unfold ContentExtractor.isExactDomain. intros ->.
  rewrite orb_true_iff, bool_decide_eq_true, endsWith_spec. reflexivity.
Qed.

Lemma isExactDomain_no_separator (url domain p : list N) (c : N) (u : URL) :
  URL_new url None = Some u ->
  c <> ch "." ->
  toLowerCase (hostname u) = p ++ c :: domain ->
  ContentExtractor.isExactDomain url domain = false.
Proof.
  intros Hu Hc Hh. apply not_true_is_false. intros Ht.
  apply (isExactDomain_iff _ _ _ Hu) in Ht as [Heq | [sub Heq]]; rewrite Hh in Heq.
  - apply (f_equal length) in Heq. rewrite length_app in Heq. simpl in Heq. lia.
  - apply app_inj_2 in Heq as [_ Heq]; [congruence | reflexivity].
Qed.

End IsExactDomain.

(** C7. [isExactDomain] matches a URL against a domain by equality of the
    host name or by a proper subdomain suffix only: it is false for
    https://evilyoutube.com/x and true for https://m.youtube.com/x against
    youtube.com; for every URL that parses, it is true exactly when the
    lowercased host name is the domain or ends with a dot followed by the
    domain, so a host name that ends with the domain after any other
    character does not match; a URL that does not parse matches nothing. *)
Theorem isExactDomain_exact_or_subdomain :
  @ContentExtractor.isExactDomain offline_runtime
     (js "https://evilyoutube.com/x") (js "youtube.com") = false
  /\ @ContentExtractor.isExactDomain offline_runtime
       (js "https://m.youtube.com/x") (js "youtube.com") = true
  /\ forall (R : Runtime) (url domain : list N),
       match URL_new url None with
       | None => ContentExtractor.isExactDomain url domain = false
       | Some u =>
           (ContentExtractor.isExactDomain url domain = true
            <-> toLowerCase (hostname u) = domain
                \/ exists sub, toLowerCase (hostname u) = sub ++ ch "." :: domain)
           /\ forall (p : list N) (c : N),
                c <> ch "." ->
                toLowerCase (hostname u) = p ++ c :: domain ->
                ContentExtractor.isExactDomain url domain = false
       end.
Proof.
  split; [vm_compute; reflexivity |]. split; [vm_compute; reflexivity |].
  intros R url domain. destruct (URL_new url None) as [u |] eqn:Hu.
  - split; [exact (isExactDomain_iff url domain u Hu) |].
    intros p c Hc Hh. exact (isExactDomain_no_separator url domain p c u Hu Hc Hh).
  - exact (isExactDomain_unparsed url domain Hu).
Qed.

Lemma isExactDomain_exact_or_subdomain_witness :
  @ContentExtractor.isExactDomain offline_runtime
     (js "https://notyoutube.com/watch") (js "youtube.com") = false.
Proof.
  destruct isExactDomain_exact_or_subdomain as (_ & _ & H).
  specialize (H offline_runtime (js "https://notyoutube.com/watch") (js "youtube.com")).
  destruct (@URL_new offline_runtime (js "https://notyoutube.com/watch") None)
    as [u |] eqn:Hu; [| exact H].
  destruct H as [_ H].
  vm_compute in Hu. injection Hu as <-.
  apply (H (js "no") (ch "t")); [discriminate | reflexivity].
Defined.

(** ** The local file name of an image *)

Section ImagePipeline.

Context {R : Runtime} (assetsPath : list N).

Lemma downloadAndOptimizeImage_name (imageUrl name : list N)
    (fs fs' : gmap (list N) (list N)) :
  ContentExtractor.downloadAndOptimizeImage assetsPath imageUrl fs = (Some name, fs') ->
  name = ContentExtractor.localFilename imageUrl.
Proof.
  unfold ContentExtractor.downloadAndOptimizeImage.
  destruct (fetch imageUrl) as [response |]; [| discriminate].
  destruct (ok response); simpl; [| discriminate].
  destruct (body response) as [buffer |]; [| discriminate].
  destruct (sharp_webp buffer); [| discriminate].
  intros [= <- _]. reflexivity.
Qed.

Lemma downloadAndOptimizeImage_stores (imageUrl name : list N)
    (fs fs' : gmap (list N) (list N)) :
  ContentExtractor.downloadAndOptimizeImage assetsPath imageUrl fs = (Some name, fs') ->
  is_Some (fs' !! ContentExtractor.path_join assetsPath name)
  /\ forall p, p <> ContentExtractor.path_join assetsPath name -> fs' !! p = fs !! p.
Proof.
  unfold ContentExtractor.downloadAndOptimizeImage.
  destruct (fetch imageUrl) as [response |]; [| discriminate].
  destruct (ok response); simpl; [| discriminate].
  destruct (body response) as [buffer |]; [| discriminate].
  destruct (sharp_webp buffer) as [webp |]; [| discriminate].
  intros [= <- <-]. split.
  - rewrite lookup_insert_eq. eauto.
  - intros p Hp. rewrite lookup_insert_ne; [reflexivity | congruence].
Qed.

End ImagePipeline.

Lemma localFilename_eq_iff (u1 u2 : list N) :
  ContentExtractor.localFilename u1 = ContentExtractor.localFilename u2
  <-> Md5.hex u1 = Md5.hex u2.
Proof.
  unfold ContentExtractor.localFilename. split.
  - intros H. apply app_inv_tail in H. exact H.
  - intros ->. reflexivity.
Qed.

Lemma path_join_inj (dir name1 name2 : list N) :
  ContentExtractor.path_join dir name1 = ContentExtractor.path_join dir name2 ->
  name1 = name2.
Proof.
  unfold ContentExtractor.path_join. intros H.
  apply app_inv_head in H. apply app_inv_head in H. exact H.
Qed.

(** C8. The local file name of an image is a function of the remote URL
    alone, the MD5 hash of the URL in hexadecimal followed by .webp: whenever
    [downloadAndOptimizeImage] gives a name it is that one, whatever the
    network serves and whatever the asset directory holds, so that two calls
    with the same URL give the same name.  The hash is MD5, as its test
    vectors show.  The bytes have no part in the name: two URLs that serve
    identical bytes are given the names of their own hashes, which are
    distinct names whenever the hashes are, and the image is then stored
    twice, once under each name. *)
Theorem local_filename_is_md5_of_url :
  (forall (R : Runtime) (assetsPath imageUrl name : list N)
          (fs fs' : gmap (list N) (list N)),
      ContentExtractor.downloadAndOptimizeImage assetsPath imageUrl fs = (Some name, fs') ->
      name = Md5.hex imageUrl ++ js ".webp")
  /\ (forall (R1 R2 : Runtime) (dir1 dir2 imageUrl name1 name2 : list N)
             (fs1 fs1' fs2 fs2' : gmap (list N) (list N)),
        @ContentExtractor.downloadAndOptimizeImage R1 dir1 imageUrl fs1 = (Some name1, fs1') ->
        @ContentExtractor.downloadAndOptimizeImage R2 dir2 imageUrl fs2 = (Some name2, fs2') ->
        name1 = name2)
  /\ (Md5.hex (js "") = js "d41d8cd98f00b204e9800998ecf8427e"
      /\ Md5.hex (js "a") = js "0cc175b9c0f1b6a831c399e269772661"
      /\ Md5.hex (js "abc") = js "900150983cd24fb0d6963f7d28e17f72"
      /\ Md5.hex (js "message digest") = js "f96b697d7cb7938d525a2f31aaf161d0")
  /\ (forall (R : Runtime) (assetsPath u1 u2 : list N) (fs : gmap (list N) (list N))
             (response : Response) (buffer webp : list N),
        fetch u1 = Ok response ->
        fetch u2 = Ok response ->
        ok response = true ->
        body response = Ok buffer ->
        sharp_webp buffer = Ok webp ->
        let first := ContentExtractor.downloadAndOptimizeImage assetsPath u1 fs in
        let second := ContentExtractor.downloadAndOptimizeImage assetsPath u2 first.2 in
        first.1 = Some (Md5.hex u1 ++ js ".webp")
        /\ second.1 = Some (Md5.hex u2 ++ js ".webp")
        /\ (first.1 = second.1 <-> Md5.hex u1 = Md5.hex u2)
        /\ second.2 !! ContentExtractor.path_join assetsPath (Md5.hex u2 ++ js ".webp")
           = Some webp
        /\ second.2 !! ContentExtractor.path_join assetsPath (Md5.hex u1 ++ js ".webp")
           = Some webp).
Proof.
  split; [| split; [| split]].
  - intros R assetsPath imageUrl name fs fs' H.
    apply (downloadAndOptimizeImage_name assetsPath) in H. exact H.
  - intros R1 R2 dir1 dir2 imageUrl name1 name2 fs1 fs1' fs2 fs2' H1 H2.
    apply (@downloadAndOptimizeImage_name R1 dir1) in H1.
    apply (@downloadAndOptimizeImage_name R2 dir2) in H2. congruence.
  - vm_compute. repeat split.
  - intros R assetsPath u1 u2 fs response buffer webp Hf1 Hf2 Hok Hb Hs.
    unfold ContentExtractor.downloadAndOptimizeImage.
    rewrite Hf1, Hf2, Hok. cbn [negb]. rewrite Hb, Hs. cbn [fst snd].
    unfold ContentExtractor.localFilename.
    split; [reflexivity |]. split; [reflexivity |]. split.
    + split.
      * intros H.
        assert (H' : Md5.hex u1 ++ js ".webp" = Md5.hex u2 ++ js ".webp") by congruence.
        apply app_inv_tail in H'. exact H'.
      * intros ->. reflexivity.
    + split; [apply lookup_insert_eq |].
      destruct (decide (Md5.hex u1 = Md5.hex u2)) as [-> | Hne];
        [apply lookup_insert_eq |].
      rewrite lookup_insert_ne; [apply lookup_insert_eq |].
      intros H. apply path_join_inj, app_inv_tail in H. congruence.
Qed.

Lemma local_filename_is_md5_of_url_witness :
  let first :=
    @ContentExtractor.downloadAndOptimizeImage online_runtime Samples.assets_dir
      (js "https://cdn.example/a.png") ∅ in
  let second :=
    @ContentExtractor.downloadAndOptimizeImage online_runtime Samples.assets_dir
      (js "https://mirror.example/a.png") first.2 in
  first.1 = Some (js "fc39ac27b75a18c1c47cb266cd400ff5.webp")
  /\ second.1 = Some (js "ff73b4d9f4cb093bcbc19293215ad07e.webp")
  /\ second.2 !! js "/data/assets/fc39ac27b75a18c1c47cb266cd400ff5.webp" = Some sample_page
  /\ second.2 !! js "/data/assets/ff73b4d9f4cb093bcbc19293215ad07e.webp" = Some sample_page.
Proof.
  destruct (proj2 (proj2 (proj2 local_filename_is_md5_of_url)) online_runtime
              Samples.assets_dir (js "https://cdn.example/a.png")
              (js "https://mirror.example/a.png") ∅
              {| ok := true; status := 200; statusText := js "OK"; body := Ok sample_page |}
              sample_page sample_page eq_refl eq_refl eq_refl eq_refl eq_refl)
    as (H1 & H2 & _ & H3 & H4).
  cbv zeta. rewrite H1, H2.
  assert (Ha : Md5.hex (js "https://cdn.example/a.png") = js "fc39ac27b75a18c1c47cb266cd400ff5")
    by (vm_compute; reflexivity).
  assert (Hb : Md5.hex (js "https://mirror.example/a.png")
               = js "ff73b4d9f4cb093bcbc19293215ad07e") by (vm_compute; reflexivity).
  rewrite Ha in H1, H4 |- *. rewrite Hb in H2, H3 |- *.
  split; [reflexivity |]. split; [reflexivity |]. split; [exact H4 | exact H3].
Defined.

(** ** Words and reading time *)

Section Words.

Import ContentExtractor.

Lemma trimStart_nonspace (c : N) (s : list N) :
  isWhiteSpace c = false -> trimStart (c :: s) = c :: s.
Proof. intros H. simpl. rewrite H. reflexivity. Qed.

Lemma trimEnd_nonspace (s : list N) (c : N) :
  isWhiteSpace c = false -> trimEnd (s ++ [c]) = s ++ [c].
Proof.
  intros H. unfold trimEnd. rewrite reverse_app. simpl.
  change (reverse [c]) with [c]. simpl. rewrite H.
  rewrite reverse_cons, reverse_involutive. reflexivity.
Qed.

Lemma split_spaces_word (w s cur : list N) (inws : bool) :
  Forall (fun c => isWhiteSpace c = false) w ->
  w <> [] \/ inws = false ->
  split_spaces inws cur (w ++ s) = split_spaces false (cur ++ w) s.
Proof.
  intros Hw. revert cur inws. induction Hw as [| c w Hc Hw IH]; intros cur inws Hne.
  - destruct Hne as [Hne | ->]; [congruence |]. rewrite app_nil_r. reflexivity.
  - simpl. rewrite Hc. rewrite IH by (right; reflexivity).
    rewrite <- app_assoc. reflexivity.
Qed.

Lemma sentence_cons (w : list N) (ws : list (list N)) :
  ws <> [] -> sentence (w :: ws) = w ++ ch " " :: sentence ws.
Proof. destruct ws; [congruence | reflexivity]. Qed.

Lemma split_spaces_sentence (words : list (list N)) :
  words <> [] -> Forall is_word words ->
  forall inws cur, length (split_spaces inws cur (sentence words)) = length words.
Proof.
  induction words as [| w ws IH]; [congruence |].
  intros _ Hall inws cur. inversion Hall as [| ? ? [Hne Hw] Hws]; subst.
  destruct ws as [| w2 ws].
  - simpl. rewrite <- (app_nil_r w).
    rewrite split_spaces_word by auto. reflexivity.
  - rewrite sentence_cons by discriminate.
    rewrite split_spaces_word by auto.
    change (split_spaces false (cur ++ w) (ch " " :: sentence (w2 :: ws)))
      with ((cur ++ w) :: split_spaces true [] (sentence (w2 :: ws))).
    simpl length. rewrite IH by (auto; discriminate). reflexivity.
Qed.

Lemma sentence_head (words : list (list N)) :
  words <> [] -> Forall is_word words ->
  exists c s, sentence words = c :: s /\ isWhiteSpace c = false.
Proof.
  destruct words as [| w ws]; [congruence |]. intros _ Hall.
  inversion Hall as [| ? ? [Hne Hw] _]; subst.
  destruct w as [| c w]; [congruence |]. inversion Hw; subst.
  destruct ws; simpl; eauto.
Qed.

Lemma sentence_last (words : list (list N)) :
  words <> [] -> Forall is_word words ->
  exists s c, sentence words = s ++ [c] /\ isWhiteSpace c = false.
Proof.
  induction words as [| w ws IH]; [congruence |]. intros _ Hall.
  inversion Hall as [| ? ? [Hne Hw] Hws]; subst.
  destruct ws as [| w2 ws].
  - simpl. destruct (exists_last Hne) as (s & c & ->).
    exists s, c. split; [reflexivity |].
    apply Forall_app in Hw as [_ Hc]. inversion Hc; assumption.
  - destruct IH as (s & c & Hs & Hc); [discriminate | assumption |].
    rewrite sentence_cons by discriminate. rewrite Hs.
    exists (w ++ ch " " :: s), c. split; [| assumption].
    rewrite <- app_assoc. reflexivity.
Qed.

Lemma trim_sentence (words : list (list N)) :
  words <> [] -> Forall is_word words -> trim (sentence words) = sentence words.
Proof.
  intros Hne Hall. unfold trim.
  destruct (sentence_head words Hne Hall) as (c & s & Hs & Hc).
  rewrite Hs, (trimStart_nonspace c s Hc), <- Hs.
  destruct (sentence_last words Hne Hall) as (s' & c' & Hs' & Hc').
  rewrite Hs'. apply trimEnd_nonspace. exact Hc'.
Qed.

Lemma countWords_sentence (words : list (list N)) :
  words <> [] -> Forall is_word words -> countWords (sentence words) = length words.
Proof.
  intros Hne Hall. unfold countWords.
  rewrite trim_sentence by assumption. apply split_spaces_sentence; assumption.
Qed.

Lemma split_spaces_nonempty (inws : bool) (cur s : list N) :
  1 <= length (split_spaces inws cur s).
Proof.
  revert inws cur. induction s as [| c s IH]; intros inws cur; simpl; [lia |].
  destruct (isWhiteSpace c), inws; simpl; auto; lia.
Qed.

Lemma countWords_positive (text : list N) : 1 <= countWords text.
Proof. apply split_spaces_nonempty. Qed.

Lemma readingTime_of_ceiling (n : nat) :
  n <= 200 * readingTime_of n /\ 200 * readingTime_of n < n + 200.
Proof.
  unfold readingTime_of.
  pose proof (Nat.div_mod_eq (n + 199) 200) as H.
  pose proof (Nat.mod_upper_bound (n + 199) 200) as H'. lia.
Qed.

End Words.

(** ** [extractFromHtml] *)

Section ExtractFromHtml.

Import ContentExtractor.

Context {R : Runtime} (assetsPath : list N).

Lemma extractFromHtml_parsed (html : list N) (baseUrl : option (list N))
    (document0 document : Document) (article : option ReadabilityArticle)
    (fs : gmap (list N) (list N)) :
  JSDOM_document html baseUrl = Ok document0 ->
  Readability_parse document0 = Ok (article, document) ->
  (extractFromHtml assetsPath html baseUrl fs).1
  = Ok (assembled assetsPath html baseUrl article document fs).
Proof.
  intros Hdom Hread. unfold extractFromHtml, assembled. rewrite Hdom, Hread.
  destruct (chooseFields article document baseUrl) as [[[t a] e] c]. simpl.
  destruct (extractAndOptimizeImage assetsPath document baseUrl fs) as [img fs1]. simpl.
  destruct (processImagesInContent assetsPath c baseUrl fs1) as [pc fs2]. reflexivity.
Qed.

Lemma extractFromHtml_Ok (html : list N) (baseUrl : option (list N))
    (fs fs' : gmap (list N) (list N)) (extracted : ExtractedArticle) :
  extractFromHtml assetsPath html baseUrl fs = (Ok extracted, fs') ->
  exists document0 article document,
    JSDOM_document html baseUrl = Ok document0
    /\ Readability_parse document0 = Ok (article, document)
    /\ extracted = assembled assetsPath html baseUrl article document fs.
Proof.
  intros H.
  destruct (JSDOM_document html baseUrl) as [document0 |] eqn:Hdom;
    [| unfold extractFromHtml in H; rewrite Hdom in H; discriminate].
  destruct (Readability_parse document0) as [[article document] |] eqn:Hread;
    [| unfold extractFromHtml in H; rewrite Hdom, Hread in H; discriminate].
  exists document0, article, document. repeat split; try assumption.
  pose proof (extractFromHtml_parsed html baseUrl document0 document article fs Hdom Hread)
    as Hp.
  rewrite H in Hp. simpl in Hp. congruence.
Qed.

End ExtractFromHtml.

(** ** The extraction state *)

Section ExtractionState.

Import Queue.

Context {R : Runtime} (assetsPath : list N).

Lemma update_Some (line : N) (k : list N) (data : Article -> Article) (w : World)
    (a : Article) :
  articles w !! k = Some a ->
  update line k data w
  = Ok {| articles := <[k := data a]> (articles w); assets := assets w;
          queue := queue w; clock := clock w;
          statusLog := statusLog w ++ [(k, extractionStatus (data a))];
          writeLog := writeLog w ++ [(k, data a)] |}.
Proof. unfold update. intros ->. reflexivity. Qed.

Lemma update_None (line : N) (k : list N) (data : Article -> Article) (w : World) :
  articles w !! k = None -> update line k data w = Throw (update_not_found line).
Proof. unfold update. intros ->. reflexivity. Qed.

(** A failing extraction: the handler marks the article as extracting,
    then as failed, and throws the error again. *)
Lemma processArticleExtraction_failure (job : JobData) (w : World) (a : Article)
    (error : thrown) (fs : gmap (list N) (list N)) :
  articles w !! articleId job = Some a ->
  ContentExtractor.extractFromUrl assetsPath (job_url job) (assets w) = (Throw error, fs) ->
  processArticleExtraction assetsPath job w
  = (Throw error,
     {| articles :=
          <[articleId job :=
              markFailed (job_url job) (errorMessage_of error) (clock w)
                (markExtracting (clock w) a)]> (articles w);
        assets := fs; queue := queue w; clock := clock w;
        statusLog := statusLog w ++ [(articleId job, extracting); (articleId job, failed)];
        writeLog :=
          writeLog w
          ++ [(articleId job, markExtracting (clock w) a);
              (articleId job,
               markFailed (job_url job) (errorMessage_of error) (clock w)
                 (markExtracting (clock w) a))] |}).
Proof.
  intros Ha Hx. unfold processArticleExtraction, tryExtraction.
  rewrite (update_Some _ _ _ _ _ Ha). cbn [assets]. rewrite Hx.
  unfold with_assets. cbn [articles assets queue clock statusLog writeLog].
  erewrite update_Some by (cbn [articles]; apply lookup_insert_eq).
  cbn [articles assets queue clock statusLog writeLog].
  rewrite insert_insert_eq, <- !app_assoc. reflexivity.
Qed.

End ExtractionState.

Section Handler.

Import Queue.

Context {R : Runtime} (assetsPath : list N).

(** A successful extraction: the handler marks the article as extracting,
    then writes the result and the status completed. *)
Lemma processArticleExtraction_success (job : JobData) (w : World) (a : Article)
    (extracted : ContentExtractor.ExtractedArticle) (fs : gmap (list N) (list N)) :
  articles w !! articleId job = Some a ->
  ContentExtractor.extractFromUrl assetsPath (job_url job) (assets w) = (Ok extracted, fs) ->
  processArticleExtraction assetsPath job w
  = (Ok (),
     {| articles :=
          <[articleId job :=
              markCompleted extracted (clock w) (markExtracting (clock w) a)]> (articles w);
        assets := fs; queue := queue w; clock := clock w;
        statusLog := statusLog w ++ [(articleId job, extracting); (articleId job, completed)];
        writeLog :=
          writeLog w
          ++ [(articleId job, markExtracting (clock w) a);
              (articleId job,
               markCompleted extracted (clock w) (markExtracting (clock w) a))] |}).
Proof.
  intros Ha Hx. unfold processArticleExtraction, tryExtraction.
  rewrite (update_Some _ _ _ _ _ Ha). cbn [assets]. rewrite Hx.
  unfold with_assets. cbn [articles assets queue clock statusLog writeLog].
  erewrite update_Some by (cbn [articles]; apply lookup_insert_eq).
  cbn [articles assets queue clock statusLog writeLog].
  rewrite insert_insert_eq, <- !app_assoc. reflexivity.
Qed.

(** The article of the job is missing: the first update throws, and so
    does the update of the catch block, whose error is the one that leaves
    the handler. *)
Lemma processArticleExtraction_missing (job : JobData) (w : World) :
  articles w !! articleId job = None ->
  processArticleExtraction assetsPath job w = (Throw (update_not_found 108), w).
Proof.
  intros Ha. unfold processArticleExtraction, tryExtraction.
  rewrite (update_None _ _ _ _ Ha). rewrite (update_None _ _ _ _ Ha). reflexivity.
Qed.

End Handler.

(** C4, as the spec has it, does not hold: the network fails with an error
    that has no message; the job fails, the article is failed, and its
    extraction error is the empty text. *)
Lemma failed_extraction_may_have_no_message :
  let failed :=
    @Queue.processArticleExtraction MoreSamples.silent_runtime Samples.assets_dir
      Samples.job1 Samples.world0 in
  failed.1 = Throw (JsError [])
  /\ Queue.extractionStatus <$> Queue.articles failed.2 !! js "a1" = Some Queue.failed
  /\ Queue.extractionError <$> Queue.articles failed.2 !! js "a1" = Some (Some []).
Proof. vm_compute. repeat split. Qed.

(** C4, amended. After an extraction that fails because the extractor
    throws, the article has the status failed, its extraction error is the
    message of the error that was thrown (the text Unknown error when what
    was thrown is not an Error), which is empty exactly when an Error
    without message was thrown, and its title and content are overwritten by
    the Failed to extract placeholder, whose content embeds the URL of the
    job, which is the URL of the article when the job was made of the
    article, and the error message. *)
Theorem failed_extraction_is_visible :
  forall (R : Runtime) (assetsPath : list N) (job : Queue.JobData) (w : Queue.World)
         (a : Queue.Article) (error : thrown) (fs : gmap (list N) (list N)),
    Queue.articles w !! Queue.articleId job = Some a ->
    ContentExtractor.extractFromUrl assetsPath (Queue.job_url job) (Queue.assets w)
    = (Throw error, fs) ->
    exists a' : Queue.Article,
      Queue.articles (Queue.processArticleExtraction assetsPath job w).2
        !! Queue.articleId job = Some a'
      /\ Queue.extractionStatus a' = Queue.failed
      /\ Queue.extractionError a' = Some (Queue.errorMessage_of error)
      /\ (forall message, error = JsError message ->
            Queue.extractionError a' = Some message)
      /\ (error = JsOther -> Queue.extractionError a' = Some (js "Unknown error"))
      /\ (Queue.extractionError a' = Some [] <-> error = JsError [])
      /\ Queue.title a' = js "Failed to extract"
      /\ Queue.content a'
         = Some (js "<p>Failed to extract content from URL: " ++ Queue.job_url job
                 ++ js "</p><p>Error: " ++ Queue.errorMessage_of error ++ js "</p>")
      /\ (exists before between after : list N,
             Queue.content a'
             = Some (before ++ Queue.job_url job ++ between
                     ++ Queue.errorMessage_of error ++ after))
      /\ (job = Queue.job_of a ->
          exists before between after : list N,
            Queue.content a'
            = Some (before ++ Queue.url a ++ between
                    ++ Queue.errorMessage_of error ++ after)).
Proof.
  intros R assetsPath job w a error fs Ha Hx.
  rewrite (processArticleExtraction_failure assetsPath job w a error fs Ha Hx).
  cbn [snd Queue.articles]. rewrite lookup_insert_eq.
  eexists. split; [reflexivity |].
  cbn [Queue.markFailed Queue.markExtracting Queue.extractionStatus Queue.extractionError
       Queue.title Queue.content Queue.failure_content].
  split; [reflexivity |]. split; [reflexivity |].
  split; [intros message ->; reflexivity |].
  split; [intros ->; reflexivity |].
  split.
  { destruct error as [[| c m] |]; cbn [Queue.errorMessage_of]; split; intros H;
      try reflexivity; try discriminate H. }
  split; [reflexivity |]. split; [reflexivity |]. split.
  - exists (js "<p>Failed to extract content from URL: "), (js "</p><p>Error: "), (js "</p>").
    reflexivity.
  - intros ->.
    exists (js "<p>Failed to extract content from URL: "), (js "</p><p>Error: "), (js "</p>").
    reflexivity.
Qed.

Lemma failed_extraction_is_visible_witness :
  exists a' : Queue.Article,
    Queue.articles
      (@Queue.processArticleExtraction offline_runtime Samples.assets_dir
         Samples.job1 Samples.world0).2 !! js "a1" = Some a'
    /\ Queue.extractionStatus a' = Queue.failed
    /\ Queue.extractionError a' = Some (js "fetch failed").
Proof.
  destruct (failed_extraction_is_visible offline_runtime Samples.assets_dir Samples.job1
              Samples.world0 Samples.read_article (JsError (js "fetch failed")) ∅)
    as (a' & Ha' & Hs & He & _).
  - vm_compute. reflexivity.
  - reflexivity.
  - exists a'. auto.
Defined.

(** C1, as the spec has it, does not hold: the extraction of an article
    had completed; the article is retried by [retryExtractionJob] while the
    network is down; the job fails, and the title and the content of the
    article are now the placeholder. *)
Lemma failed_retry_overwrites_completed_content :
  let w := Queue.setupQueue Samples.world0 in
  let retried :=
    @Queue.retryExtractionJob offline_runtime Samples.assets_dir (js "a1") w in
  Queue.extractionStatus <$> Queue.articles w !! js "a1" = Some Queue.completed
  /\ Queue.title <$> Queue.articles w !! js "a1" = Some (js "A title")
  /\ Queue.content <$> Queue.articles w !! js "a1"
     = Some (Some (js "<p>The text of the post.</p>"))
  /\ retried.1 = Throw (JsError (js "fetch failed"))
  /\ Queue.extractionStatus <$> Queue.articles retried.2 !! js "a1" = Some Queue.failed
  /\ Queue.title <$> Queue.articles retried.2 !! js "a1" = Some (js "Failed to extract")
  /\ Queue.content <$> Queue.articles retried.2 !! js "a1"
     = Some (Some (js "<p>Failed to extract content from URL: https://blog.example/post</p><p>Error: fetch failed</p>")).
Proof. vm_compute. repeat split. Qed.

(** C1, amended. An extraction that fails overwrites the title and the
    content of the article with the placeholder, also when an earlier
    extraction of the article had completed, and leaves the other extracted
    fields as they were.  The other writes do not touch the title and the
    content: marking an article as extracting, and the timeout mark of the
    reaper. *)
Theorem content_is_rewritten_when_an_extraction_ends :
  (forall (R : Runtime) (assetsPath : list N) (job : Queue.JobData) (w : Queue.World)
          (a : Queue.Article) (error : thrown) (fs : gmap (list N) (list N)),
      Queue.articles w !! Queue.articleId job = Some a ->
      ContentExtractor.extractFromUrl assetsPath (Queue.job_url job) (Queue.assets w)
      = (Throw error, fs) ->
      exists a' : Queue.Article,
        Queue.articles (Queue.processArticleExtraction assetsPath job w).2
          !! Queue.articleId job = Some a'
        /\ Queue.title a' = js "Failed to extract"
        /\ Queue.content a'
           = Some (Queue.failure_content (Queue.job_url job) (Queue.errorMessage_of error))
        /\ Queue.author a' = Queue.author a /\ Queue.excerpt a' = Queue.excerpt a
        /\ Queue.wordCount a' = Queue.wordCount a
        /\ Queue.readingTime a' = Queue.readingTime a
        /\ Queue.publishedAt a' = Queue.publishedAt a
        /\ Queue.favicon a' = Queue.favicon a /\ Queue.image a' = Queue.image a
        /\ Queue.originalHtml a' = Queue.originalHtml a)
  /\ (forall (now : Z) (a : Queue.Article),
        Queue.title (Queue.markExtracting now a) = Queue.title a
        /\ Queue.content (Queue.markExtracting now a) = Queue.content a)
  /\ (forall (now : Z) (a : Queue.Article),
        Queue.title (Queue.markTimedOut now a) = Queue.title a
        /\ Queue.content (Queue.markTimedOut now a) = Queue.content a).
Proof.
  split; [| split].
  - intros R assetsPath job w a error fs Ha Hx.
    rewrite (processArticleExtraction_failure assetsPath job w a error fs Ha Hx).
    cbn [snd Queue.articles]. rewrite lookup_insert_eq.
    eexists. split; [reflexivity |]. cbn. repeat split.
  - intros now a. split; reflexivity.
  - intros now a. split; reflexivity.
Qed.

Lemma content_is_rewritten_when_an_extraction_ends_witness :
  exists a' : Queue.Article,
    Queue.articles
      (@Queue.processArticleExtraction offline_runtime Samples.assets_dir
         Samples.job1 Samples.world0).2 !! js "a1" = Some a'
    /\ Queue.title a' = js "Failed to extract"
    /\ Queue.author a' = Some (js "An author").
Proof.
  destruct (proj1 content_is_rewritten_when_an_extraction_ends offline_runtime
              Samples.assets_dir Samples.job1 Samples.world0 Samples.read_article
              (JsError (js "fetch failed")) ∅)
    as (a' & Ha' & Ht & _ & Hau & _).
  - vm_compute. reflexivity.
  - reflexivity.
  - exists a'. auto.
Defined.

(** ** The queue *)

Section Worker.

Import Queue.

Lemma invocations_cons_invoked (n : nat) (events : list Event) :
  invocations (Invoked n :: events) = S (invocations events).
Proof. reflexivity. Qed.

Lemma invocations_cons_waited (ms : Z) (events : list Event) :
  invocations (Waited ms :: events) = invocations events.
Proof. reflexivity. Qed.

(** A handler that throws at every attempt is called once for each
    attempt that the queue allows. *)
Lemma attempts_all_fail (run : nat -> World -> result unit * World) (delay : Z) :
  (forall attempt w, exists error w', run attempt w = (Throw error, w')) ->
  forall left attempt w, invocations (attempts run delay attempt left w).1 = left.
Proof.
  intros Hfail. induction left as [| left IH]; intros attempt w; [reflexivity |].
  simpl. destruct (Hfail attempt w) as (error & w' & ->).
  destruct left as [| left'].
  - reflexivity.
  - specialize (IH (S attempt) (advance w' delay)).
    destruct (attempts run delay (S attempt) (S left') (advance w' delay)) as [events w''].
    simpl in IH. cbn [fst]. rewrite invocations_cons_invoked, invocations_cons_waited.
    rewrite IH. reflexivity.
Qed.

End Worker.

(** C3. A handler that throws at every execution is called exactly 3 times
    by the queue that [setupQueue] configures (3 attempts, 5000 ms between
    them), with the fixed delay between two successive attempts, and the job
    is then dropped. *)
Theorem always_failing_handler_runs_three_times :
  forall (run : nat -> Queue.World -> result unit * Queue.World) (w : Queue.World),
    (forall attempt w0, exists error w1, run attempt w0 = (Throw error, w1)) ->
    Queue.maxRetries Queue.options = 3
    /\ Queue.retryDelay Queue.options = 5000%Z
    /\ Queue.invocations (Queue.run_job run w).1 = 3
    /\ exists error : thrown,
         (Queue.run_job run w).1
         = [Queue.Invoked 0; Queue.Waited 5000; Queue.Invoked 1; Queue.Waited 5000;
            Queue.Invoked 2; Queue.TaskFailed error].
Proof.
  intros run w Hfail. split; [reflexivity |]. split; [reflexivity |].
  split; [apply (attempts_all_fail run _ Hfail) |].
  unfold Queue.run_job. cbn [Queue.maxRetries Queue.retryDelay Queue.options].
  cbn [Queue.attempts].
  destruct (Hfail 0 w) as (e0 & w0 & ->).
  destruct (Hfail 1 (Queue.advance w0 5000)) as (e1 & w1 & ->).
  destruct (Hfail 2 (Queue.advance w1 5000)) as (e2 & w2 & ->).
  exists e2. reflexivity.
Qed.

Lemma always_failing_handler_runs_three_times_witness :
  Queue.invocations
    (Queue.run_job
       (fun _ => @Queue.handler offline_runtime Samples.assets_dir Samples.job1)
       Samples.world0).1 = 3.
Proof.
  apply (always_failing_handler_runs_three_times
           (fun _ => @Queue.handler offline_runtime Samples.assets_dir Samples.job1)
           Samples.world0).
  intros _ w0. unfold Queue.handler, Queue.processArticleExtraction, Queue.tryExtraction.
  destruct (Queue.update 69 (Queue.articleId Samples.job1)
              (Queue.markExtracting (Queue.clock w0)) w0) as [w1 | e1].
  - cbn. destruct (Queue.update _ _ _ _); eauto.
  - destruct (Queue.update _ _ _ _); eauto.
Defined.

Section Retry.

Import Queue.

Context {R : Runtime} (assetsPath : list N).

Lemma handler_failure_steps (job : JobData) (a : Article) (error : thrown)
    (delay : Z) (w : World) :
  articles w !! articleId job = Some a ->
  (forall fs, exists fs',
      ContentExtractor.extractFromUrl assetsPath (job_url job) fs = (Throw error, fs')) ->
  exists (a' : Article) (w' : World),
    handler assetsPath job w = (Throw error, w')
    /\ articles w' !! articleId job = Some a'
    /\ extractionStatus a' = failed
    /\ articles (advance w' delay) !! articleId job = Some a'
    /\ statusLog (advance w' delay)
       = statusLog w ++ [(articleId job, extracting); (articleId job, failed)].
Proof.
  intros Ha Hfail. destruct (Hfail (assets w)) as (fs' & Hx).
  unfold handler. rewrite (processArticleExtraction_failure assetsPath job w a error fs' Ha Hx).
  eexists _, _. split; [reflexivity |]. cbn [articles advance statusLog].
  rewrite lookup_insert_eq. repeat split.
Qed.

End Retry.

(** C10. When the extractor throws, the handler writes the failed state and
    then throws the same error to the queue, so that the retry of the queue
    runs the same job again: within the one job the article goes from failed
    back to extracting, twice under the three attempts of the queue, with no
    explicit retry and no reaper. *)
Theorem failed_job_is_retried_by_the_queue :
  forall (R : Runtime) (assetsPath : list N) (job : Queue.JobData)
         (a : Queue.Article) (error : thrown) (w : Queue.World),
    Queue.articles w !! Queue.articleId job = Some a ->
    (forall fs, exists fs',
        ContentExtractor.extractFromUrl assetsPath (Queue.job_url job) fs
        = (Throw error, fs')) ->
    (exists (a' : Queue.Article) (w' : Queue.World),
        Queue.handler assetsPath job w = (Throw error, w')
        /\ Queue.articles w' !! Queue.articleId job = Some a'
        /\ Queue.extractionStatus a' = Queue.failed)
    /\ (Queue.run_job (fun _ => Queue.handler assetsPath job) w).1
       = [Queue.Invoked 0; Queue.Waited 5000; Queue.Invoked 1; Queue.Waited 5000;
          Queue.Invoked 2; Queue.TaskFailed error]
    /\ Queue.statusLog (Queue.run_job (fun _ => Queue.handler assetsPath job) w).2
       = Queue.statusLog w
         ++ [(Queue.articleId job, Queue.extracting); (Queue.articleId job, Queue.failed);
             (Queue.articleId job, Queue.extracting); (Queue.articleId job, Queue.failed);
             (Queue.articleId job, Queue.extracting); (Queue.articleId job, Queue.failed)].
Proof.
  intros R assetsPath job a error w Ha Hfail.
  destruct (handler_failure_steps assetsPath job a error 5000 w Ha Hfail)
    as (a0 & w0 & H0 & Ha0 & Hs0 & Ha0' & Hl0).
  destruct (handler_failure_steps assetsPath job a0 error 5000 _ Ha0' Hfail)
    as (a1 & w1 & H1 & Ha1 & Hs1 & Ha1' & Hl1).
  destruct (handler_failure_steps assetsPath job a1 error 5000 _ Ha1' Hfail)
    as (a2 & w2 & H2 & Ha2 & Hs2 & Ha2' & Hl2).
  split; [exists a0, w0; auto |].
  unfold Queue.run_job. cbn [Queue.maxRetries Queue.retryDelay Queue.options].
  cbn [Queue.attempts]. rewrite H0, H1, H2. cbn [fst snd].
  split; [reflexivity |].
  change (Queue.statusLog w2) with (Queue.statusLog (Queue.advance w2 5000)).
  rewrite Hl2, Hl1, Hl0, <- !app_assoc. reflexivity.
Qed.

Lemma failed_job_is_retried_by_the_queue_witness :
  Queue.statusLog
    (Queue.run_job
       (fun _ => @Queue.handler offline_runtime Samples.assets_dir Samples.job1)
       Samples.world0).2
  = [(js "a1", Queue.extracting); (js "a1", Queue.failed);
     (js "a1", Queue.extracting); (js "a1", Queue.failed);
     (js "a1", Queue.extracting); (js "a1", Queue.failed)].
Proof.
  apply (failed_job_is_retried_by_the_queue offline_runtime Samples.assets_dir
           Samples.job1 Samples.read_article (JsError (js "fetch failed")) Samples.world0).
  - vm_compute. reflexivity.
  - intros fs. exists fs. reflexivity.
Defined.

(** C2. The promise of [addJob] does not settle when the job is accepted:
    the queue is initialized and the network is down; the promise is
    rejected, with the error of the extraction, after the three attempts of
    the job and the two delays between them.  With the network up it is
    resolved once the article has been completed. *)
Theorem addJob_settles_when_the_job_has_ended :
  let w := Queue.setupQueue Samples.world0 in
  let failing := @Queue.addJob offline_runtime Samples.assets_dir Samples.job1 w in
  let working := @Queue.addJob online_runtime Samples.assets_dir Samples.job1 w in
  Queue.queue w = Some []
  /\ failing.1 = Throw (JsError (js "fetch failed"))
  /\ Queue.statusLog failing.2
     = [(js "a1", Queue.extracting); (js "a1", Queue.failed);
        (js "a1", Queue.extracting); (js "a1", Queue.failed);
        (js "a1", Queue.extracting); (js "a1", Queue.failed)]
  /\ Queue.clock failing.2 = (Queue.clock w + 5000 + 5000)%Z
  /\ working.1 = Ok ()
  /\ Queue.statusLog working.2 = [(js "a1", Queue.extracting); (js "a1", Queue.completed)]
  /\ Queue.extractionStatus <$> Queue.articles working.2 !! js "a1"
     = Some Queue.completed.
Proof. vm_compute. repeat split. Qed.

(** ** A job, from [push] to the call of its callback *)

Section JobRuns.

Import Queue.

Context {R : Runtime} (assetsPath : list N).

Lemma touches_only_refl (k : list N) (w : World) : touches_only k w w.
Proof.
  repeat split; try reflexivity; try lia; eauto.
  exists []. rewrite app_nil_r. split; [reflexivity | constructor].
Qed.

Lemma touches_only_trans (k : list N) (w1 w2 w3 : World) :
  touches_only k w1 w2 -> touches_only k w2 w3 -> touches_only k w1 w3.
Proof.
  intros (Hq1 & Hc1 & Ho1 & Hr1 & Hn1 & rows1 & Hl1 & Hk1)
         (Hq2 & Hc2 & Ho2 & Hr2 & Hn2 & rows2 & Hl2 & Hk2).
  split; [congruence |]. split; [lia |]. split.
  { intros k' Hk'. rewrite (Ho2 k' Hk'). apply Ho1. exact Hk'. }
  split.
  { intros a Ha. destruct (Hr1 a Ha) as (a1 & Ha1 & Hi1 & Hu1 & Hs1).
    destruct (Hr2 a1 Ha1) as (a2 & Ha2 & Hi2 & Hu2 & Hs2).
    exists a2. repeat split; congruence. }
  split; [auto |].
  exists (rows1 ++ rows2). split.
  - rewrite Hl2, Hl1, app_assoc. reflexivity.
  - apply Forall_app. split; assumption.
Qed.

Lemma touches_only_advance (k : list N) (w : World) (ms : Z) :
  (0 <= ms)%Z -> touches_only k w (advance w ms).
Proof.
  intros Hms. repeat split; cbn [advance queue clock articles writeLog]; try lia; eauto.
  exists []. rewrite app_nil_r. split; [reflexivity | constructor].
Qed.

(** What the handler of a job does to the state, and how it leaves the
    article of the job. *)
Lemma handler_run (job : JobData) (w : World) :
  touches_only (articleId job) w (handler assetsPath job w).2
  /\ forall a, articles w !! articleId job = Some a ->
       from_extraction assetsPath (job_url job) (rejection (handler assetsPath job w).1)
       /\ exists a', articles (handler assetsPath job w).2 !! articleId job = Some a'
                     /\ ended (rejection (handler assetsPath job w).1) a'.
Proof.
  unfold handler.
  destruct (articles w !! articleId job) as [a |] eqn:Ha.
  - destruct (ContentExtractor.extractFromUrl assetsPath (job_url job) (assets w))
      as [[extracted | error] fs] eqn:Hx.
    + rewrite (processArticleExtraction_success assetsPath job w a extracted fs Ha Hx).
      cbn [fst snd rejection]. split.
      * repeat split; cbn [queue clock articles writeLog]; try lia.
        -- intros k' Hk'. apply lookup_insert_ne. congruence.
        -- intros a0 Ha0. rewrite lookup_insert_eq. eexists. split; [reflexivity |].
           assert (a0 = a) as -> by congruence. repeat split.
        -- congruence.
        -- eexists. split; [reflexivity |]. repeat constructor.
      * intros a0 _. split; [exact I |]. cbn [articles]. rewrite lookup_insert_eq.
        eexists. split; [reflexivity |]. split; reflexivity.
    + rewrite (processArticleExtraction_failure assetsPath job w a error fs Ha Hx).
      cbn [fst snd rejection]. split.
      * repeat split; cbn [queue clock articles writeLog]; try lia.
        -- intros k' Hk'. apply lookup_insert_ne. congruence.
        -- intros a0 Ha0. rewrite lookup_insert_eq. eexists. split; [reflexivity |].
           assert (a0 = a) as -> by congruence. repeat split.
        -- congruence.
        -- eexists. split; [reflexivity |]. repeat constructor.
      * intros a0 _. split; [exists (assets w), fs; exact Hx |].
        cbn [articles]. rewrite lookup_insert_eq.
        eexists. split; [reflexivity |]. repeat split.
  - rewrite (processArticleExtraction_missing assetsPath job w Ha).
    split; [apply touches_only_refl | discriminate].
Qed.

Lemma attempts_nonempty (run : nat -> World -> result unit * World) (delay : Z)
    (attempt left : nat) (w : World) :
  (attempts run delay attempt (S left) w).1 <> [].
Proof.
  cbn [attempts]. destruct (run attempt w) as [[u | error] w1]; [discriminate |].
  destruct left; [discriminate |].
  destruct (attempts run delay (S attempt) (S left) (advance w1 delay)). discriminate.
Qed.

Lemma outcome_later (e1 e2 : Event) (events : list Event) :
  events <> [] -> outcome (e1 :: e2 :: events) = outcome events.
Proof.
  intros Hne. unfold outcome. destruct events as [| e3 events]; [congruence |].
  reflexivity.
Qed.

(** The attempts of a job for an article that exists: only the article
    is written, and it is left completed when the job has finished and
    failed, with the error of the last attempt, when the job is dropped. *)
Lemma attempts_run (job : JobData) (delay : Z) :
  (0 <= delay)%Z ->
  forall (left attempt : nat) (w : World) (a : Article),
    articles w !! articleId job = Some a ->
    touches_only (articleId job) w
      (attempts (fun _ => handler assetsPath job) delay attempt (S left) w).2
    /\ from_extraction assetsPath (job_url job)
         (outcome (attempts (fun _ => handler assetsPath job) delay attempt (S left) w).1)
    /\ exists a',
         articles (attempts (fun _ => handler assetsPath job) delay attempt (S left) w).2
           !! articleId job = Some a'
         /\ ended
              (outcome (attempts (fun _ => handler assetsPath job) delay attempt (S left) w).1)
              a'.
Proof.
  intros Hdelay. induction left as [| left IH]; intros attempt w a Ha.
  - cbn [attempts]. destruct (handler_run job w) as [Hstep Hend].
    destruct (Hend a Ha) as (Hfrom & a' & Ha' & He').
    destruct (handler assetsPath job w) as [[u | error] w1]; cbn [fst snd rejection] in *;
      (split; [exact Hstep |]); (split; [exact Hfrom |]);
      exists a'; (split; [exact Ha' | exact He']).
  - destruct (handler_run job w) as [Hstep Hend].
    destruct (Hend a Ha) as (Hfrom1 & a1 & Ha1 & He1).
    pose proof (attempts_nonempty (fun _ => handler assetsPath job) delay
                  (S attempt) left) as Hne.
    change (attempts (fun _ => handler assetsPath job) delay attempt (S (S left)) w)
      with (match handler assetsPath job w with
            | (Ok _, w0) => ([Invoked attempt; TaskFinish], w0)
            | (Throw error, w0) =>
                let '(events, w1) :=
                  attempts (fun _ => handler assetsPath job) delay (S attempt) (S left)
                    (advance w0 delay) in
                (Invoked attempt :: Waited delay :: events, w1)
            end).
    destruct (handler assetsPath job w) as [[u | error] w1]; cbn [fst snd rejection] in *.
    + split; [exact Hstep |]. split; [exact Hfrom1 |].
      exists a1. split; [exact Ha1 | exact He1].
    + specialize (IH (S attempt) (advance w1 delay) a1 Ha1).
      specialize (Hne (advance w1 delay)).
      destruct (attempts (fun _ => handler assetsPath job) delay (S attempt) (S left)
                  (advance w1 delay)) as [events w2].
      cbn [fst snd] in *. destruct IH as (Hstep2 & Hfrom2 & a2 & Ha2 & He2).
      rewrite (outcome_later _ _ _ Hne). split; [| split].
      * eapply touches_only_trans; [exact Hstep |].
        eapply touches_only_trans; [apply touches_only_advance; exact Hdelay | exact Hstep2].
      * exact Hfrom2.
      * exists a2. split; [exact Ha2 | exact He2].
Qed.

(** [addJob] with an initialized queue, for an article that exists: the
    job is recorded, it runs to its end, and the promise settles as the
    job has ended. *)
Lemma addJob_run (job : JobData) (w : World) (q : list JobData) (a : Article) :
  queue w = Some q ->
  articles w !! articleId job = Some a ->
  touches_only (articleId job) (with_queue w (Some (q ++ [job]))) (addJob assetsPath job w).2
  /\ from_extraction assetsPath (job_url job) (rejection (addJob assetsPath job w).1)
  /\ exists a',
       articles (addJob assetsPath job w).2 !! articleId job = Some a'
       /\ ended (rejection (addJob assetsPath job w).1) a'.
Proof.
  intros Hq Ha. unfold addJob, push, run_job. rewrite Hq.
  cbn [maxRetries retryDelay options].
  destruct (attempts_run job 5000 ltac:(lia) 2 0 (with_queue w (Some (q ++ [job]))) a Ha)
    as (Hstep & Hfrom & a' & Ha' & He').
  destruct (attempts (fun _ => handler assetsPath job) 5000 0 3
              (with_queue w (Some (q ++ [job])))) as [events w1].
  cbn [fst snd] in *.
  destruct (outcome events) as [error |]; cbn [fst snd rejection];
    (split; [exact Hstep |]); (split; [exact Hfrom |]);
    exists a'; (split; [exact Ha' | exact He']).
Qed.

End JobRuns.

(** ** The reaper *)

Section Reaper.

Import Queue.

Context {R : Runtime} (assetsPath : list N).

Lemma writes_of_app (k : list N) (w w' : World) (rows : list (list N * Article)) :
  writeLog w' = writeLog w ++ rows ->
  writes_of k w' = writes_of k w ++ (List.filter (fun e => bool_decide (e.1 = k)) rows).*2.
Proof.
  intros H. unfold writes_of. rewrite H, List.filter_app, fmap_app. reflexivity.
Qed.

Lemma filter_other_key (k k' : list N) (rows : list (list N * Article)) :
  k <> k' -> Forall (fun e => e.1 = k') rows ->
  List.filter (fun e => bool_decide (e.1 = k)) rows = [].
Proof.
  intros Hne. induction 1 as [| e rows He _ IH]; [reflexivity |].
  cbn [List.filter]. rewrite bool_decide_eq_false_2 by congruence. exact IH.
Qed.

Lemma filter_same_key (k : list N) (rows : list (list N * Article)) :
  Forall (fun e => e.1 = k) rows ->
  List.filter (fun e => bool_decide (e.1 = k)) rows = rows.
Proof.
  induction 1 as [| e rows He _ IH]; [reflexivity |].
  cbn [List.filter]. rewrite bool_decide_eq_true_2 by exact He. rewrite IH. reflexivity.
Qed.

(** One turn of the loop of the reaper, for an article that is in the
    table as the reaper found it. *)
Lemma reschedule_run (w : World) (a : Article) (q : list JobData) :
  articles w !! id a = Some a ->
  queue w = Some q ->
  queue (reschedule assetsPath w a) = Some (q ++ [job_of a])
  /\ (clock w <= clock (reschedule assetsPath w a))%Z
  /\ (forall k, k <> id a -> articles (reschedule assetsPath w a) !! k = articles w !! k)
  /\ (exists a' error,
         articles (reschedule assetsPath w a) !! id a = Some a'
         /\ id a' = id a /\ url a' = url a /\ userId a' = userId a
         /\ ended error a' /\ from_extraction assetsPath (url a) error)
  /\ exists rows,
       writeLog (reschedule assetsPath w a)
       = writeLog w ++ (id a, markTimedOut (clock w) a) :: rows
       /\ Forall (fun e => e.1 = id a) rows.
Proof.
  intros Ha Hq. unfold reschedule. rewrite (update_Some _ _ _ _ _ Ha).
  set (w1 := {| articles := <[id a := markTimedOut (clock w) a]> (articles w);
                assets := assets w; queue := queue w; clock := clock w;
                statusLog := statusLog w ++ [(id a, extractionStatus (markTimedOut (clock w) a))];
                writeLog := writeLog w ++ [(id a, markTimedOut (clock w) a)] |}).
  assert (Ha1 : articles w1 !! id a = Some (markTimedOut (clock w) a))
    by (cbn [w1 articles]; apply lookup_insert_eq).
  assert (Hq1 : queue w1 = Some q) by exact Hq.
  unfold retryExtractionJob. rewrite Hq1, Ha1.
  change {| articleId := id (markTimedOut (clock w) a);
            job_url := url (markTimedOut (clock w) a);
            job_userId := userId (markTimedOut (clock w) a) |} with (job_of a).
  destruct (addJob_run assetsPath (job_of a) w1 q (markTimedOut (clock w) a) Hq1 Ha1)
    as (Hstep & Hfrom & a' & Ha' & He').
  cbn [job_of articleId job_url] in Hstep, Ha', Hfrom.
  destruct Hstep as (Hsq & Hsc & Hso & Hsr & _ & rows & Hsl & Hsk).
  cbn [with_queue queue clock articles writeLog] in Hsq, Hsc, Hso, Hsr, Hsl.
  split; [exact Hsq |]. split; [exact Hsc |]. split.
  { intros k Hk. rewrite (Hso k Hk). cbn [w1 articles]. apply lookup_insert_ne. congruence. }
  split.
  { destruct (Hsr _ Ha1) as (a2 & Ha2 & Hi2 & Hu2 & Hs2).
    exists a', (rejection (addJob assetsPath (job_of a) w1).1).
    assert (a2 = a') as -> by congruence.
    split; [exact Ha' |]. split; [exact Hi2 |]. split; [exact Hu2 |].
    split; [exact Hs2 |]. split; [exact He' | exact Hfrom]. }
  exists rows. split; [| exact Hsk].
  rewrite Hsl. cbn [w1 writeLog]. rewrite <- app_assoc. reflexivity.
Qed.

Lemma reschedule_all (stuck : list Article) :
  NoDup (id <$> stuck) ->
  forall (w : World) (q : list JobData),
    (forall a, a ∈ stuck -> articles w !! id a = Some a) ->
    queue w = Some q ->
    let w' := foldl (reschedule assetsPath) w stuck in
    queue w' = Some (q ++ (job_of <$> stuck))
    /\ (clock w <= clock w')%Z
    /\ (forall k, k ∉ id <$> stuck ->
          articles w' !! k = articles w !! k /\ writes_of k w' = writes_of k w)
    /\ (forall a, a ∈ stuck ->
          exists (now : Z) (later : list Article) (a' : Article) (error : option thrown),
            (clock w <= now)%Z
            /\ writes_of (id a) w' = writes_of (id a) w ++ markTimedOut now a :: later
            /\ articles w' !! id a = Some a'
            /\ id a' = id a /\ url a' = url a /\ userId a' = userId a
            /\ ended error a' /\ from_extraction assetsPath (url a) error).
Proof.
  induction stuck as [| a stuck IH]; intros Hnd w q Hin Hq.
  - cbn [foldl fmap list_fmap]. rewrite app_nil_r.
    split; [exact Hq |]. split; [lia |]. split; [auto |].
    intros a Ha. inversion Ha.
  - rewrite fmap_cons in Hnd. apply NoDup_cons in Hnd as [Hnotin Hnd].
    cbn [foldl].
    destruct (reschedule_run w a q (Hin a (list_elem_of_here _ _)) Hq)
      as (Hq1 & Hc1 & Ho1 & (a1 & e1 & Ha1 & Hi1 & Hu1 & Hs1 & He1 & Hf1) & rows & Hl1 & Hk1).
    set (w1 := reschedule assetsPath w a) in *.
    destruct (IH Hnd w1 (q ++ [job_of a])) as (Hq' & Hc' & Hoth' & Hst').
    { intros b Hb. rewrite Ho1.
      - apply Hin. apply list_elem_of_further. exact Hb.
      - intros Heq. apply Hnotin. rewrite <- Heq. apply list_elem_of_fmap_2. exact Hb. }
    { exact Hq1. }
    cbn zeta. split; [rewrite Hq', fmap_cons, <- app_assoc; reflexivity |].
    split; [lia |]. split.
    + intros k Hk. rewrite fmap_cons in Hk. apply not_elem_of_cons in Hk as [Hka Hk].
      destruct (Hoth' k Hk) as [Hrow Hlog]. split.
      * rewrite Hrow. apply Ho1. exact Hka.
      * rewrite Hlog. rewrite (writes_of_app k w w1 _ Hl1).
        cbn [List.filter fst]. rewrite bool_decide_eq_false_2 by congruence.
        rewrite (filter_other_key k (id a) rows Hka Hk1). apply app_nil_r.
    + intros b Hb. apply elem_of_cons in Hb as [-> | Hb].
      * destruct (Hoth' (id a) Hnotin) as [Hrow Hlog].
        exists (clock w), ((List.filter (fun e => bool_decide (e.1 = id a)) rows).*2), a1, e1.
        split; [lia |]. split.
        { rewrite Hlog, (writes_of_app (id a) w w1 _ Hl1).
          cbn [List.filter fst]. rewrite bool_decide_eq_true_2 by reflexivity.
          rewrite fmap_cons. reflexivity. }
        rewrite Hrow. repeat split; assumption.
      * destruct (Hst' b Hb) as (now & later & b' & e & Hnow & Hlog & Hrow).
        exists now, later, b', e. split; [lia |]. split; [| exact Hrow].
        rewrite Hlog. f_equal.
        assert (Hne : id b <> id a).
        { intros Heq. apply Hnotin. rewrite <- Heq. apply list_elem_of_fmap_2. exact Hb. }
        rewrite (writes_of_app (id b) w w1 _ Hl1).
        cbn [List.filter fst]. rewrite bool_decide_eq_false_2 by congruence.
        rewrite (filter_other_key (id b) (id a) rows Hne Hk1). apply app_nil_r.
Qed.

(** The jobs made for a list of articles with distinct keys hold exactly
    one job for each of them. *)
Lemma one_job_each (stuck : list Article) (a : Article) :
  NoDup (id <$> stuck) -> a ∈ stuck ->
  jobs_for (id a) (job_of <$> stuck) = [job_of a].
Proof.
  unfold jobs_for.
  induction stuck as [| b stuck IH]; intros Hnd Ha; [inversion Ha |].
  rewrite fmap_cons in Hnd. apply NoDup_cons in Hnd as [Hnotin Hnd].
  rewrite fmap_cons. cbn [List.filter]. cbn [job_of articleId].
  apply elem_of_cons in Ha as [-> | Ha].
  - rewrite bool_decide_eq_true_2 by reflexivity. f_equal.
    clear IH. induction stuck as [| c stuck IH]; [reflexivity |].
    rewrite fmap_cons in Hnotin, Hnd. apply not_elem_of_cons in Hnotin as [Hne Hnotin].
    apply NoDup_cons in Hnd as [_ Hnd].
    rewrite fmap_cons. cbn [List.filter job_of articleId].
    rewrite bool_decide_eq_false_2 by congruence. apply IH; assumption.
  - rewrite bool_decide_eq_false_2.
    + apply IH; assumption.
    + intros Heq. apply Hnotin. rewrite Heq. apply list_elem_of_fmap_2. exact Ha.
Qed.

Lemma no_job_for_others (stuck : list Article) (k : list N) :
  k ∉ id <$> stuck -> jobs_for k (job_of <$> stuck) = [].
Proof.
  unfold jobs_for.
  induction stuck as [| b stuck IH]; intros Hk; [reflexivity |].
  rewrite fmap_cons in Hk. apply not_elem_of_cons in Hk as [Hne Hk].
  rewrite fmap_cons. cbn [List.filter job_of articleId].
  rewrite bool_decide_eq_false_2 by congruence. apply IH. exact Hk.
Qed.

Lemma jobs_for_app (k : list N) (q jobs : list JobData) :
  jobs_for k (q ++ jobs) = jobs_for k q ++ jobs_for k jobs.
Proof. apply List.filter_app. Qed.

(** The rows that [findMany] selects. *)
Lemma stuck_rows (table : gmap (list N) Article) (threshold : Z) :
  keyed table ->
  let stuck := filter (fun a => is_stuck threshold a = true) (map_to_list table).*2 in
  NoDup (id <$> stuck)
  /\ (forall a, a ∈ stuck <-> table !! id a = Some a /\ is_stuck threshold a = true).
Proof.
  intros Hkeyed stuck.
  assert (Hmem : forall a, a ∈ stuck <-> table !! id a = Some a /\ is_stuck threshold a = true).
  { intros a. subst stuck. rewrite list_elem_of_filter, list_elem_of_fmap. split.
    - intros [Hs ([k b] & -> & Hkb)]. apply elem_of_map_to_list in Hkb.
      cbn [snd] in *. rewrite (Hkeyed k b Hkb). auto.
    - intros [Ha Hs]. split; [exact Hs |]. exists (id a, a). split; [reflexivity |].
      apply elem_of_map_to_list. exact Ha. }
  split; [| exact Hmem].
  subst stuck.
  assert (Hids : forall l : list (list N * Article),
             (forall k b, (k, b) ∈ l -> id b = k) ->
             id <$> filter (fun a => is_stuck threshold a = true) l.*2
             = (filter (fun kb => is_stuck threshold kb.2 = true) l).*1).
  { induction l as [| [k b] l IH]; intros Hl; [reflexivity |].
    rewrite fmap_cons. cbn [snd]. rewrite !filter_cons. cbn [snd].
    destruct (decide (is_stuck threshold b = true)).
    - rewrite !fmap_cons. cbn [fst]. rewrite (Hl k b (list_elem_of_here _ _)).
      f_equal. apply IH. intros k' b' Hin. apply Hl. apply list_elem_of_further. exact Hin.
    - apply IH. intros k' b' Hin. apply Hl. apply list_elem_of_further. exact Hin. }
  rewrite Hids.
  - apply (NoDup_fmap_fst _).
    + intros k b1 b2 H1 H2. apply list_elem_of_filter in H1 as [_ H1], H2 as [_ H2].
      apply elem_of_map_to_list in H1, H2. congruence.
    + apply NoDup_filter, NoDup_map_to_list.
  - intros k b Hkb. apply elem_of_map_to_list in Hkb. apply Hkeyed. exact Hkb.
Qed.

End Reaper.

Lemma is_stuck_iff (threshold : Z) (a : Queue.Article) :
  Queue.is_stuck threshold a = true
  <-> Queue.extractionStatus a = Queue.extracting /\ (Queue.updatedAt a < threshold)%Z.
Proof.
  unfold Queue.is_stuck. destruct (Queue.extractionStatus a);
    rewrite ?Z.ltb_lt; intuition congruence.
Qed.

Lemma samples_keyed : Queue.keyed (Queue.articles Samples.world0).
Proof.
  intros k a Hk. cbn [Queue.articles Samples.world0] in Hk.
  destruct (decide (k = js "a1")) as [-> | Hne1].
  - rewrite lookup_insert_eq in Hk. injection Hk as <-. reflexivity.
  - rewrite lookup_insert_ne in Hk by congruence.
    destruct (decide (k = js "a2")) as [-> | Hne2].
    + rewrite lookup_insert_eq in Hk. injection Hk as <-. reflexivity.
    + rewrite lookup_insert_ne in Hk by congruence. rewrite lookup_empty in Hk.
      discriminate.
Defined.

(** What the reaper does with the rows of a keyed table, once the queue
    is initialized. *)
Lemma cleanupStuckExtractions_run {R : Runtime} (assetsPath : list N) (w : Queue.World)
    (q : list Queue.JobData) :
  Queue.keyed (Queue.articles w) ->
  Queue.queue w = Some q ->
  exists stuck : list Queue.Article,
    Queue.cleanupStuckExtractions assetsPath w
    = (Ok (length stuck), foldl (Queue.reschedule assetsPath) w stuck)
    /\ NoDup (Queue.id <$> stuck)
    /\ (forall a, a ∈ stuck <->
          Queue.articles w !! Queue.id a = Some a
          /\ Queue.extractionStatus a = Queue.extracting
          /\ (Queue.updatedAt a < Queue.clock w - 10 * 60 * 1000)%Z).
Proof.
  intros Hkeyed Hq. unfold Queue.cleanupStuckExtractions. rewrite Hq.
  set (stuck := filter (fun a => Queue.is_stuck (Queue.stuckThreshold w) a = true)
                       (map_to_list (Queue.articles w)).*2).
  destruct (stuck_rows (Queue.articles w) (Queue.stuckThreshold w) Hkeyed) as [Hnd Hmem].
  fold stuck in Hnd, Hmem.
  exists stuck. split; [reflexivity |]. split; [exact Hnd |].
  intros a. rewrite Hmem, is_stuck_iff. reflexivity.
Qed.

(** C5. The reaper, run with an initialized queue, marks every article that
    has the status extracting and was last updated more than 10 minutes ago
    (11 minutes, say) as failed with the timeout message: that row is the
    first that it writes for the article.  It then gives the queue exactly
    one new extraction job for the article, with its URL, and awaits it, so
    that the article is completed or failed, and no longer extracting, when
    the reaper returns.  Every other article is left as it is: no row is
    written and no job is made for it. *)
Theorem reaper_recovers_stuck_extractions :
  forall (R : Runtime) (assetsPath : list N) (w : Queue.World) (q : list Queue.JobData),
    Queue.keyed (Queue.articles w) ->
    Queue.queue w = Some q ->
    exists new_jobs : list Queue.JobData,
      (Queue.cleanupStuckExtractions assetsPath w).1 = Ok (length new_jobs)
      /\ Queue.queue (Queue.cleanupStuckExtractions assetsPath w).2 = Some (q ++ new_jobs)
      /\ forall (k : list N) (a : Queue.Article),
           Queue.articles w !! k = Some a ->
           (Queue.extractionStatus a = Queue.extracting ->
            (Queue.updatedAt a < Queue.clock w - 10 * 60 * 1000)%Z ->
            (exists (now : Z) (marked : Queue.Article) (later : list Queue.Article),
                Queue.writes_of k (Queue.cleanupStuckExtractions assetsPath w).2
                = Queue.writes_of k w ++ marked :: later
                /\ marked = Queue.markTimedOut now a
                /\ (Queue.clock w <= now)%Z
                /\ Queue.extractionStatus marked = Queue.failed
                /\ Queue.extractionError marked
                   = Some (js "Extraction timeout - job was stuck"))
            /\ Queue.jobs_for k new_jobs
               = [ {| Queue.articleId := k; Queue.job_url := Queue.url a;
                      Queue.job_userId := Queue.userId a |} ]
            /\ exists a' : Queue.Article,
                 Queue.articles (Queue.cleanupStuckExtractions assetsPath w).2 !! k = Some a'
                 /\ (Queue.extractionStatus a' = Queue.completed
                     \/ Queue.extractionStatus a' = Queue.failed))
           /\ (Queue.extractionStatus a <> Queue.extracting
               \/ (Queue.clock w - 10 * 60 * 1000 <= Queue.updatedAt a)%Z ->
               Queue.articles (Queue.cleanupStuckExtractions assetsPath w).2 !! k = Some a
               /\ Queue.writes_of k (Queue.cleanupStuckExtractions assetsPath w).2
                  = Queue.writes_of k w
               /\ Queue.jobs_for k new_jobs = []).
Proof.
  intros R assetsPath w q Hkeyed Hq.
  destruct (cleanupStuckExtractions_run assetsPath w q Hkeyed Hq) as (stuck & -> & Hnd & Hmem).
  cbn [fst snd].
  destruct (reschedule_all assetsPath stuck Hnd w q) as (Hq' & _ & Hoth & Hst).
  { intros a Ha. apply Hmem in Ha as [Ha _]. exact Ha. }
  { exact Hq. }
  exists (Queue.job_of <$> stuck). split; [rewrite length_fmap; reflexivity |].
  split; [exact Hq' |].
  intros k a Ha. pose proof (Hkeyed k a Ha) as Hid. split.
  - intros Hs Hu.
    assert (Hin : a ∈ stuck) by (apply Hmem; rewrite Hid; auto).
    destruct (Hst a Hin)
      as (now & later & a' & error & Hnow & Hlog & Hrow & _ & _ & _ & Hend & _).
    rewrite Hid in Hlog, Hrow. split; [| split].
    + exists now, (Queue.markTimedOut now a), later. repeat split; assumption.
    + rewrite <- Hid. rewrite (one_job_each stuck a Hnd Hin). reflexivity.
    + exists a'. split; [exact Hrow |].
      destruct error as [e |]; [right | left]; apply Hend.
  - intros Hno.
    assert (Hnotin : k ∉ Queue.id <$> stuck).
    { intros Hk. apply list_elem_of_fmap in Hk as (b & -> & Hb).
      apply Hmem in Hb as (Hb & Hs & Hu). rewrite Ha in Hb. injection Hb as <-.
      destruct Hno as [Hno | Hno]; [congruence | lia]. }
    destruct (Hoth k Hnotin) as [Hrow Hlog].
    split; [rewrite Hrow; exact Ha |]. split; [exact Hlog |].
    apply no_job_for_others. exact Hnotin.
Qed.

Lemma reaper_recovers_stuck_extractions_witness :
  exists new_jobs : list Queue.JobData,
    Queue.queue
      (@Queue.cleanupStuckExtractions offline_runtime Samples.assets_dir
         (Queue.setupQueue Samples.world0)).2
    = Some new_jobs
    /\ Queue.jobs_for (js "a2") new_jobs = [Queue.job_of Samples.stuck_article]
    /\ Queue.jobs_for (js "a1") new_jobs = [].
Proof.
  destruct (reaper_recovers_stuck_extractions offline_runtime Samples.assets_dir
              (Queue.setupQueue Samples.world0) [])
    as (new_jobs & _ & Hq & Hall).
  - exact samples_keyed.
  - reflexivity.
  - exists new_jobs. split; [exact Hq |]. split.
    + apply (Hall (js "a2") Samples.stuck_article); [vm_compute; reflexivity | |].
      * reflexivity.
      * vm_compute. reflexivity.
    + apply (Hall (js "a1") Samples.read_article); [vm_compute; reflexivity |].
      left. discriminate.
Defined.

(** ** Image tags in a content *)

Section ImageTagShape.

Import ContentExtractor ImageTag.

Lemma span_spec (p : N -> bool) (s a b : list N) :
  span p s = (a, b) ->
  s = a ++ b /\ Forall (fun c => p c = true) a
  /\ match b with [] => True | c :: _ => p c = false end.
Proof.
  revert a b. induction s as [| c s IH]; intros a b H; simpl in H.
  - injection H as <- <-. auto.
  - destruct (p c) eqn:Hc.
    + destruct (span p s) as [a' b'] eqn:Hs. injection H as <- <-.
      destruct (IH a' b' eq_refl) as (-> & Ha & Hb). auto.
    + injection H as <- <-. simpl. rewrite Hc. auto.
Qed.

Lemma lower_char_eq_sign (c : N) : lower_char c = ch "=" -> c = ch "=".
Proof.
  unfold lower_char, ch. simpl.
  destruct ((65 <=? c)%N && (c <=? 90)%N) eqn:H; [| auto].
  apply andb_true_iff in H as [H1 H2]. apply N.leb_le in H1, H2. lia.
Qed.

Lemma lower_char_not_gt (c : N) : lower_char c <> ch ">" -> not_gt c = true.
Proof.
  intros H. unfold not_gt. apply negb_true_iff, N.eqb_neq. intros ->. apply H.
  reflexivity.
Qed.

Lemma startsWith_ci_cons (a b : N) (s p : list N) :
  startsWith_ci (b :: s) (a :: p) = true ->
  lower_char a = lower_char b /\ startsWith_ci s p = true.
Proof.
  cbn. intros H. apply andb_true_iff in H as [H1 H2]. apply N.eqb_eq in H1. auto.
Qed.

Lemma startsWith_ci_src (t : list N) :
  startsWith_ci t (js "src=") = true ->
  exists (a b c : N) (t' : list N),
    t = a :: b :: c :: ch "=" :: t'
    /\ not_gt a = true /\ not_gt b = true /\ not_gt c = true.
Proof.
  intros H.
  destruct t as [| a t]; [discriminate |]. apply startsWith_ci_cons in H as [Ha H].
  destruct t as [| b t]; [discriminate |]. apply startsWith_ci_cons in H as [Hb H].
  destruct t as [| c t]; [discriminate |]. apply startsWith_ci_cons in H as [Hc H].
  destruct t as [| d t]; [discriminate |]. apply startsWith_ci_cons in H as [Hd _].
  symmetry in Hd. apply lower_char_eq_sign in Hd as ->.
  exists a, b, c, t. split; [reflexivity |].
  repeat split; apply lower_char_not_gt; [rewrite <- Ha | rewrite <- Hb | rewrite <- Hc];
    discriminate.
Qed.

Lemma img_src_here_shape (t src : list N) (n : nat) :
  img_src_here t = Some (src, n) ->
  exists (a b c q q' : N) (rest after : list N),
    t = a :: b :: c :: ch "=" :: q :: src ++ q' :: rest ++ ch ">" :: after
    /\ not_gt a = true /\ not_gt b = true /\ not_gt c = true
    /\ is_quote q = true /\ is_quote q' = true
    /\ src <> [] /\ Forall (fun x => is_quote x = false) src
    /\ Forall (fun x => not_gt x = true) rest
    /\ n = length src + length rest + 7.
Proof.
  unfold img_src_here.
  destruct (startsWith_ci t (js "src=")) eqn:Hs; [| discriminate].
  apply startsWith_ci_src in Hs as (a & b & c & t' & -> & Ha & Hb & Hc).
  rename t' into t. change (drop 4 (a :: b :: c :: ch "=" :: t)) with t. destruct t as [| q t1]; [discriminate |].
  destruct (is_quote q) eqn:Hq; [| discriminate].
  destruct (span (fun x => negb (is_quote x)) t1) as [s t2] eqn:Hspan.
  apply span_spec in Hspan as (-> & Hsrc & Hq').
  destruct s as [| s0 s]; [discriminate |].
  destruct t2 as [| q' t3]; [discriminate |].
  destruct (span not_gt t3) as [rest t4] eqn:Hspan2.
  apply span_spec in Hspan2 as (-> & Hrest & Hgt).
  destruct t4 as [| g after]; [discriminate |].
  intros [= <- <-].
  assert (g = ch ">") as ->.
  { unfold not_gt in Hgt. apply negb_false_iff, N.eqb_eq in Hgt. exact Hgt. }
  exists a, b, c, q, q', rest, after.
  split; [reflexivity |].
  split; [exact Ha |]. split; [exact Hb |]. split; [exact Hc |].
  split; [exact Hq |]. split; [apply negb_false_iff; exact Hq' |].
  split; [discriminate |].
  split; [eapply Forall_impl; [exact Hsrc |]; intros x Hx; apply negb_true_iff; exact Hx |].
  split; [exact Hrest |]. cbn [length]. lia.
Qed.

Lemma img_attrs_shape (t src : list N) (n : nat) :
  img_attrs t = Some (src, n) ->
  exists (skipped t1 : list N) (n1 : nat),
    t = skipped ++ t1
    /\ Forall (fun x => not_gt x = true) skipped
    /\ img_src_here t1 = Some (src, n1)
    /\ n = length skipped + n1.
Proof.
  revert n. induction t as [| c t IH]; intros n H; [discriminate |].
  cbn [img_attrs] in H.
  destruct (if not_gt c then img_attrs t else None) as [[src' n'] |] eqn:Hdeep.
  - injection H as <- <-.
    destruct (not_gt c) eqn:Hc; [| discriminate].
    destruct (IH n' Hdeep) as (skipped & t1 & n1 & -> & Hsk & Hhere & ->).
    exists (c :: skipped), t1, n1. repeat split; auto.
  - exists [], (c :: t), n. repeat split; auto.
Qed.

Lemma startsWith_ci_img (s : list N) :
  startsWith_ci s (js "<img") = true ->
  exists (i0 i1 i2 i3 : N) (t : list N),
    s = i0 :: i1 :: i2 :: i3 :: t
    /\ startsWith_ci [i0; i1] (js "<i") = true
    /\ Forall (fun x => not_gt x = true) [i0; i1; i2; i3].
Proof.
  intros H.
  destruct s as [| i0 s]; [discriminate |]. apply startsWith_ci_cons in H as [H0 H].
  destruct s as [| i1 s]; [discriminate |]. apply startsWith_ci_cons in H as [H1 H].
  destruct s as [| i2 s]; [discriminate |]. apply startsWith_ci_cons in H as [H2 H].
  destruct s as [| i3 s]; [discriminate |]. apply startsWith_ci_cons in H as [H3 _].
  exists i0, i1, i2, i3, s. split; [reflexivity |]. split.
  - cbn. rewrite <- H0, <- H1. reflexivity.
  - repeat constructor; apply lower_char_not_gt;
      [rewrite <- H0 | rewrite <- H1 | rewrite <- H2 | rewrite <- H3]; discriminate.
Qed.

Lemma img_here_shape (s tag src : list N) :
  img_here s = Some (tag, src) -> shape tag src /\ exists after, s = tag ++ after.
Proof.
  unfold img_here.
  destruct (startsWith_ci s (js "<img")) eqn:Hs; [| discriminate].
  apply startsWith_ci_img in Hs as (i0 & i1 & i2 & i3 & t & -> & Hi & Himg).
  change (drop 4 (i0 :: i1 :: i2 :: i3 :: t)) with t.
  destruct t as [| c0 t]; [discriminate |].
  destruct (not_gt c0) eqn:Hc0; [| discriminate].
  destruct (img_attrs t) as [[src' n] |] eqn:Hattrs; [| discriminate].
  intros [= <- ->].
  apply img_attrs_shape in Hattrs as (skipped & t1 & n1 & -> & Hsk & Hhere & ->).
  apply img_src_here_shape in Hhere
    as (a & b & c & q & q' & rest & after & -> & Ha & Hb & Hc & Hq & Hq' & Hne & Hsrc
        & Hrest & ->).
  set (head := i0 :: i1 :: i2 :: i3 :: c0 :: skipped ++ [a; b; c; ch "="]).
  set (body := skipped ++ a :: b :: c :: ch "=" :: q :: src ++ q' :: rest ++ [ch ">"]).
  assert (Hbody : skipped
                    ++ a :: b :: c :: ch "=" :: q :: src ++ q' :: rest ++ ch ">" :: after
                  = body ++ after).
  { subst body. repeat (rewrite <- ?app_assoc; cbn [app]). reflexivity. }
  rewrite Hbody.
  rewrite (take_app_length' body after).
  2:{ subst body. rewrite !length_app. cbn [length]. rewrite !length_app.
      cbn [length]. rewrite !length_app. cbn [length]. lia. }
  assert (Htag : i0 :: i1 :: i2 :: i3 :: c0 :: body
                 = head ++ q :: src ++ q' :: rest ++ [ch ">"]).
  { subst head body. repeat (rewrite <- ?app_assoc; cbn [app]). reflexivity. }
  rewrite Htag.
  split; [| exists after; rewrite <- Htag; reflexivity].
  exists head, rest, q, q'. split; [reflexivity |].
  split; [exact Hi |].
  split.
  { subst head. inversion Himg as [| ? ? H0 Himg1]; subst.
    inversion Himg1 as [| ? ? H1 Himg2]; subst.
    inversion Himg2 as [| ? ? H2 Himg3]; subst.
    inversion Himg3 as [| ? ? H3 _]; subst.
    repeat (apply Forall_cons; split; [assumption |]).
    apply Forall_app. split; [exact Hsk |]. repeat constructor; assumption. }
  split.
  { subst head. rewrite !app_comm_cons. rewrite last_app. reflexivity. }
  auto 10.
Qed.

Lemma matchAll_img_shape (s : list N) :
  forall (skip : nat) (tag src : list N),
    (tag, src) ∈ matchAll_img skip s -> shape tag src.
Proof.
  induction s as [| c s IH]; intros skip tag src Hin; [inversion Hin |].
  cbn [matchAll_img] in Hin. destruct skip as [| k].
  - destruct (img_here (c :: s)) as [[tag' src'] |] eqn:Hhere.
    + apply elem_of_cons in Hin as [[= -> ->] | Hin].
      * apply img_here_shape in Hhere as [Hshape _]. exact Hshape.
      * apply IH in Hin. exact Hin.
    + apply IH in Hin. exact Hin.
  - apply IH in Hin. exact Hin.
Qed.

End ImageTagShape.

Section ImageTagOverlap.

Import ContentExtractor ImageTag.

Local Ltac ends_false :=
  repeat match goal with
    | H : Forall _ (_ ++ _) |- _ => apply Forall_app in H as [? ?]
    | H : Forall _ (_ :: _) |- _ => apply Forall_cons in H as [? ?]
    | H : is_quote _ = false |- _ => discriminate H
    | H : not_gt _ = true |- _ => discriminate H
    | H : is_quote _ = true |- _ => discriminate H
    end.

(** A [>] inside a tag that follows a double quote lies at the start
    of the capture, behind [=] and the opening quote. *)
Lemma shape_inner_gt (tag src before after : list N) (y : N) :
  shape tag src ->
  tag = before ++ y :: dquote :: ch ">" :: after ->
  after <> [] ->
  y = ch "=".
Proof.
  intros (head & rest & q & q' & -> & _ & Hhead & Hlast & Hq & Hq' & Hne & Hsrc & Hrest)
         Heq Hafter.
  change (ch ">") with 62%N in *. change (ch "=") with 61%N in *.
  apply app_eq_inv in Heq as [(k & -> & Hk) | (k & -> & Hk)].
  - (* the three code units begin inside [head] *)
    destruct k as [| k0 [| k1 [| k2 k]]]; cbn [app] in *; simplify_eq; ends_false.
    + destruct src as [| s0 src]; [congruence |]. cbn [app] in *. simplify_eq. ends_false.
    + apply last_Some in Hlast as (h' & Hh'). apply app_inj_tail in Hh' as [_ ->].
      reflexivity.
  - (* they begin behind [head] *)
    destruct k as [| k0 k]; cbn [app] in Hk; injection Hk as -> Hk.
    + destruct src as [| s0 src]; [congruence |]. cbn [app] in *. simplify_eq. ends_false.
    + apply app_eq_inv in Hk as [(k2 & -> & Hk) | (k2 & -> & Hk)].
      * destruct k2 as [| k0' [| k1' [| k2' k2]]]; cbn [app] in *; simplify_eq;
          ends_false.
        -- destruct rest as [| r0 [| r1 [| r2 rest]]]; cbn [app] in *; simplify_eq;
             ends_false.
        -- destruct rest as [| r0 [| r1 rest]]; cbn [app] in *; simplify_eq; ends_false.
      * destruct (exists_last Hafter) as (after' & z & ->).
        assert (Hall : Forall (fun c => c = q' \/ not_gt c = true) (q' :: rest)).
        { constructor; [left; reflexivity |].
          eapply Forall_impl; [exact Hrest |]. intros; right; assumption. }
        assert (Hk' : q' :: rest = k2 ++ y :: dquote :: 62%N :: after').
        { apply (app_inj_tail _ _ 62%N z).
          repeat (rewrite <- ?app_assoc; cbn [app]). exact Hk. }
        rewrite Hk' in Hall.
        apply Forall_app in Hall as [_ Hall].
        inversion Hall as [| ? ? _ Hall1]; subst.
        inversion Hall1 as [| ? ? _ Hall2]; subst.
        inversion Hall2 as [| ? ? [Hg | Hg] _]; subst; [| discriminate Hg].
        discriminate Hq'.
Qed.

Lemma startsWith_ci_intro (a b : N) (s p : list N) :
  lower_char a = lower_char b -> startsWith_ci s p = true ->
  startsWith_ci (b :: s) (a :: p) = true.
Proof.
  intros H1 H2. cbn [startsWith_ci]. rewrite H2, andb_true_r. apply N.eqb_eq. exact H1.
Qed.

Lemma shape_ends (tag src : list N) :
  shape tag src -> exists t0, tag = t0 ++ [ch ">"].
Proof.
  intros (head & rest & q & q' & -> & _).
  exists (head ++ q :: src ++ q' :: rest).
  repeat (rewrite <- ?app_assoc; cbn [app]). reflexivity.
Qed.

Lemma shape_starts (tag src after : list N) :
  shape tag src -> startsWith_ci (tag ++ after) (js "<i") = true.
Proof.
  intros (head & rest & q & q' & -> & Hhead & _).
  change (js "<i") with [ch "<"; ch "i"] in Hhead.
  destruct head as [| h0 [| h1 head]]; try discriminate.
  - apply startsWith_ci_cons in Hhead as [_ Hhead]. discriminate.
  - apply startsWith_ci_cons in Hhead as [H0 Hhead].
    apply startsWith_ci_cons in Hhead as [H1 _].
    change (js "<i") with [ch "<"; ch "i"]. cbn [app].
    apply startsWith_ci_intro; [exact H0 |].
    apply startsWith_ci_intro; [exact H1 |].
    match goal with |- startsWith_ci ?l [] = true => destruct l; reflexivity end.
Qed.

(** No image tag begins inside the note. *)
Lemma no_tag_inside_note (l0 m v : list N) :
  l0 ++ m = closed_note -> m <> [] -> startsWith_ci (m ++ v) (js "<i") = false.
Proof.
  intros H Hm. remember closed_note as w eqn:Hw. vm_compute in Hw. subst w.
  repeat (destruct l0 as [| ? l0];
          [cbn [app] in H; subst m; reflexivity | injection H as _ H]).
  destruct l0; [| discriminate H]. cbn [app] in H. congruence.
Qed.

Lemma startsWith_true (s p : list N) : startsWith s p = true -> exists k, s = p ++ k.
Proof. unfold startsWith. rewrite bool_decide_eq_true. intros [k ->]. eauto. Qed.

Lemma indexOf_Some (s p : list N) (k : nat) :
  indexOf s p = Some k -> s = take k s ++ p ++ drop (k + length p) s.
Proof.
  revert k. induction s as [| x s IH]; intros k H; cbn [indexOf] in H.
  - destruct (startsWith [] p) eqn:Hs; [| discriminate]. injection H as <-.
    apply startsWith_true in Hs as [k' Hk']. rewrite Hk' at 1.
    cbn [take app plus]. rewrite Hk', drop_app_length.
    rewrite <- Hk'. symmetry in Hk'. apply app_eq_nil in Hk' as [_ ->]. reflexivity.
  - destruct (startsWith (x :: s) p) eqn:Hs.
    + injection H as <-. apply startsWith_true in Hs as [k' Hk']. rewrite Hk'.
      cbn [take app plus]. rewrite drop_app_length. reflexivity.
    + destruct (indexOf s p) as [k' |] eqn:Hk'; [| discriminate].
      injection H as <-. cbn [take plus drop app]. f_equal. apply IH. reflexivity.
Qed.

Lemma indexOf_first (p pre post : list N) :
  exists k, indexOf (pre ++ p ++ post) p = Some k /\ k <= length pre.
Proof.
  induction pre as [| x pre IH].
  - exists 0. split; [| cbn; lia]. cbn [app].
    assert (Hs : startsWith (p ++ post) p = true).
    { unfold startsWith. apply bool_decide_eq_true. exists post. reflexivity. }
    destruct (p ++ post); cbn [indexOf]; rewrite Hs; reflexivity.
  - destruct IH as (k & Hk & Hle). cbn [app indexOf].
    destruct (startsWith (x :: pre ++ p ++ post) p).
    + exists 0. split; [reflexivity | lia].
    + exists (S k). rewrite Hk. split; [reflexivity | cbn [length]; lia].
Qed.

Lemma substitution_plain (matched before after rep : list N) :
  Forall (fun x => x <> dollar) rep -> substitution matched before after rep = rep.
Proof.
  intros H. induction rep as [| x rep IH]; [reflexivity |].
  apply Forall_cons in H as [Hx H].
  cbn [substitution]. apply N.eqb_neq in Hx. rewrite Hx, (IH H). reflexivity.
Qed.

(** The expansion leaves the end of a replacement as it is, when that
    end has no [$] and does not begin with a code unit that [$] gives a
    meaning to. *)
Lemma substitution_tail (matched before after tail : list N) (c : N) :
  Forall (fun x => x <> dollar) (c :: tail) ->
  c <> ch "&" -> c <> ch "`" -> c <> squote ->
  forall (n : nat) (rep : list N),
    length rep <= n ->
    exists r0, substitution matched before after (rep ++ c :: tail) = r0 ++ c :: tail.
Proof.
  intros Hplain H1 H2 H3. induction n as [n IH] using lt_wf_ind. intros rep Hlen.
  destruct rep as [| x rep].
  - exists []. apply substitution_plain. exact Hplain.
  - cbn [app substitution]. destruct (x =? dollar)%N eqn:Hx.
    + destruct rep as [| d rep].
      * cbn [app]. inversion Hplain as [| ? ? Hc Htail]; subst.
        apply N.eqb_neq in Hc, H1, H2, H3. rewrite Hc, H1, H2, H3.
        exists [x]. cbn [app]. f_equal.
        apply substitution_plain. constructor; [apply N.eqb_neq; exact Hc | exact Htail].
      * cbn [app]. cbn [length] in Hlen.
        destruct (IH (length rep) ltac:(lia) rep ltac:(lia)) as (r2 & Hr2).
        destruct (IH (S (length rep)) ltac:(lia) (d :: rep) ltac:(cbn; lia)) as (r1 & Hr1).
        cbn [app] in Hr1.
        destruct (d =? dollar)%N; [exists (dollar :: r2); rewrite Hr2; reflexivity |].
        destruct (d =? ch "&")%N;
          [exists (matched ++ r2); rewrite Hr2, <- app_assoc; reflexivity |].
        destruct (d =? ch "`")%N;
          [exists (before ++ r2); rewrite Hr2, <- app_assoc; reflexivity |].
        destruct (d =? squote)%N;
          [exists (after ++ r2); rewrite Hr2, <- app_assoc; reflexivity |].
        exists (x :: r1). rewrite Hr1. reflexivity.
    + cbn [length] in Hlen.
      destruct (IH (length rep) ltac:(lia) rep ltac:(lia)) as (r1 & Hr1).
      exists (x :: r1). rewrite Hr1. reflexivity.
Qed.

Lemma cons_eq_inv {A : Type} (x y : A) (l k : list A) :
  x :: l = y :: k -> x = y /\ l = k.
Proof. intros [= -> ->]. auto. Qed.

Lemma snoc_or_nil {A : Type} (l : list A) : l = [] \/ exists l' x, l = l' ++ [x].
Proof. induction l as [| x l _] using rev_ind; eauto. Qed.

(** The capture of a tag that ends with [c], a double quote and [>]
    is replaced by a path that ends with [p]: the new tag ends in the
    same way, with [c] or with [p]. *)
Lemma replaced_tag_ending (tag src l path : list N) (c : N) :
  shape tag src ->
  tag = l ++ [c; dquote; ch ">"] ->
  Forall (fun x => x <> dollar) (path ++ [ch "p"]) ->
  exists (n0 : list N) (c' : N),
    replace tag src (path ++ [ch "p"]) = n0 ++ [c'; dquote; ch ">"]
    /\ (c' = c \/ c' = ch "p").
Proof.
  intros (head & rest & q & q' & -> & _ & _ & _ & Hq & Hq' & Hne & Hsrc & Hrest) Hend Hpath.
  destruct (indexOf_first src (head ++ [q]) (q' :: rest ++ [ch ">"])) as (k & Hk & Hle).
  assert (Htag : head ++ q :: src ++ q' :: rest ++ [ch ">"]
                 = (head ++ [q]) ++ src ++ q' :: rest ++ [ch ">"]).
  { repeat (rewrite <- ?app_assoc; cbn [app]). reflexivity. }
  unfold replace. rewrite Htag, Hk, <- Htag.
  rewrite substitution_plain by exact Hpath.
  rewrite length_app in Hle. cbn [length] in Hle.
  set (body := head ++ q :: src).
  assert (Hbody : head ++ q :: src ++ q' :: rest ++ [ch ">"]
                  = body ++ q' :: rest ++ [ch ">"]).
  { subst body. repeat (rewrite <- ?app_assoc; cbn [app]). reflexivity. }
  assert (Hlen : k + length src <= length body).
  { subst body. rewrite length_app. cbn [length]. lia. }
  rewrite Hbody in Hend |- *.
  rewrite (drop_app_le body _ (k + length src) Hlen).
  set (kept := take k (body ++ q' :: rest ++ [ch ">"])).
  set (d1 := drop (k + length src) body).
  destruct (snoc_or_nil rest) as [-> | (rest' & z & ->)].
  - (* nothing between the closing quote and [>] *)
    cbn [app] in Hend |- *.
    change (l ++ [c; dquote; ch ">"]) with (l ++ [c] ++ [dquote; ch ">"]) in Hend.
    rewrite app_assoc in Hend.
    apply app_inj_2 in Hend as [Hb [= ->]]; [| reflexivity].
    destruct (snoc_or_nil d1) as [Hd1 | (d1' & z & Hd1)].
    + rewrite Hd1. exists (kept ++ path), (ch "p"). split; [| right; reflexivity].
      repeat (rewrite <- ?app_assoc; cbn [app]). reflexivity.
    + exists (kept ++ (path ++ [ch "p"]) ++ d1'), c. split; [| left; reflexivity].
      assert (z = c) as ->.
      { assert (Hl : last d1 = Some z) by (rewrite Hd1; apply last_snoc).
        subst d1. rewrite Hb in Hl.
        assert (Hk' : k + length src <= length l).
        { apply (f_equal length) in Hd1. rewrite length_drop, Hb, !length_app in Hd1.
          cbn [length] in Hd1. lia. }
        rewrite (drop_app_le l [c] _ Hk'), last_snoc in Hl. congruence. }
      rewrite Hd1. repeat (rewrite <- ?app_assoc; cbn [app]). reflexivity.
  - (* the tag goes on behind the closing quote *)
    assert (Hend' : (body ++ q' :: rest') ++ [z; ch ">"] = (l ++ [c]) ++ [dquote; ch ">"]).
    { repeat (rewrite <- ?app_assoc in Hend; cbn [app] in Hend).
      repeat (rewrite <- ?app_assoc; cbn [app]). exact Hend. }
    apply app_inj_2 in Hend' as [Hb [= ->]]; [| reflexivity].
    assert (Hlast : last (q' :: rest') = Some c).
    { assert (H : last ((body ++ q' :: rest')) = Some c) by (rewrite Hb; apply last_snoc).
      rewrite last_app in H. destruct (last (q' :: rest')) eqn:Hl; [exact H |].
      apply last_None in Hl. discriminate. }
    apply last_Some in Hlast as (y & Hy).
    exists (kept ++ (path ++ [ch "p"]) ++ d1 ++ y), c. split; [| left; reflexivity].
    assert (Htail : q' :: rest' ++ [dquote; ch ">"] = y ++ [c; dquote; ch ">"]).
    { change (q' :: rest' ++ [dquote; ch ">"]) with ((q' :: rest') ++ [dquote; ch ">"]).
      rewrite Hy, <- app_assoc. reflexivity. }
    repeat (rewrite <- ?app_assoc; cbn [app]). rewrite Htail. reflexivity.
Qed.

Lemma note_letter_plain (c : N) :
  c = ch "e" \/ c = ch "p" ->
  c <> ch "=" /\ c <> ch ">" /\ c <> dquote /\ c <> dollar
  /\ c <> ch "&" /\ c <> ch "`" /\ c <> squote
  /\ forall s, startsWith_ci (c :: s) (js "<i") = false.
Proof. intros [-> | ->]; repeat split; try discriminate; intros []; reflexivity. Qed.

(** Rewriting an image tag of a content that holds the note gives a
    content that holds the note. *)
Lemma replace_keeps_note (s tag src path : list N) :
  holds_note s ->
  shape tag src ->
  Forall (fun x => x <> dollar) (path ++ [ch "p"]) ->
  holds_note (replace s tag (replace tag src (path ++ [ch "p"]))).
Proof.
  intros (u & v & c & Hs & Hc) Hshape Hpath.
  destruct (note_letter_plain c Hc) as (Hc1 & Hc2 & Hc3 & Hc4 & Hc5 & Hc6 & Hc7 & Hc8).
  unfold replace at 1. destruct (indexOf s tag) as [i |] eqn:Hi;
    [| exists u, v, c; auto].
  apply indexOf_Some in Hi.
  set (b := take i s) in *. set (a := drop (i + length tag) s) in *.
  set (new := replace tag src (path ++ [ch "p"])).
  set (r := substitution tag b a new).
  rewrite Hs in Hi.
  apply app_eq_inv in Hi as [(k & Hu & Hk) | (k & Hb & Hk)].
  - (* the tag begins before the note *)
    apply app_eq_inv in Hk as [(m & Htag & Hm) | (m & Hk & Hm)].
    2:{ (* and ends before it *)
      exists (b ++ r ++ m), v, c. split; [| exact Hc].
      rewrite Hm. repeat (rewrite <- ?app_assoc; cbn [app]). reflexivity. }
    + destruct (shape_ends tag src Hshape) as (t0 & Ht0).
      destruct m as [| m0 [| m1 [| m2 m3]]].
      * exists (b ++ r), v, c. split; [| exact Hc].
        cbn [app] in Hm. rewrite <- Hm. rewrite <- app_assoc. reflexivity.
      * exfalso. cbn [app] in Hm. injection Hm as <- _.
        rewrite Ht0 in Htag. apply app_inj_tail in Htag as [_ Htag]. congruence.
      * exfalso. unfold closed_note in Hm. cbn [app] in Hm. injection Hm as _ <- _.
        rewrite Ht0 in Htag.
        change (k ++ [m0; dquote]) with (k ++ [m0] ++ [dquote]) in Htag.
        rewrite app_assoc in Htag. apply app_inj_tail in Htag as [_ Htag]. discriminate.
      * unfold closed_note in Hm. cbn [app] in Hm. injection Hm as <- <- <- Hm.
        destruct m3 as [| m3 m4].
        -- (* the tag ends with the tag that opens the note *)
           cbn [app] in Hm.
           destruct (replaced_tag_ending tag src k path c Hshape Htag Hpath)
             as (n0 & c' & Hnew & Hc').
           assert (Hc'' : c' = ch "e" \/ c' = ch "p") by (destruct Hc' as [-> | ->]; auto).
           destruct (note_letter_plain c' Hc'')
             as (_ & Hd2 & Hd3 & Hd4 & Hd5 & Hd6 & Hd7 & _).
           assert (Hplain : Forall (fun x => x <> dollar) [c'; dquote; ch ">"])
             by (repeat constructor; [exact Hd4 | discriminate | discriminate]).
           pose proof (substitution_tail tag b a [dquote; ch ">"] c'
                         Hplain Hd5 Hd6 Hd7 (length n0) n0 (le_n _)) as Hr0.
           destruct Hr0 as (r0 & Hr0).
           exists (b ++ r0), v, c'. split; [| exact Hc''].
           subst r new. rewrite Hnew, Hr0, <- Hm. unfold closed_note.
           repeat (rewrite <- ?app_assoc; cbn [app]). reflexivity.
        -- exfalso. apply Hc1.
           apply (shape_inner_gt tag src k (m3 :: m4) c Hshape Htag). discriminate.
  - (* the tag begins at the note or behind its first code unit *)
    destruct k as [| k0 k].
    + exfalso. cbn [app] in Hk. pose proof (shape_starts tag src a Hshape) as Hst.
      rewrite <- Hk, Hc8 in Hst. discriminate.
    + cbn [app] in Hk. apply cons_eq_inv in Hk as [<- Hk].
      apply app_eq_inv in Hk as [(m & Hk & Hm) | (m & Hk & Hm)].
      2:{ exists u, (m ++ r ++ a), c. split; [| exact Hc].
          rewrite Hb, Hk. repeat (rewrite <- ?app_assoc; cbn [app]). reflexivity. }
      * destruct m as [| m0 m].
        -- exists u, (r ++ a), c. split; [| exact Hc].
           rewrite Hb. rewrite app_nil_r in Hk. rewrite <- Hk.
           repeat (rewrite <- ?app_assoc; cbn [app]). reflexivity.
        -- exfalso. pose proof (shape_starts tag src a Hshape) as Hst.
           rewrite Hm in Hst.
           rewrite (no_tag_inside_note k (m0 :: m) v) in Hst;
             [discriminate | symmetry; exact Hk | discriminate].
Qed.

End ImageTagOverlap.

Section FallbackNote.

Import ContentExtractor ImageTag.

Lemma hex_digit_plain (x : N) : Md5.hex_digit x <> dollar.
Proof.
  unfold Md5.hex_digit, dollar. destruct (x <? 10)%N eqn:H; [| lia].
  apply N.ltb_lt in H. lia.
Qed.

Lemma hex_word_plain (x : N) : Forall (fun c => c <> dollar) (Md5.hex_word x).
Proof.
  unfold Md5.hex_word. apply Forall_bind, Forall_forall. intros b _.
  unfold Md5.hex_byte. repeat constructor; apply hex_digit_plain.
Qed.

Lemma hex_plain (s : list N) : Forall (fun c => c <> dollar) (Md5.hex s).
Proof.
  unfold Md5.hex, Md5.hex_state.
  apply Forall_app; split; [apply hex_word_plain |].
  apply Forall_app; split; [apply hex_word_plain |].
  apply Forall_app; split; apply hex_word_plain.
Qed.

Lemma asset_path_plain (imageUrl : list N) :
  exists path,
    js "/assets/" ++ localFilename imageUrl = path ++ [ch "p"]
    /\ Forall (fun c => c <> dollar) (path ++ [ch "p"]).
Proof.
  exists (js "/assets/" ++ Md5.hex imageUrl ++ js ".web"). split.
  - unfold localFilename. repeat (rewrite <- ?app_assoc; cbn [app]). reflexivity.
  - rewrite <- !app_assoc.
    apply Forall_app; split; [repeat constructor; discriminate |].
    apply Forall_app; split; [apply hex_plain |]. repeat constructor; discriminate.
Qed.

Context {R : Runtime} (assetsPath : list N).

(** [processImagesInContent] keeps the note of a content that holds
    it, whatever image tags the content has and whatever becomes of
    their downloads. *)
Lemma processImagesInContent_keeps_note (content : list N) (baseUrl : option (list N))
    (fs : gmap (list N) (list N)) :
  holds_note content ->
  holds_note (processImagesInContent assetsPath content baseUrl fs).1.
Proof.
  intros Hnote. unfold processImagesInContent.
  assert (Hshapes : forall tag src, (tag, src) ∈ matchAll_img 0 content -> shape tag src)
    by (intros tag src; apply matchAll_img_shape).
  revert Hshapes. generalize (matchAll_img 0 content) as matches.
  intros matches. revert fs Hnote. generalize content as processed.
  induction matches as [| [tag src] matches IH]; intros processed fs Hnote Hshapes;
    [exact Hnote |].
  cbn [foldl].
  destruct (downloadAndOptimizeImage assetsPath (resolveUrl src baseUrl) fs)
    as [optimizedPath fs'] eqn:Hdl.
  assert (Hrest : forall tag' src', (tag', src') ∈ matches -> shape tag' src').
  { intros tag' src' Hin. apply Hshapes. apply list_elem_of_further. exact Hin. }
  destruct optimizedPath as [name |].
  - apply downloadAndOptimizeImage_name in Hdl. subst name.
    destruct (asset_path_plain (resolveUrl src baseUrl)) as (path & Hpath & Hplain).
    destruct (truthy (Some (localFilename (resolveUrl src baseUrl)))).
    + apply IH; [| exact Hrest].
      change (default [] (Some (localFilename (resolveUrl src baseUrl))))
        with (localFilename (resolveUrl src baseUrl)).
      rewrite Hpath.
      apply replace_keeps_note; [exact Hnote | | exact Hplain].
      apply Hshapes. apply list_elem_of_here.
    + apply IH; assumption.
  - cbn [truthy]. apply IH; assumption.
Qed.

(** The fallback document of a page of YouTube holds the note. *)
Lemma createFallbackContent_holds_note (title url : list N)
    (description : option (list N)) :
  url <> [] ->
  isExactDomain url (js "youtube.com") = true
  \/ isExactDomain url (js "youtu.be") = true ->
  holds_note (createFallbackContent title description (Some url)).
Proof.
  intros Hurl Hyt. unfold createFallbackContent.
  assert (Htruthy : truthy (Some url) = true) by (destruct url; [congruence | reflexivity]).
  change (default [] (Some url)) with url. rewrite Htruthy. cbn [andb].
  assert (Hor : isExactDomain url (js "youtube.com") || isExactDomain url (js "youtu.be")
                = true) by (apply orb_true_iff; exact Hyt).
  rewrite Hor.
  assert (Hsplit : youtube_note = jsq "<p class='content-not" ++ ch "e" :: closed_note)
    by (vm_compute; reflexivity).
  rewrite Hsplit. cbv zeta.
  match goal with
  | |- holds_note (((?before ++ _) ++ ?source) ++ ?close) =>
      exists (before ++ jsq "<p class='content-not"), (source ++ close), (ch "e");
      generalize before source close
  end.
  intros before source close. split; [| left; reflexivity].
  rewrite <- !app_assoc. reflexivity.
Qed.

End FallbackNote.

Lemma extractTitle_og_title (document : Document) (meta : Element) (t : list N) :
  document (js "h1") = None ->
  document (jsq "[property='og:title']") = Some meta ->
  getAttribute meta (js "content") = Some t ->
  trim t <> [] ->
  ContentExtractor.extractTitle document = trim t.
Proof.
  intros Hh1 Hmeta Hattr Htrim. unfold ContentExtractor.extractTitle.
  cbn [ContentExtractor.first_of]. rewrite Hh1, Hmeta, Hattr.
  assert (Ht : truthy (Some t) = true).
  { destruct t; [exfalso; apply Htrim; reflexivity | reflexivity]. }
  unfold or_else. rewrite Ht. unfold ContentExtractor.nonblank.
  destruct (trim t); [congruence | reflexivity].
Qed.

(** C6. When Readability returns null, [extractFromHtml] does not throw: it
    returns a result, whose title is the one found in the metadata of the
    document (the content of the og:title tag when the document has no
    heading) and, for a URL of YouTube, whose content holds the note about
    a video.  A null result of Readability is not an error. *)
Theorem null_readability_gives_fallback_document :
  forall (R : Runtime) (assetsPath html : list N) (baseUrl : option (list N))
         (document0 document : Document) (fs : gmap (list N) (list N)),
    JSDOM_document html baseUrl = Ok document0 ->
    Readability_parse document0 = Ok (None, document) ->
    exists (extracted : ContentExtractor.ExtractedArticle)
           (fs' : gmap (list N) (list N)),
      ContentExtractor.extractFromHtml assetsPath html baseUrl fs = (Ok extracted, fs')
      /\ ContentExtractor.title extracted = ContentExtractor.extractTitle document
      /\ (forall (meta : Element) (t : list N),
            document (js "h1") = None ->
            document (jsq "[property='og:title']") = Some meta ->
            getAttribute meta (js "content") = Some t ->
            trim t <> [] ->
            ContentExtractor.title extracted = trim t)
      /\ (forall url : list N,
            baseUrl = Some url -> url <> [] ->
            ContentExtractor.isExactDomain url (js "youtube.com") = true
            \/ ContentExtractor.isExactDomain url (js "youtu.be") = true ->
            exists before after : list N,
              ContentExtractor.content extracted
              = before
                ++ js "<strong>This is a YouTube video.</strong> Visit the link to watch the video.</p>"
                ++ after).
Proof.
  intros R assetsPath html baseUrl document0 document fs Hdom Hread.
  pose proof (extractFromHtml_parsed assetsPath html baseUrl document0 document None fs
                Hdom Hread) as Hrun.
  destruct (ContentExtractor.extractFromHtml assetsPath html baseUrl fs)
    as [r fs'] eqn:Hx.
  cbn [fst] in Hrun. subst r.
  eexists _, fs'. split; [reflexivity |].
  unfold ContentExtractor.assembled.
  cbn [ContentExtractor.title ContentExtractor.content ContentExtractor.chooseFields fst snd].
  split; [reflexivity |]. split.
  - intros meta t Hh1 Hmeta Hattr Htrim.
    apply (extractTitle_og_title document meta t); assumption.
  - intros url -> Hurl Hyt.
    pose proof (createFallbackContent_holds_note
                  (ContentExtractor.extractTitle document) url
                  (ContentExtractor.extractDescription document) Hurl Hyt) as Hnote.
    apply (processImagesInContent_keeps_note assetsPath _ (Some url)
             (ContentExtractor.extractAndOptimizeImage assetsPath document (Some url) fs).2)
      in Hnote.
    destruct Hnote as (u & v & c & Heq & _).
    exists (u ++ [c; dquote; ch ">"]), v. rewrite Heq.
    unfold ImageTag.closed_note, ImageTag.note_text.
    repeat (rewrite <- ?app_assoc; cbn [app]). reflexivity.
Qed.

Lemma null_readability_gives_fallback_document_witness :
  exists extracted : ContentExtractor.ExtractedArticle,
    (@ContentExtractor.extractFromHtml online_runtime Samples.assets_dir sample_page
       (Some (js "https://www.youtube.com/watch?v=abc")) ∅).1 = Ok extracted
    /\ ContentExtractor.title extracted = js "My Video"
    /\ exists before after : list N,
         ContentExtractor.content extracted
         = before
           ++ js "<strong>This is a YouTube video.</strong> Visit the link to watch the video.</p>"
           ++ after.
Proof.
  destruct (null_readability_gives_fallback_document online_runtime Samples.assets_dir
              sample_page (Some (js "https://www.youtube.com/watch?v=abc"))
              sample_document sample_document ∅ eq_refl eq_refl)
    as (extracted & fs' & Hrun & _ & Htitle & Hnote).
  exists extracted. rewrite Hrun. split; [reflexivity |]. split.
  - apply (Htitle {| getAttribute := fun name =>
                       if bool_decide (name = js "content") then Some (js "My Video")
                       else None;
                     textContent := [] |} (js "My Video")).
    + reflexivity.
    + reflexivity.
    + reflexivity.
    + vm_compute. discriminate.
  - apply (Hnote (js "https://www.youtube.com/watch?v=abc") eq_refl).
    + discriminate.
    + left. vm_compute. reflexivity.
Defined.

(** * Further properties of the pipeline *)

(** ** The handler of a job *)


(** X1. Whatever the extractor does, the handler leaves an existing article
    in a terminal state: completed, without error and with the extracted
    title, content, word count, reading time and original HTML, when the
    handler returns; failed, with the message of the error, when it throws.
    It writes the status extracting first, and never changes the id, the URL
    or the owner of the article. *)
Theorem handler_leaves_a_terminal_state :
  forall (R : Runtime) (assetsPath : list N) (job : Queue.JobData) (w : Queue.World)
         (a : Queue.Article),
    Queue.articles w !! Queue.articleId job = Some a ->
    exists a' : Queue.Article,
      Queue.articles (Queue.processArticleExtraction assetsPath job w).2
        !! Queue.articleId job = Some a'
      /\ Queue.statusLog (Queue.processArticleExtraction assetsPath job w).2
         = Queue.statusLog w
           ++ [(Queue.articleId job, Queue.extracting);
               (Queue.articleId job, Queue.extractionStatus a')]
      /\ Queue.id a' = Queue.id a /\ Queue.url a' = Queue.url a
      /\ Queue.userId a' = Queue.userId a
      /\ match (Queue.processArticleExtraction assetsPath job w).1 with
         | Ok _ =>
             Queue.extractionStatus a' = Queue.completed
             /\ Queue.extractionError a' = None
             /\ exists (extracted : ContentExtractor.ExtractedArticle)
                       (fs : gmap (list N) (list N)),
                  ContentExtractor.extractFromUrl assetsPath (Queue.job_url job)
                    (Queue.assets w) = (Ok extracted, fs)
                  /\ Queue.title a' = ContentExtractor.title extracted
                  /\ Queue.content a' = Some (ContentExtractor.content extracted)
                  /\ Queue.wordCount a' = Some (ContentExtractor.wordCount extracted)
                  /\ Queue.readingTime a' = Some (ContentExtractor.readingTime extracted)
                  /\ Queue.originalHtml a' = Some (ContentExtractor.originalHtml extracted)
         | Throw error =>
             Queue.extractionStatus a' = Queue.failed
             /\ Queue.extractionError a' = Some (Queue.errorMessage_of error)
         end.
Proof.
  intros R assetsPath job w a Ha.
  destruct (ContentExtractor.extractFromUrl assetsPath (Queue.job_url job) (Queue.assets w))
    as [[extracted | error] fs] eqn:Hx.
  - rewrite (processArticleExtraction_success assetsPath job w a extracted fs Ha Hx).
    cbn [fst snd Queue.articles Queue.statusLog]. rewrite lookup_insert_eq.
    eexists. split; [reflexivity |]. cbn.
    split; [reflexivity |]. split; [reflexivity |]. split; [reflexivity |].
    split; [reflexivity |]. split; [reflexivity |]. split; [reflexivity |].
    exists extracted, fs. repeat split.
  - rewrite (processArticleExtraction_failure assetsPath job w a error fs Ha Hx).
    cbn [fst snd Queue.articles Queue.statusLog]. rewrite lookup_insert_eq.
    eexists. split; [reflexivity |]. cbn. repeat split.
Qed.

Lemma handler_leaves_a_terminal_state_witness :
  exists a' : Queue.Article,
    Queue.articles
      (@Queue.processArticleExtraction online_runtime Samples.assets_dir
         Samples.job1 Samples.world0).2 !! js "a1" = Some a'
    /\ Queue.extractionStatus a' = Queue.completed
    /\ Queue.title a' = js "My Video".
Proof.
  destruct (handler_leaves_a_terminal_state online_runtime Samples.assets_dir Samples.job1
              Samples.world0 Samples.read_article)
    as (a' & Ha' & _ & _ & _ & _ & Hend).
  - vm_compute. reflexivity.
  - exists a'. split; [exact Ha' |].
    assert (Hrun : (@Queue.processArticleExtraction online_runtime Samples.assets_dir
                      Samples.job1 Samples.world0).1 = Ok ()) by (vm_compute; reflexivity).
    rewrite Hrun in Hend. destruct Hend as (Hs & _ & extracted & fs & Hx & Ht & _).
    split; [exact Hs |]. rewrite Ht.
    vm_compute in Hx. injection Hx as <- _. reflexivity.
Defined.

(** X2. The handler of a job writes to the article of the job only: every
    other row of the table, the queue and the clock are as before, whether
    the extraction succeeds, fails, or the article does not exist. *)
Theorem handler_touches_its_article_only :
  forall (R : Runtime) (assetsPath : list N) (job : Queue.JobData) (w : Queue.World)
         (k : list N),
    k <> Queue.articleId job ->
    Queue.articles (Queue.processArticleExtraction assetsPath job w).2 !! k
    = Queue.articles w !! k
    /\ Queue.queue (Queue.processArticleExtraction assetsPath job w).2 = Queue.queue w
    /\ Queue.clock (Queue.processArticleExtraction assetsPath job w).2 = Queue.clock w.
Proof.
  intros R assetsPath job w k Hk.
  destruct (Queue.articles w !! Queue.articleId job) as [a |] eqn:Ha.
  - destruct (ContentExtractor.extractFromUrl assetsPath (Queue.job_url job) (Queue.assets w))
      as [[extracted | error] fs] eqn:Hx.
    + rewrite (processArticleExtraction_success assetsPath job w a extracted fs Ha Hx).
      cbn [snd Queue.articles Queue.queue Queue.clock].
      rewrite lookup_insert_ne by congruence. auto.
    + rewrite (processArticleExtraction_failure assetsPath job w a error fs Ha Hx).
      cbn [snd Queue.articles Queue.queue Queue.clock].
      rewrite lookup_insert_ne by congruence. auto.
  - rewrite (processArticleExtraction_missing assetsPath job w Ha). auto.
Qed.

Lemma handler_touches_its_article_only_witness :
  Queue.articles
    (@Queue.processArticleExtraction offline_runtime Samples.assets_dir
       Samples.job1 Samples.world0).2 !! js "a2"
  = Some Samples.stuck_article.
Proof.
  destruct (handler_touches_its_article_only offline_runtime Samples.assets_dir
              Samples.job1 Samples.world0 (js "a2")) as [H _].
  - discriminate.
  - rewrite H. vm_compute. reflexivity.
Defined.

(** X3. A job for an article that is not in the table (it was deleted in
    the meantime) fetches nothing and leaves the state exactly as it was:
    the first update throws, the update of the catch block throws in its
    turn, and its error, not that of the first update, is what the handler
    throws to the queue. *)
Theorem handler_of_a_missing_article_changes_nothing :
  forall (R : Runtime) (assetsPath : list N) (job : Queue.JobData) (w : Queue.World),
    Queue.articles w !! Queue.articleId job = None ->
    Queue.update 69 (Queue.articleId job) (Queue.markExtracting (Queue.clock w)) w
    = Throw (update_not_found 69)
    /\ Queue.processArticleExtraction assetsPath job w = (Throw (update_not_found 108), w).
Proof.
  intros R assetsPath job w Ha. split.
  - apply update_None. exact Ha.
  - apply processArticleExtraction_missing. exact Ha.
Qed.

Lemma handler_of_a_missing_article_changes_nothing_witness :
  @Queue.processArticleExtraction online_runtime Samples.assets_dir
    {| Queue.articleId := js "gone"; Queue.job_url := js "https://blog.example/post";
       Queue.job_userId := js "u1" |} Samples.world0
  = (Throw (JsError (js "Invalid `prisma.article.update()` invocation in queue.ts:108 Record to update not found.")),
     Samples.world0).
Proof.
  apply (handler_of_a_missing_article_changes_nothing online_runtime Samples.assets_dir
           {| Queue.articleId := js "gone"; Queue.job_url := js "https://blog.example/post";
              Queue.job_userId := js "u1" |} Samples.world0).
  vm_compute. reflexivity.
Defined.

(** X4. When the server answers the page request with a status outside of
    2xx, the extractor throws without writing an asset, and the job leaves
    the article failed with the error Failed to fetch URL, the status code
    and the status text; when the request itself fails, the error of the
    network is the one that is recorded. *)
Theorem fetch_failure_is_recorded :
  forall (R : Runtime) (assetsPath : list N) (job : Queue.JobData) (w : Queue.World)
         (a : Queue.Article),
    Queue.articles w !! Queue.articleId job = Some a ->
    match fetch (Queue.job_url job) with
    | Ok response =>
        ok response = false ->
        Queue.extractionError
          <$> Queue.articles (Queue.processArticleExtraction assetsPath job w).2
                !! Queue.articleId job
        = Some (Some (js "Failed to fetch URL: " ++ decimal (status response) ++ js " "
                      ++ statusText response))
        /\ Queue.assets (Queue.processArticleExtraction assetsPath job w).2 = Queue.assets w
    | Throw error =>
        Queue.extractionError
          <$> Queue.articles (Queue.processArticleExtraction assetsPath job w).2
                !! Queue.articleId job
        = Some (Some (Queue.errorMessage_of error))
        /\ Queue.assets (Queue.processArticleExtraction assetsPath job w).2 = Queue.assets w
        /\ (Queue.processArticleExtraction assetsPath job w).1 = Throw error
    end.
Proof.
  intros R assetsPath job w a Ha.
  destruct (fetch (Queue.job_url job)) as [response | error] eqn:Hf.
  - intros Hok.
    assert (Hx : ContentExtractor.extractFromUrl assetsPath (Queue.job_url job) (Queue.assets w)
                 = (Throw (JsError (js "Failed to fetch URL: " ++ decimal (status response)
                                    ++ js " " ++ statusText response)), Queue.assets w)).
    { unfold ContentExtractor.extractFromUrl. rewrite Hf, Hok. reflexivity. }
    rewrite (processArticleExtraction_failure assetsPath job w a _ _ Ha Hx).
    cbn [snd Queue.articles Queue.assets]. rewrite lookup_insert_eq. split; reflexivity.
  - assert (Hx : ContentExtractor.extractFromUrl assetsPath (Queue.job_url job) (Queue.assets w)
                 = (Throw error, Queue.assets w)).
    { unfold ContentExtractor.extractFromUrl. rewrite Hf. reflexivity. }
    rewrite (processArticleExtraction_failure assetsPath job w a _ _ Ha Hx).
    cbn [fst snd Queue.articles Queue.assets]. rewrite lookup_insert_eq. repeat split.
Qed.

Lemma fetch_failure_is_recorded_witness :
  Queue.extractionError
    <$> Queue.articles
          (@Queue.processArticleExtraction MoreSamples.not_found_runtime Samples.assets_dir
             Samples.job1 Samples.world0).2 !! js "a1"
  = Some (Some (js "Failed to fetch URL: 404 Not Found")).
Proof.
  pose proof (fetch_failure_is_recorded MoreSamples.not_found_runtime Samples.assets_dir
                Samples.job1 Samples.world0 Samples.read_article) as H.
  cbn [fetch MoreSamples.not_found_runtime plain_runtime] in H.
  destruct H as [H _].
  - vm_compute. reflexivity.
  - reflexivity.
  - exact H.
Defined.

(** ** More on the reaper *)

(** X6. The timeout mark does not outlive the reaper.  When the reaper
    returns, with an initialized queue, an article that it found stuck
    carries the outcome of its new extraction: it is completed, without
    error, or it is failed, with the placeholder title and the message of
    an error that the extractor has thrown for the URL of the article.  Its
    id, URL and owner are as they were. *)
Theorem reaper_leaves_the_outcome_of_the_retry :
  forall (R : Runtime) (assetsPath : list N) (w : Queue.World) (q : list Queue.JobData)
         (k : list N) (a : Queue.Article),
    Queue.keyed (Queue.articles w) ->
    Queue.queue w = Some q ->
    Queue.articles w !! k = Some a ->
    Queue.extractionStatus a = Queue.extracting ->
    (Queue.updatedAt a < Queue.clock w - 10 * 60 * 1000)%Z ->
    exists a' : Queue.Article,
      Queue.articles (Queue.cleanupStuckExtractions assetsPath w).2 !! k = Some a'
      /\ Queue.id a' = Queue.id a /\ Queue.url a' = Queue.url a
      /\ Queue.userId a' = Queue.userId a
      /\ ((Queue.extractionStatus a' = Queue.completed /\ Queue.extractionError a' = None)
          \/ exists (error : thrown) (fs fs' : gmap (list N) (list N)),
               ContentExtractor.extractFromUrl assetsPath (Queue.url a) fs
               = (Throw error, fs')
               /\ Queue.extractionStatus a' = Queue.failed
               /\ Queue.extractionError a' = Some (Queue.errorMessage_of error)
               /\ Queue.title a' = js "Failed to extract").
Proof.
  intros R assetsPath w q k a Hkeyed Hq Ha Hs Hu.
  destruct (cleanupStuckExtractions_run assetsPath w q Hkeyed Hq) as (stuck & -> & Hnd & Hmem).
  cbn [snd]. pose proof (Hkeyed k a Ha) as Hid.
  assert (Hin : a ∈ stuck) by (apply Hmem; rewrite Hid; auto).
  destruct (reschedule_all assetsPath stuck Hnd w q) as (_ & _ & _ & Hst).
  { intros b Hb. apply Hmem in Hb as [Hb _]. exact Hb. }
  { exact Hq. }
  destruct (Hst a Hin)
    as (now & later & a' & error & _ & _ & Hrow & Hi & Hurl & Huser & Hend & Hfrom).
  rewrite Hid in Hrow. exists a'. split; [exact Hrow |].
  split; [exact Hi |]. split; [exact Hurl |]. split; [exact Huser |].
  destruct error as [e |]; cbn [Queue.ended Queue.from_extraction] in Hend, Hfrom.
  - right. destruct Hfrom as (fs & fs' & Hx). exists e, fs, fs'.
    split; [exact Hx |]. exact Hend.
  - left. exact Hend.
Qed.

Lemma reaper_leaves_the_outcome_of_the_retry_witness :
  exists a' : Queue.Article,
    Queue.articles
      (@Queue.cleanupStuckExtractions offline_runtime Samples.assets_dir
         (Queue.setupQueue Samples.world0)).2 !! js "a2" = Some a'
    /\ Queue.extractionError a' = Some (js "fetch failed").
Proof.
  destruct (reaper_leaves_the_outcome_of_the_retry offline_runtime Samples.assets_dir
              (Queue.setupQueue Samples.world0) [] (js "a2") Samples.stuck_article)
    as (a' & Ha' & _).
  - exact samples_keyed.
  - reflexivity.
  - vm_compute. reflexivity.
  - reflexivity.
  - vm_compute. reflexivity.
  - exists a'. split; [exact Ha' |].
    vm_compute in Ha'. injection Ha' as <-. reflexivity.
Defined.

(** ** The routes *)

(** X8. The retry route serves the owner of an article only: when the
    article does not exist or belongs to another user, the answer is 404
    Article not found and nothing is queued or changed. *)
Theorem retry_route_refuses_other_users :
  forall (R : Runtime) (assetsPath : list N) (user : Routes.User)
         (id : list N) (w : Queue.World),
    (forall a, Queue.articles w !! id = Some a -> Queue.userId a <> Routes.user_id user) ->
    Routes.retryExtraction assetsPath user id w
    = ({| Routes.code := 404; Routes.text := js "Article not found";
          Routes.cleaned := None |}, w).
Proof.
  intros R assetsPath user id w Hother. unfold Routes.retryExtraction, Routes.findFirst.
  destruct (Queue.articles w !! id) as [a |] eqn:Ha; [| reflexivity].
  rewrite bool_decide_eq_false_2; [reflexivity |]. apply Hother. reflexivity.
Qed.

Lemma retry_route_refuses_other_users_witness :
  @Routes.retryExtraction online_runtime Samples.assets_dir MoreSamples.stranger (js "a1")
    (Queue.setupQueue Samples.world0)
  = ({| Routes.code := 404; Routes.text := js "Article not found";
        Routes.cleaned := None |}, Queue.setupQueue Samples.world0).
Proof.
  apply retry_route_refuses_other_users.
  intros a Ha. vm_compute in Ha. injection Ha as <-. discriminate.
Defined.

(** X9. For the owner of an article and an initialized queue, the retry
    route gives the queue exactly one job, made of the id, the URL and the
    owner of the stored article, and answers when that job has ended: 200
    Extraction job queued for retry when the article has been completed, and
    500 Failed to queue retry job when the job has been dropped, the article
    being failed with the placeholder title.  No other article is
    changed. *)
Theorem retry_route_answers_when_the_job_has_ended :
  forall (R : Runtime) (assetsPath : list N) (user : Routes.User) (id : list N)
         (w : Queue.World) (a : Queue.Article) (q : list Queue.JobData),
    Queue.articles w !! id = Some a ->
    Queue.id a = id ->
    Queue.userId a = Routes.user_id user ->
    Queue.queue w = Some q ->
    Queue.queue (Routes.retryExtraction assetsPath user id w).2
    = Some (q ++ [Queue.job_of a])
    /\ (forall k, k <> id ->
          Queue.articles (Routes.retryExtraction assetsPath user id w).2 !! k
          = Queue.articles w !! k)
    /\ exists a' : Queue.Article,
         Queue.articles (Routes.retryExtraction assetsPath user id w).2 !! id = Some a'
         /\ (((Routes.retryExtraction assetsPath user id w).1
              = {| Routes.code := 200; Routes.text := js "Extraction job queued for retry";
                   Routes.cleaned := None |}
              /\ Queue.extractionStatus a' = Queue.completed
              /\ Queue.extractionError a' = None)
             \/ ((Routes.retryExtraction assetsPath user id w).1
                 = {| Routes.code := 500; Routes.text := js "Failed to queue retry job";
                      Routes.cleaned := None |}
                 /\ Queue.extractionStatus a' = Queue.failed
                 /\ Queue.title a' = js "Failed to extract")).
Proof.
  intros R assetsPath user id w a q Ha Hid Hu Hq.
  unfold Routes.retryExtraction, Routes.findFirst.
  rewrite Ha. rewrite bool_decide_eq_true_2 by exact Hu.
  unfold Queue.retryExtractionJob. rewrite Hq, Ha.
  change {| Queue.articleId := Queue.id a; Queue.job_url := Queue.url a;
            Queue.job_userId := Queue.userId a |} with (Queue.job_of a).
  assert (Ha0 : Queue.articles w !! Queue.articleId (Queue.job_of a) = Some a)
    by (cbn [Queue.job_of Queue.articleId]; rewrite Hid; exact Ha).
  destruct (addJob_run assetsPath (Queue.job_of a) w q a Hq Ha0)
    as ((Hsq & _ & Hso & _) & _ & a' & Ha' & Hend).
  cbn [Queue.job_of Queue.articleId] in Hso, Ha'. rewrite Hid in Hso, Ha'.
  cbn [Queue.with_queue Queue.queue Queue.articles] in Hsq, Hso.
  destruct (Queue.addJob assetsPath (Queue.job_of a) w) as [[u | error] w'];
    cbn [fst snd Queue.rejection Queue.ended] in *.
  - split; [exact Hsq |]. split; [exact Hso |]. exists a'. split; [exact Ha' |].
    left. split; [reflexivity | exact Hend].
  - split; [exact Hsq |]. split; [exact Hso |]. exists a'. split; [exact Ha' |].
    right. split; [reflexivity |]. destruct Hend as (Hs & _ & Ht). split; assumption.
Qed.

Lemma retry_route_answers_when_the_job_has_ended_witness :
  Routes.code
    (@Routes.retryExtraction offline_runtime Samples.assets_dir MoreSamples.owner (js "a1")
       (Queue.setupQueue Samples.world0)).1 = 500%N
  /\ Routes.code
       (@Routes.retryExtraction online_runtime Samples.assets_dir MoreSamples.owner (js "a1")
          (Queue.setupQueue Samples.world0)).1 = 200%N.
Proof.
  split.
  - destruct (retry_route_answers_when_the_job_has_ended offline_runtime Samples.assets_dir
                MoreSamples.owner (js "a1") (Queue.setupQueue Samples.world0)
                Samples.read_article [])
      as (_ & _ & a' & Ha' & [(Hr & Hs & _) | (Hr & _)]).
    + vm_compute. reflexivity.
    + reflexivity.
    + reflexivity.
    + reflexivity.
    + vm_compute in Ha'. injection Ha' as <-. discriminate Hs.
    + rewrite Hr. reflexivity.
  - destruct (retry_route_answers_when_the_job_has_ended online_runtime Samples.assets_dir
                MoreSamples.owner (js "a1") (Queue.setupQueue Samples.world0)
                Samples.read_article [])
      as (_ & _ & a' & Ha' & [(Hr & _) | (Hr & Hs & _)]).
    + vm_compute. reflexivity.
    + reflexivity.
    + reflexivity.
    + reflexivity.
    + rewrite Hr. reflexivity.
    + vm_compute in Ha'. injection Ha' as <-. discriminate Hs.
Defined.

(** ** The names and the files of the image cache *)

Section CacheNames.

Import Shapes.

Lemma hex_digit_hex (x : N) : (x < 16)%N -> hex_char (Md5.hex_digit x) = true.
Proof.
  intros Hx. unfold hex_char, Md5.hex_digit.
  destruct (x <? 10)%N eqn:H.
  - apply N.ltb_lt in H. apply orb_true_iff. left.
    apply andb_true_iff. split; apply N.leb_le; lia.
  - apply N.ltb_ge in H. apply orb_true_iff. right.
    apply andb_true_iff. split; apply N.leb_le; lia.
Qed.

Lemma hex_byte_hex (x : N) :
  (x < 256)%N ->
  length (Md5.hex_byte x) = 2 /\ Forall (fun c => hex_char c = true) (Md5.hex_byte x).
Proof.
  intros Hx. unfold Md5.hex_byte. split; [reflexivity |].
  repeat constructor; apply hex_digit_hex.
  - apply N.Div0.div_lt_upper_bound. lia.
  - apply N.mod_lt. discriminate.
Qed.

Lemma land_255 (x : N) : (N.land x 255 < 256)%N.
Proof.
  change 255%N with (N.ones 8). rewrite N.land_ones. apply N.mod_lt. discriminate.
Qed.

Lemma hex_word_hex (x : N) :
  length (Md5.hex_word x) = 8 /\ Forall (fun c => hex_char c = true) (Md5.hex_word x).
Proof.
  unfold Md5.hex_word, Md5.le_bytes.
  change (seq 0 4) with [0; 1; 2; 3]. cbn [fmap list_fmap mbind list_bind].
  rewrite !length_app. change (length []) with 0.
  repeat match goal with
         | |- context [Md5.hex_byte (N.land ?y 255)] =>
             let H := fresh "Hb" in
             pose proof (hex_byte_hex (N.land y 255) (land_255 y)) as H;
             generalize dependent (Md5.hex_byte (N.land y 255)); intros
         end.
  destruct Hb as [-> H0], Hb0 as [-> H1], Hb1 as [-> H2], Hb2 as [-> H3].
  split; [reflexivity |].
  repeat (apply Forall_app; split); auto.
Qed.

Lemma hex_is_32_digits (s : list N) :
  length (Md5.hex s) = 32 /\ Forall (fun c => hex_char c = true) (Md5.hex s).
Proof.
  unfold Md5.hex, Md5.hex_state.
  destruct (hex_word_hex (Md5.sa (Md5.digest s))) as [La Fa].
  destruct (hex_word_hex (Md5.sb (Md5.digest s))) as [Lb Fb].
  destruct (hex_word_hex (Md5.sc (Md5.digest s))) as [Lc Fc].
  destruct (hex_word_hex (Md5.sd (Md5.digest s))) as [Ld Fd].
  split.
  - rewrite !length_app, La, Lb, Lc, Ld. reflexivity.
  - apply Forall_app; split; [exact Fa |].
    apply Forall_app; split; [exact Fb |].
    apply Forall_app; split; [exact Fc | exact Fd].
Qed.

Lemma localFilename_cache_name (imageUrl : list N) :
  cache_name (ContentExtractor.localFilename imageUrl).
Proof.
  exists (Md5.hex imageUrl). destruct (hex_is_32_digits imageUrl) as [Hl Hf]. auto.
Qed.

End CacheNames.

Section Assets.

Import ContentExtractor Shapes.

Context {R : Runtime} (assetsPath : list N).

Lemma grown_refl (fs : gmap (list N) (list N)) : grown assetsPath fs fs.
Proof. intros p. left. reflexivity. Qed.

Lemma grown_trans (fs1 fs2 fs3 : gmap (list N) (list N)) :
  grown assetsPath fs1 fs2 -> grown assetsPath fs2 fs3 -> grown assetsPath fs1 fs3.
Proof.
  intros H12 H23 p. destruct (H23 p) as [H3 | H3]; [| right; exact H3].
  rewrite H3. apply H12.
Qed.

Lemma grown_keeps (fs fs' : gmap (list N) (list N)) (p : list N) :
  grown assetsPath fs fs' -> is_Some (fs !! p) -> is_Some (fs' !! p).
Proof. intros H Hp. destruct (H p) as [-> | [_ H']]; assumption. Qed.

Lemma downloadAndOptimizeImage_None (imageUrl : list N) (fs fs' : gmap (list N) (list N)) :
  downloadAndOptimizeImage assetsPath imageUrl fs = (None, fs') -> fs' = fs.
Proof.
  unfold downloadAndOptimizeImage.
  destruct (fetch imageUrl) as [response |]; [| congruence].
  destruct (ok response); simpl; [| congruence].
  destruct (body response) as [buffer |]; [| congruence].
  destruct (sharp_webp buffer); congruence.
Qed.

Lemma downloadAndOptimizeImage_grown (imageUrl : list N) (fs : gmap (list N) (list N)) :
  grown assetsPath fs (downloadAndOptimizeImage assetsPath imageUrl fs).2.
Proof.
  destruct (downloadAndOptimizeImage assetsPath imageUrl fs) as [[name |] fs'] eqn:H.
  - pose proof (downloadAndOptimizeImage_name assetsPath _ _ _ _ H) as ->.
    destruct (downloadAndOptimizeImage_stores assetsPath _ _ _ _ H) as [Hs Ho].
    intros p. cbn [snd].
    destruct (decide (p = path_join assetsPath (localFilename imageUrl))) as [-> | Hp].
    + right. split; [| exact Hs].
      exists (localFilename imageUrl). split; [reflexivity |].
      apply localFilename_cache_name.
    + left. apply Ho. exact Hp.
  - apply downloadAndOptimizeImage_None in H as ->. apply grown_refl.
Qed.

Lemma downloadAndOptimizeImage_cached (imageUrl name : list N)
    (fs fs' : gmap (list N) (list N)) :
  downloadAndOptimizeImage assetsPath imageUrl fs = (Some name, fs') ->
  cache_name name /\ is_Some (fs' !! path_join assetsPath name).
Proof.
  intros H. pose proof (downloadAndOptimizeImage_name assetsPath _ _ _ _ H) as ->.
  split; [apply localFilename_cache_name |].
  apply (downloadAndOptimizeImage_stores assetsPath _ _ _ _ H).
Qed.

Lemma extractAndOptimizeImage_grown (document : Document) (baseUrl : option (list N))
    (fs : gmap (list N) (list N)) :
  grown assetsPath fs (extractAndOptimizeImage assetsPath document baseUrl fs).2.
Proof.
  unfold extractAndOptimizeImage.
  match goal with |- context [first_of ?f ?l] => destruct (first_of f l) end.
  - apply downloadAndOptimizeImage_grown.
  - apply grown_refl.
Qed.

Lemma extractAndOptimizeImage_cached (document : Document) (baseUrl : option (list N))
    (fs fs' : gmap (list N) (list N)) (name : list N) :
  extractAndOptimizeImage assetsPath document baseUrl fs = (Some name, fs') ->
  cache_name name /\ is_Some (fs' !! path_join assetsPath name).
Proof.
  unfold extractAndOptimizeImage.
  match goal with |- context [first_of ?f ?l] => destruct (first_of f l) end.
  - apply downloadAndOptimizeImage_cached.
  - discriminate.
Qed.

Lemma processImagesInContent_grown (content : list N) (baseUrl : option (list N))
    (fs : gmap (list N) (list N)) :
  grown assetsPath fs (processImagesInContent assetsPath content baseUrl fs).2.
Proof.
  unfold processImagesInContent.
  generalize (matchAll_img 0 content) as matches. intros matches.
  assert (Hgen : forall processed fs1, grown assetsPath fs fs1 ->
            grown assetsPath fs
              (foldl (fun '(processedContent, assets) '(fullImgTag, src) =>
                        let absoluteUrl := resolveUrl src baseUrl in
                        let '(optimizedPath, assets) :=
                          downloadAndOptimizeImage assetsPath absoluteUrl assets in
                        if truthy optimizedPath then
                          let newImgTag :=
                            replace fullImgTag src
                              (js "/assets/" ++ default [] optimizedPath) in
                          (replace processedContent fullImgTag newImgTag, assets)
                        else (processedContent, assets))
                     (processed, fs1) matches).2).
  { induction matches as [| [tag src] matches IH]; intros processed fs1 H1; [exact H1 |].
    cbn [foldl].
    pose proof (downloadAndOptimizeImage_grown (resolveUrl src baseUrl) fs1) as Hd.
    destruct (downloadAndOptimizeImage assetsPath (resolveUrl src baseUrl) fs1)
      as [optimizedPath fs2].
    cbn [snd] in Hd.
    destruct (truthy optimizedPath); apply IH; eapply grown_trans; eassumption. }
  apply Hgen, grown_refl.
Qed.

Lemma extractFromHtml_grown (html : list N) (baseUrl : option (list N))
    (fs : gmap (list N) (list N)) :
  grown assetsPath fs (extractFromHtml assetsPath html baseUrl fs).2.
Proof.
  unfold extractFromHtml.
  destruct (JSDOM_document html baseUrl) as [document0 |]; [| apply grown_refl].
  destruct (Readability_parse document0) as [[article document] |]; [| apply grown_refl].
  destruct (chooseFields article document baseUrl) as [[[t a] e] c].
  pose proof (extractAndOptimizeImage_grown document baseUrl fs) as H1.
  destruct (extractAndOptimizeImage assetsPath document baseUrl fs) as [img fs1].
  pose proof (processImagesInContent_grown c baseUrl fs1) as H2.
  destruct (processImagesInContent assetsPath c baseUrl fs1) as [pc fs2].
  cbn [snd] in *. eapply grown_trans; eassumption.
Qed.

Lemma extractFromHtml_image_cached (html : list N) (baseUrl : option (list N))
    (fs fs' : gmap (list N) (list N)) (extracted : ExtractedArticle) (name : list N) :
  extractFromHtml assetsPath html baseUrl fs = (Ok extracted, fs') ->
  image extracted = Some name ->
  cache_name name /\ is_Some (fs' !! path_join assetsPath name).
Proof.
  unfold extractFromHtml.
  destruct (JSDOM_document html baseUrl) as [document0 |]; [| discriminate].
  destruct (Readability_parse document0) as [[article document] |]; [| discriminate].
  destruct (chooseFields article document baseUrl) as [[[t a] e] c].
  destruct (extractAndOptimizeImage assetsPath document baseUrl fs) as [img fs1] eqn:Hlead.
  pose proof (processImagesInContent_grown c baseUrl fs1) as H2.
  destruct (processImagesInContent assetsPath c baseUrl fs1) as [pc fs2].
  cbn [snd] in H2. intros [= <- <-]. cbn [image]. intros ->.
  destruct (extractAndOptimizeImage_cached _ _ _ _ _ Hlead) as [Hn Hs].
  split; [exact Hn |]. eapply grown_keeps; eassumption.
Qed.

Lemma extractFromUrl_grown (url : list N) (fs : gmap (list N) (list N)) :
  grown assetsPath fs (extractFromUrl assetsPath url fs).2.
Proof.
  unfold extractFromUrl.
  destruct (fetch url) as [response |]; [| apply grown_refl].
  destruct (ok response); cbn [negb]; [| apply grown_refl].
  destruct (body response) as [html |]; [| apply grown_refl].
  apply extractFromHtml_grown.
Qed.

Lemma extractFromUrl_image_cached (url : list N)
    (fs fs' : gmap (list N) (list N)) (extracted : ExtractedArticle) (name : list N) :
  extractFromUrl assetsPath url fs = (Ok extracted, fs') ->
  image extracted = Some name ->
  cache_name name /\ is_Some (fs' !! path_join assetsPath name).
Proof.
  unfold extractFromUrl.
  destruct (fetch url) as [response |]; [| discriminate].
  destruct (ok response); cbn [negb]; [| discriminate].
  destruct (body response) as [html |]; [| discriminate].
  apply extractFromHtml_image_cached.
Qed.

End Assets.

Section NoImages.

Import ContentExtractor.

Context {R : Runtime} (assetsPath : list N).

Hypothesis no_image :
  forall (u : list N) (response : Response) (buffer : list N),
    fetch u = Ok response -> ok response = true -> body response = Ok buffer ->
    exists e, sharp_webp buffer = Throw e.

Lemma downloadAndOptimizeImage_fails (imageUrl : list N) (fs : gmap (list N) (list N)) :
  downloadAndOptimizeImage assetsPath imageUrl fs = (None, fs).
Proof.
  unfold downloadAndOptimizeImage.
  destruct (fetch imageUrl) as [response |] eqn:Hf; [| reflexivity].
  destruct (ok response) eqn:Hok; cbn [negb]; [| reflexivity].
  destruct (body response) as [buffer |] eqn:Hb; [| reflexivity].
  destruct (no_image imageUrl response buffer Hf Hok Hb) as [e ->]. reflexivity.
Qed.

Lemma extractAndOptimizeImage_fails (document : Document) (baseUrl : option (list N))
    (fs : gmap (list N) (list N)) :
  extractAndOptimizeImage assetsPath document baseUrl fs = (None, fs).
Proof.
  unfold extractAndOptimizeImage.
  match goal with |- context [first_of ?f ?l] => destruct (first_of f l) end.
  - apply downloadAndOptimizeImage_fails.
  - reflexivity.
Qed.

Lemma processImagesInContent_fails (content : list N) (baseUrl : option (list N))
    (fs : gmap (list N) (list N)) :
  processImagesInContent assetsPath content baseUrl fs = (content, fs).
Proof.
  unfold processImagesInContent.
  generalize (matchAll_img 0 content) as matches. intros matches.
  generalize content as processed.
  induction matches as [| [tag src] matches IH]; intros processed; [reflexivity |].
  cbn [foldl]. rewrite downloadAndOptimizeImage_fails. cbn [truthy]. apply IH.
Qed.

End NoImages.

(** ** What an extraction does to the asset directory *)

(** X10. A job writes nothing but files of the image cache: whatever its
    outcome, every path of the asset store holds what it held before, or it
    is a file in the asset directory whose name is 32 lowercase hexadecimal
    digits followed by .webp, and that file exists.  In particular no file
    is removed and nothing is written outside of the asset directory. *)
Theorem handler_writes_cache_files_only :
  forall (R : Runtime) (assetsPath : list N) (job : Queue.JobData) (w : Queue.World)
         (p : list N),
    Queue.assets (Queue.processArticleExtraction assetsPath job w).2 !! p
    = Queue.assets w !! p
    \/ (Shapes.cache_file assetsPath p
        /\ is_Some (Queue.assets (Queue.processArticleExtraction assetsPath job w).2 !! p)).
Proof.
  intros R assetsPath job w p.
  destruct (Queue.articles w !! Queue.articleId job) as [a |] eqn:Ha.
  - pose proof (extractFromUrl_grown assetsPath (Queue.job_url job) (Queue.assets w) p) as Hg.
    destruct (ContentExtractor.extractFromUrl assetsPath (Queue.job_url job) (Queue.assets w))
      as [[extracted | error] fs] eqn:Hx.
    + rewrite (processArticleExtraction_success assetsPath job w a extracted fs Ha Hx).
      exact Hg.
    + rewrite (processArticleExtraction_failure assetsPath job w a error fs Ha Hx).
      exact Hg.
  - rewrite (processArticleExtraction_missing assetsPath job w Ha). left. reflexivity.
Qed.

(** X11. When an extraction finds a lead image, the image field that the
    job writes to the article is the name of a file of the image cache, and
    that file is in the asset directory when the job ends: the later
    downloads of the images of the content do not remove it. *)
Theorem lead_image_of_a_completed_job_is_stored :
  forall (R : Runtime) (assetsPath : list N) (job : Queue.JobData) (w : Queue.World)
         (a : Queue.Article) (extracted : ContentExtractor.ExtractedArticle)
         (fs : gmap (list N) (list N)) (name : list N),
    Queue.articles w !! Queue.articleId job = Some a ->
    ContentExtractor.extractFromUrl assetsPath (Queue.job_url job) (Queue.assets w)
    = (Ok extracted, fs) ->
    ContentExtractor.image extracted = Some name ->
    Queue.image
      <$> Queue.articles (Queue.processArticleExtraction assetsPath job w).2
            !! Queue.articleId job
    = Some (Some name)
    /\ Shapes.cache_name name
    /\ is_Some (Queue.assets (Queue.processArticleExtraction assetsPath job w).2
                  !! ContentExtractor.path_join assetsPath name).
Proof.
  intros R assetsPath job w a extracted fs name Ha Hx Himg.
  rewrite (processArticleExtraction_success assetsPath job w a extracted fs Ha Hx).
  cbn [snd Queue.articles Queue.assets]. rewrite lookup_insert_eq.
  cbn [fmap option_fmap option_map Queue.markCompleted Queue.image]. rewrite Himg.
  split; [reflexivity |].
  apply (extractFromUrl_image_cached assetsPath _ _ _ _ _ Hx Himg).
Qed.

Lemma lead_image_of_a_completed_job_is_stored_witness :
  Queue.image
    <$> Queue.articles
          (@Queue.processArticleExtraction MoreSamples.image_runtime Samples.assets_dir
             Samples.job1 Samples.world0).2 !! js "a1"
  = Some (Some (js "665c01dbafc9a01e32526ff4d73686ff.webp"))
  /\ is_Some
       (Queue.assets
          (@Queue.processArticleExtraction MoreSamples.image_runtime Samples.assets_dir
             Samples.job1 Samples.world0).2
        !! js "/data/assets/665c01dbafc9a01e32526ff4d73686ff.webp").
Proof.
  edestruct (lead_image_of_a_completed_job_is_stored MoreSamples.image_runtime
               Samples.assets_dir Samples.job1 Samples.world0 Samples.read_article)
    as (Hrow & _ & Hfile).
  - vm_compute. reflexivity.
  - vm_compute. reflexivity.
  - reflexivity.
  - split; [exact Hrow | exact Hfile].
Defined.

(** X12. Images never fail an extraction.  When no image can be downloaded
    and converted (every request for one fails, or the encoder rejects what
    arrives), extractFromHtml still returns an article: without a lead
    image, with the content as Readability or the fallback gave it, the
    sources of its image tags unchanged, and with no file written. *)
Theorem extraction_survives_failing_images :
  forall (R : Runtime) (assetsPath html : list N) (baseUrl : option (list N))
         (fs : gmap (list N) (list N)) (document0 document : Document)
         (article : option ReadabilityArticle),
    (forall (u : list N) (response : Response) (buffer : list N),
        fetch u = Ok response -> ok response = true -> body response = Ok buffer ->
        exists e, sharp_webp buffer = Throw e) ->
    JSDOM_document html baseUrl = Ok document0 ->
    Readability_parse document0 = Ok (article, document) ->
    exists extracted : ContentExtractor.ExtractedArticle,
      ContentExtractor.extractFromHtml assetsPath html baseUrl fs = (Ok extracted, fs)
      /\ ContentExtractor.image extracted = None
      /\ ContentExtractor.content extracted
         = match article with
           | Some a => default [] (r_content a)
           | None =>
               ContentExtractor.createFallbackContent
                 (ContentExtractor.extractTitle document)
                 (ContentExtractor.extractDescription document) baseUrl
           end.
Proof.
  intros R assetsPath html baseUrl fs document0 document article Hno Hdom Hread.
  unfold ContentExtractor.extractFromHtml. rewrite Hdom, Hread.
  destruct (ContentExtractor.chooseFields article document baseUrl) as [[[t a] e] c] eqn:Hc.
  rewrite (extractAndOptimizeImage_fails assetsPath Hno).
  rewrite (processImagesInContent_fails assetsPath Hno).
  eexists. split; [reflexivity |]. cbn [ContentExtractor.image ContentExtractor.content].
  split; [reflexivity |].
  unfold ContentExtractor.chooseFields in Hc. destruct article as [r |].
  - injection Hc as _ _ _ <-. unfold or_else.
    destruct (r_content r) as [[| x s] |]; reflexivity.
  - injection Hc as _ _ _ <-. reflexivity.
Qed.

Lemma extraction_survives_failing_images_witness :
  exists extracted : ContentExtractor.ExtractedArticle,
    @ContentExtractor.extractFromHtml MoreSamples.no_image_runtime Samples.assets_dir
      sample_page (Some (js "https://blog.example/post")) ∅
    = (Ok extracted, ∅)
    /\ ContentExtractor.image extracted = None
    /\ ContentExtractor.content extracted
       = jsq "<p>Look: <img src='https://cdn.example/a.png'> here</p>"
    /\ ContentExtractor.matchAll_img 0 (ContentExtractor.content extracted)
       = [(jsq "<img src='https://cdn.example/a.png'>", js "https://cdn.example/a.png")]
    /\ MoreSamples.image_document (jsq "[property='og:image']") <> None.
Proof.
  destruct (extraction_survives_failing_images MoreSamples.no_image_runtime
              Samples.assets_dir sample_page (Some (js "https://blog.example/post")) ∅
              MoreSamples.image_document MoreSamples.image_document
              (Some MoreSamples.illustrated_article))
    as (extracted & Hrun & Himg & Hcontent).
  - intros u response buffer Hf. discriminate Hf.
  - reflexivity.
  - reflexivity.
  - exists extracted. split; [exact Hrun |]. split; [exact Himg |].
    rewrite Hcontent. split; [reflexivity |]. split; [vm_compute; reflexivity |].
    discriminate.
Defined.

(** ** [sanitizeHtml] and the texts made with it *)

Section WhiteSpace.

Import ContentExtractor Shapes.

Lemma trimStart_split (s : list N) :
  exists l, s = l ++ trimStart s /\ Forall (fun c => isWhiteSpace c = true) l.
Proof.
  induction s as [| c s (l & Hl & Hws)]; [exists []; split; [reflexivity | constructor] |].
  cbn [trimStart]. destruct (isWhiteSpace c) eqn:Hc.
  - exists (c :: l). split; [cbn [app]; congruence | constructor; assumption].
  - exists []. split; [reflexivity | constructor].
Qed.

Lemma trimStart_head (s : list N) (c : N) (r : list N) :
  trimStart s = c :: r -> isWhiteSpace c = false.
Proof.
  induction s as [| x s IH]; cbn [trimStart]; [discriminate |].
  destruct (isWhiteSpace x) eqn:Hx; [exact IH |]. intros [= <- _]. exact Hx.
Qed.

Lemma trimEnd_split (s : list N) :
  exists r, s = trimEnd s ++ r /\ Forall (fun c => isWhiteSpace c = true) r.
Proof.
  unfold trimEnd. destruct (trimStart_split (reverse s)) as (l & Hl & Hws).
  exists (reverse l). split.
  - rewrite <- reverse_app, <- Hl, reverse_involutive. reflexivity.
  - apply Forall_reverse. exact Hws.
Qed.

Lemma trimEnd_last (s r : list N) (c : N) :
  trimEnd s = r ++ [c] -> isWhiteSpace c = false.
Proof.
  unfold trimEnd. intros H.
  apply (f_equal reverse) in H. rewrite reverse_involutive, reverse_app in H.
  change (reverse [c]) with [c] in H. cbn [app] in H.
  eapply trimStart_head. exact H.
Qed.

Lemma trimStart_blank (s : list N) :
  Forall (fun c => isWhiteSpace c = true) s -> trimStart s = [].
Proof.
  induction 1 as [| c s Hc _ IH]; [reflexivity |]. cbn [trimStart]. rewrite Hc. exact IH.
Qed.

Lemma trim_blank (s : list N) :
  Forall (fun c => isWhiteSpace c = true) s -> trim s = [].
Proof. intros H. unfold trim. rewrite (trimStart_blank s H). reflexivity. Qed.

Lemma trim_split (s : list N) :
  exists l r, s = l ++ trim s ++ r.
Proof.
  destruct (trimStart_split s) as (l & Hl & _).
  destruct (trimEnd_split (trimStart s)) as (r & Hr & _).
  exists l, r. unfold trim. rewrite <- Hr. exact Hl.
Qed.

Lemma trim_head (s : list N) (c : N) (r : list N) :
  trim s = c :: r -> isWhiteSpace c = false.
Proof.
  unfold trim. intros H.
  destruct (trimEnd_split (trimStart s)) as (t & Ht & _).
  rewrite H in Ht. cbn [app] in Ht. eapply trimStart_head. exact Ht.
Qed.

Lemma trim_last (s r : list N) (c : N) :
  trim s = r ++ [c] -> isWhiteSpace c = false.
Proof. unfold trim. apply trimEnd_last. Qed.

Lemma collapse_spaces_head (s : list N) (c : N) (r : list N) :
  collapse_spaces true s = c :: r -> isWhiteSpace c = false.
Proof.
  induction s as [| x s IH]; cbn [collapse_spaces]; [discriminate |].
  destruct (isWhiteSpace x) eqn:Hx; [exact IH |]. intros [= <- _]. exact Hx.
Qed.

Lemma collapse_spaces_only (inws : bool) (s : list N) :
  Forall (fun c => isWhiteSpace c = true -> c = ch " ") (collapse_spaces inws s).
Proof.
  revert inws. induction s as [| x s IH]; intros inws; cbn [collapse_spaces];
    [constructor |].
  destruct (isWhiteSpace x) eqn:Hx.
  - destruct inws; [apply IH |]. constructor; [reflexivity | apply IH].
  - constructor; [congruence | apply IH].
Qed.

Lemma collapse_spaces_single (inws : bool) (s u v : list N) (a b : N) :
  collapse_spaces inws s = u ++ a :: b :: v ->
  isWhiteSpace a = true -> isWhiteSpace b = false.
Proof.
  revert inws u. induction s as [| x s IH]; intros inws u; cbn [collapse_spaces].
  - destruct u; discriminate.
  - destruct (isWhiteSpace x) eqn:Hx.
    + destruct inws; [apply IH |].
      destruct u as [| y u]; cbn [app].
      * intros [= <- H] _. eapply collapse_spaces_head. exact H.
      * intros [= _ H]. eapply IH. exact H.
    + destruct u as [| y u]; cbn [app].
      * intros [= <- _]. congruence.
      * intros [= _ H]. eapply IH. exact H.
Qed.

Lemma sanitizeHtml_normalized (html : list N) : normalized (sanitizeHtml html).
Proof.
  unfold sanitizeHtml. destruct html as [| h html'].
  - repeat split; try constructor; intros; try discriminate.
    + destruct r; discriminate.
    + destruct u; discriminate.
  - match goal with |- normalized (trim (collapse_spaces false ?x)) =>
      generalize x end.
    intros t. destruct (trim_split (collapse_spaces false t)) as (l & r & Hsplit).
    split; [apply trim_head |]. split; [apply trim_last |]. split.
    + pose proof (collapse_spaces_only false t) as H. rewrite Hsplit in H.
      apply Forall_app in H as [_ H]. apply Forall_app in H as [H _]. exact H.
    + intros u a b v Hu. apply (collapse_spaces_single false t (l ++ u) (v ++ r)).
      rewrite Hsplit, Hu. rewrite <- !app_assoc. reflexivity.
Qed.

End WhiteSpace.

(** X13. The text that sanitizeHtml returns has its white space normalized,
    whatever the input: it neither begins nor ends with white space, the only
    white space in it is the space, and no two spaces follow each other. *)
Theorem sanitizeHtml_normalizes_white_space :
  forall html : list N,
    let text := ContentExtractor.sanitizeHtml html in
    (forall c r, text = c :: r -> isWhiteSpace c = false)
    /\ (forall r c, text = r ++ [c] -> isWhiteSpace c = false)
    /\ Forall (fun c => isWhiteSpace c = true -> c = ch " ") text
    /\ (forall u a b v, text = u ++ a :: b :: v ->
          isWhiteSpace a = true -> isWhiteSpace b = false).
Proof. intros html. apply sanitizeHtml_normalized. Qed.

(** X14. The excerpt made of a content is undefined exactly when the content
    has no text.  Otherwise it is not empty, does not begin with white space
    and has at most 203 code units: the text itself when that has at most
    200, and its first 200 code units followed by three dots when it is
    longer. *)
Theorem excerpt_is_bounded :
  forall content : list N,
    match ContentExtractor.extractExcerpt content with
    | None => ContentExtractor.sanitizeHtml content = []
    | Some excerpt =>
        0 < length excerpt <= 203
        /\ (forall c r, excerpt = c :: r -> isWhiteSpace c = false)
        /\ (if decide (length (ContentExtractor.sanitizeHtml content) <= 200)
            then excerpt = ContentExtractor.sanitizeHtml content
            else excerpt = take 200 (ContentExtractor.sanitizeHtml content) ++ js "...")
    end.
Proof.
  intros content. unfold ContentExtractor.extractExcerpt.
  destruct (sanitizeHtml_normalized content) as (Hhead & _).
  destruct (200 <? length (ContentExtractor.sanitizeHtml content)) eqn:Hlen.
  - apply Nat.ltb_lt in Hlen. split; [| split].
    + rewrite length_app, length_take. cbn [length js]. simpl length. lia.
    + intros c r Hc. destruct (ContentExtractor.sanitizeHtml content) as [| x t] eqn:Ht;
        [cbn in Hlen; lia |].
      cbn [take app] in Hc. injection Hc as <- _. eapply Hhead. reflexivity.
    + destruct (decide _); [lia | reflexivity].
  - apply Nat.ltb_ge in Hlen.
    destruct (ContentExtractor.sanitizeHtml content) as [| x t] eqn:Ht; [reflexivity |].
    split; [cbn [length] in *; lia |]. split; [exact Hhead |].
    destruct (decide _); [reflexivity | lia].
Qed.

(** X15. The word count is never zero: a text of white space only, the
    empty text among them, counts as one word, so that an article without
    text is given a reading time of one minute. *)
Theorem blank_text_counts_as_one_word :
  forall text : list N,
    1 <= ContentExtractor.countWords text
    /\ (Forall (fun c => isWhiteSpace c = true) text ->
        ContentExtractor.countWords text = 1
        /\ ContentExtractor.readingTime_of (ContentExtractor.countWords text) = 1).
Proof.
  intros text. split; [apply countWords_positive |].
  intros H. unfold ContentExtractor.countWords. rewrite (trim_blank text H).
  split; reflexivity.
Qed.

Lemma blank_text_counts_as_one_word_witness :
  ContentExtractor.countWords [] = 1 /\ ContentExtractor.countWords (js "   ") = 1.
Proof.
  split.
  - apply (blank_text_counts_as_one_word []). constructor.
  - apply (blank_text_counts_as_one_word (js "   ")). repeat constructor.
Defined.

(** ** Metadata *)

Section Metadata.

Import ContentExtractor.

Lemma nonblank_Some (o : option (list N)) (t : list N) :
  nonblank o = Some t -> t <> [] /\ exists s, o = Some s /\ t = trim s.
Proof.
  unfold nonblank. destruct o as [s |]; [| discriminate].
  destruct (trim s) as [| c r] eqn:Ht; [discriminate |].
  intros [= <-]. split; [discriminate |]. exists s. rewrite Ht. split; reflexivity.
Qed.

Lemma first_of_Some {A B : Type} (f : A -> option B) (l : list A) (y : B) :
  first_of f l = Some y -> exists x, x ∈ l /\ f x = Some y.
Proof.
  induction l as [| x l IH]; cbn [first_of]; [discriminate |].
  destruct (f x) as [y' |] eqn:Hx.
  - intros [= <-]. exists x. split; [apply list_elem_of_here | exact Hx].
  - intros H. destruct (IH H) as (x' & Hin & Hx'). exists x'.
    split; [apply list_elem_of_further; exact Hin | exact Hx'].
Qed.

Lemma extractTitle_trimmed (document : Document) :
  extractTitle document <> []
  /\ (forall c r, extractTitle document = c :: r -> isWhiteSpace c = false)
  /\ (forall r c, extractTitle document = r ++ [c] -> isWhiteSpace c = false).
Proof.
  unfold extractTitle.
  match goal with |- context [first_of ?f ?l] => destruct (first_of f l) as [t |] eqn:Hf end.
  - apply first_of_Some in Hf as (selector & _ & Hsel).
    destruct (document selector) as [element |]; [| discriminate].
    apply nonblank_Some in Hsel as (Hne & s & _ & ->).
    change (default (js "Untitled Article") (Some (trim s))) with (trim s).
    split; [exact Hne |]. split; [apply trim_head | apply trim_last].
  - change (default (js "Untitled Article") None) with (js "Untitled Article").
    split; [discriminate |]. split.
    + intros c r [= <- _]. reflexivity.
    + intros r c H.
      change (js "Untitled Article") with (js "Untitled Articl" ++ [ch "e"]) in H.
      apply app_inj_tail in H as [_ <-]. reflexivity.
Qed.

Context {R : Runtime}.

Lemma chooseFields_title (article : option ReadabilityArticle) (document : Document)
    (baseUrl : option (list N)) :
  (chooseFields article document baseUrl).1.1.1 <> [].
Proof.
  unfold chooseFields. destruct article as [a |]; cbn [fst].
  - destruct (r_title a) as [[| c t] |]; cbn [truthy default];
      try apply extractTitle_trimmed. discriminate.
  - apply extractTitle_trimmed.
Qed.

End Metadata.

(** X16. Every article that extractFromHtml returns has a title that is
    not empty: the title of Readability, or that of the first element of the
    document that has one, or Untitled Article.  A title that extractTitle
    finds has no white space at either end. *)
Theorem extracted_title_is_not_empty :
  forall (R : Runtime) (assetsPath html : list N) (baseUrl : option (list N))
         (fs fs' : gmap (list N) (list N))
         (extracted : ContentExtractor.ExtractedArticle),
    ContentExtractor.extractFromHtml assetsPath html baseUrl fs = (Ok extracted, fs') ->
    ContentExtractor.title extracted <> []
    /\ forall document : Document,
         ContentExtractor.extractTitle document <> []
         /\ (forall c r, ContentExtractor.extractTitle document = c :: r ->
               isWhiteSpace c = false)
         /\ (forall r c, ContentExtractor.extractTitle document = r ++ [c] ->
               isWhiteSpace c = false).
Proof.
  intros R assetsPath html baseUrl fs fs' extracted H.
  split; [| apply extractTitle_trimmed].
  apply extractFromHtml_Ok in H as (document0 & article & document & _ & _ & ->).
  cbn [ContentExtractor.assembled ContentExtractor.title]. apply chooseFields_title.
Qed.

Lemma extracted_title_is_not_empty_witness :
  exists extracted : ContentExtractor.ExtractedArticle,
    (@ContentExtractor.extractFromHtml online_runtime Samples.assets_dir sample_page
       None ∅).1 = Ok extracted
    /\ ContentExtractor.title extracted <> [].
Proof.
  eexists. split.
  - vm_compute. reflexivity.
  - eapply (extracted_title_is_not_empty online_runtime Samples.assets_dir sample_page
              None ∅).
    vm_compute. reflexivity.
Defined.

(** X17. The lead image is decided by the first element that names one.
    When the document has an Open Graph image and its download fails, the
    article has no lead image and no file is written, whatever other images
    the document has: the later selectors are not tried, because
    downloadAndOptimizeImage returns undefined where the loop expects it to
    throw. *)
Theorem failed_lead_image_is_not_replaced :
  forall (R : Runtime) (assetsPath : list N) (document : Document)
         (baseUrl : option (list N)) (fs : gmap (list N) (list N))
         (element : Element) (src : list N) (error : thrown),
    document (jsq "[property='og:image']") = Some element ->
    getAttribute element (js "content") = Some src ->
    src <> [] ->
    fetch (ContentExtractor.resolveUrl src baseUrl) = Throw error ->
    ContentExtractor.extractAndOptimizeImage assetsPath document baseUrl fs = (None, fs).
Proof.
  intros R assetsPath document baseUrl fs element src error Hdoc Hattr Hsrc Hfetch.
  unfold ContentExtractor.extractAndOptimizeImage. cbn [ContentExtractor.first_of].
  rewrite Hdoc, Hattr. unfold or_else.
  destruct src as [| c src]; [congruence |]. cbn [truthy default].
  change (id (c :: src)) with (c :: src).
  unfold ContentExtractor.downloadAndOptimizeImage. rewrite Hfetch. reflexivity.
Qed.

Lemma failed_lead_image_is_not_replaced_witness :
  @ContentExtractor.extractAndOptimizeImage offline_runtime Samples.assets_dir
    (fun selector =>
       if bool_decide (selector = js "img") then
         Some {| getAttribute := fun name =>
                   if bool_decide (name = js "src")
                   then Some (js "https://cdn.example/a.png") else None;
                 textContent := [] |}
       else MoreSamples.image_document selector)
    None ∅
  = (None, ∅).
Proof.
  eapply (failed_lead_image_is_not_replaced offline_runtime).
  - reflexivity.
  - reflexivity.
  - discriminate.
  - reflexivity.
Defined.

(** X18. The domain shown in the fallback document is the host name without
    its first www. wherever that stands: a leading www. is removed, and so
    is one in the middle of the name when no w precedes it. *)
Theorem extractDomain_removes_the_first_www :
  forall (R : Runtime) (url : list N) (u : URL) (before after : list N),
    URL_new url None = Some u ->
    hostname u = before ++ js "www." ++ after ->
    Forall (fun c => c <> ch "w") before ->
    ContentExtractor.extractDomain url = before ++ after.
Proof.
  intros R url u before after Hu Hhost Hw.
  unfold ContentExtractor.extractDomain. rewrite Hu, Hhost.
  assert (Hi : indexOf (before ++ js "www." ++ after) (js "www.") = Some (length before)).
  { clear Hhost. induction Hw as [| c before Hc _ IH].
    - cbn [app length indexOf].
      change (js "www." ++ after) with (ch "w" :: (js "ww." ++ after)).
      cbn [indexOf].
      assert (Hs : startsWith (ch "w" :: js "ww." ++ after) (js "www.") = true).
      { unfold startsWith. apply bool_decide_eq_true. exists after. reflexivity. }
      rewrite Hs. reflexivity.
    - cbn [app length indexOf].
      assert (Hs : startsWith (c :: before ++ js "www." ++ after) (js "www.") = false).
      { unfold startsWith. apply bool_decide_eq_false. intros [k Hk].
        change (js "www." ++ k) with (ch "w" :: (js "ww." ++ k)) in Hk.
        apply cons_eq_inv in Hk as [Hk _]. congruence. }
      rewrite Hs, IH. reflexivity. }
  unfold replace. rewrite Hi. cbn [substitution app].
  rewrite take_app_length.
  rewrite (app_assoc before (js "www.") after).
  replace (length before + length (js "www.")) with (length (before ++ js "www."))
    by (rewrite length_app; reflexivity).
  rewrite drop_app_length. reflexivity.
Qed.

Lemma extractDomain_removes_the_first_www_witness :
  @ContentExtractor.extractDomain offline_runtime (js "https://www.youtube.com/watch?v=abc")
  = js "youtube.com"
  /\ @ContentExtractor.extractDomain offline_runtime (js "https://blog.www.example.com/")
     = js "blog.example.com".
Proof.
  split.
  - eapply (extractDomain_removes_the_first_www offline_runtime
              (js "https://www.youtube.com/watch?v=abc") _ [] (js "youtube.com")).
    + vm_compute. reflexivity.
    + reflexivity.
    + constructor.
  - eapply (extractDomain_removes_the_first_www offline_runtime
              (js "https://blog.www.example.com/") _ (js "blog.") (js "example.com")).
    + vm_compute. reflexivity.
    + reflexivity.
    + repeat constructor; discriminate.
Defined.

(** ** What [sanitizeHtml] removes, and what it does not *)

Section Tags.

Import ContentExtractor Shapes.

Lemma strip_tags_elem (inside : bool) (s : list N) (x : N) :
  x ∈ strip_tags inside s -> x ∈ s.
Proof.
  revert inside. induction s as [| c s IH]; intros inside; cbn [strip_tags]; [auto |].
  destruct inside.
  - intros H. apply list_elem_of_further. eapply IH. exact H.
  - destruct ((c =? ch "<")%N && existsb (N.eqb (ch ">")) s).
    + intros H. apply list_elem_of_further. eapply IH. exact H.
    + intros H. apply elem_of_cons in H as [-> | H]; [apply list_elem_of_here |].
      apply list_elem_of_further. eapply IH. exact H.
Qed.

Lemma existsb_gt (s : list N) : existsb (N.eqb (ch ">")) s = false -> ch ">" ∉ s.
Proof.
  intros H Hin. apply not_true_iff_false in H. apply H.
  apply existsb_exists. exists (ch ">"). split; [| apply N.eqb_refl].
  apply list_elem_of_In. exact Hin.
Qed.

Lemma tagless_cons (c : N) (s : list N) :
  (c = ch "<" -> ch ">" ∉ s) -> tagless s -> tagless (c :: s).
Proof.
  intros Hc Hs u v Hu. destruct u as [| y u]; cbn [app] in Hu.
  - apply cons_eq_inv in Hu as [-> ->]. apply Hc. reflexivity.
  - apply cons_eq_inv in Hu as [_ ->]. eapply Hs. reflexivity.
Qed.

Lemma tagless_inv (c : N) (s : list N) :
  tagless (c :: s) -> (c = ch "<" -> ch ">" ∉ s) /\ tagless s.
Proof.
  intros H. split.
  - intros ->. apply (H [] s). reflexivity.
  - intros u v ->. apply (H (c :: u) v). reflexivity.
Qed.

Lemma tagless_middle (l m r : list N) : tagless (l ++ m ++ r) -> tagless m.
Proof.
  intros H u v ->. intros Hin. apply (H (l ++ u) (v ++ r)).
  - rewrite <- !app_assoc. reflexivity.
  - apply elem_of_app. left. exact Hin.
Qed.

Lemma strip_tags_tagless (inside : bool) (s : list N) : tagless (strip_tags inside s).
Proof.
  revert inside. induction s as [| c s IH]; intros inside; cbn [strip_tags].
  - intros u v H. destruct u; discriminate.
  - destruct inside; [apply IH |].
    destruct ((c =? ch "<")%N && existsb (N.eqb (ch ">")) s) eqn:Hc; [apply IH |].
    apply tagless_cons; [| apply IH].
    intros ->. rewrite N.eqb_refl in Hc. cbn [andb] in Hc.
    intros Hin. apply strip_tags_elem in Hin. revert Hin. apply existsb_gt. exact Hc.
Qed.

Lemma lower_char_amp (c : N) : c <> ch "&" -> lower_char c <> ch "&".
Proof.
  change (ch "&") with 38%N. unfold lower_char.
  destruct ((65 <=? c) && (c <=? 90))%N eqn:H; [| auto].
  apply andb_true_iff in H as [H _]. apply N.leb_le in H. lia.
Qed.

Lemma startsWith_ci_amp (c : N) (s e : list N) :
  c <> ch "&" -> startsWith_ci (c :: s) (ch "&" :: e) = false.
Proof.
  intros Hc. cbn [startsWith_ci]. apply andb_false_iff. left.
  apply N.eqb_neq. change (lower_char (ch "&")) with (ch "&").
  intros H. symmetry in H. revert H. apply lower_char_amp. exact Hc.
Qed.

Lemma replace_all_ci_block (e r block t : list N) :
  ch "&" ∉ block ->
  replace_all_ci (ch "&" :: e) r 0 (block ++ t)
  = block ++ replace_all_ci (ch "&" :: e) r 0 t.
Proof.
  induction block as [| c block IH]; intros H; [reflexivity |].
  apply not_elem_of_cons in H as [Hc H].
  cbn [app replace_all_ci]. rewrite startsWith_ci_amp by congruence.
  rewrite IH by exact H. reflexivity.
Qed.

Lemma replace_all_ci_plain (e r s : list N) :
  ch "&" ∉ s -> replace_all_ci (ch "&" :: e) r 0 s = s.
Proof.
  intros H. rewrite <- (app_nil_r s) at 1. rewrite replace_all_ci_block by exact H.
  cbn [replace_all_ci]. apply app_nil_r.
Qed.

Lemma entities_plain (entities : list (list N * list N)) (s : list N) :
  Forall (fun p => exists e, p.1 = ch "&" :: e) entities ->
  ch "&" ∉ s ->
  foldl (fun sanitized '(entity, replacement) =>
           replace_all_ci entity replacement 0 sanitized) s entities = s.
Proof.
  intros Hall Hs. induction Hall as [| [entity replacement] entities [e He] _ IH];
    [reflexivity |].
  cbn [foldl]. cbn [fst] in He. rewrite He, replace_all_ci_plain by exact Hs. exact IH.
Qed.

Lemma htmlEntities_amp :
  Forall (fun p => exists e, p.1 = ch "&" :: e) htmlEntities.
Proof. unfold htmlEntities. repeat constructor; eexists; reflexivity. Qed.

Lemma strip_entities_plain (s : list N) : ch "&" ∉ s -> strip_entities 0 s = s.
Proof.
  induction s as [| c s IH]; intros H; [reflexivity |].
  apply not_elem_of_cons in H as [Hc H].
  assert (Hc' : (c =? ch "&")%N = false) by (apply N.eqb_neq; congruence).
  cbn [strip_entities entity_here]. rewrite Hc', IH by exact H. reflexivity.
Qed.

Lemma collapse_spaces_elem (inws : bool) (s : list N) (x : N) :
  x ∈ collapse_spaces inws s -> x ∈ s \/ x = ch " ".
Proof.
  revert inws. induction s as [| c s IH]; intros inws; cbn [collapse_spaces].
  - intros H. apply elem_of_nil in H. contradiction.
  - destruct (isWhiteSpace c).
    + destruct inws.
      * intros H. destruct (IH _ H) as [H' | H']; [left; apply list_elem_of_further |];
          auto.
      * intros H. apply elem_of_cons in H as [-> | H]; [right; reflexivity |].
        destruct (IH _ H) as [H' | H']; [left; apply list_elem_of_further |]; auto.
    + intros H. apply elem_of_cons in H as [-> | H]; [left; apply list_elem_of_here |].
      destruct (IH _ H) as [H' | H']; [left; apply list_elem_of_further |]; auto.
Qed.

Lemma collapse_spaces_tagless (inws : bool) (s : list N) :
  tagless s -> tagless (collapse_spaces inws s).
Proof.
  revert inws. induction s as [| c s IH]; intros inws Hs; cbn [collapse_spaces];
    [exact Hs |].
  apply tagless_inv in Hs as [Hc Hs].
  destruct (isWhiteSpace c) eqn:Hws.
  - destruct inws; [apply IH; exact Hs |].
    apply tagless_cons; [| apply IH; exact Hs]. intros H. discriminate H.
  - apply tagless_cons; [| apply IH; exact Hs].
    intros Hlt Hin. apply collapse_spaces_elem in Hin as [Hin | Hin].
    + revert Hin. apply Hc. exact Hlt.
    + discriminate Hin.
Qed.

Lemma sanitizeHtml_tagless (html : list N) :
  ch "&" ∉ html -> tagless (sanitizeHtml html).
Proof.
  intros Hamp. unfold sanitizeHtml. destruct html as [| h html'].
  - intros u v H. destruct u; discriminate.
  - assert (Hs : ch "&" ∉ strip_tags false (h :: html')).
    { intros Hin. apply Hamp. eapply strip_tags_elem. exact Hin. }
    rewrite (entities_plain _ _ htmlEntities_amp Hs).
    rewrite (strip_entities_plain _ Hs).
    destruct (trim_split (collapse_spaces false (strip_tags false (h :: html'))))
      as (l & r & Hsplit).
    apply (tagless_middle l _ r). rewrite <- Hsplit.
    apply collapse_spaces_tagless, strip_tags_tagless.
Qed.

End Tags.

(** X19. On an input without ampersand, sanitizeHtml removes every tag: its
    result has no opening angle bracket with a closing one anywhere after
    it, so that nothing in it reads as a tag. *)
Theorem sanitizeHtml_removes_tags :
  forall html : list N,
    ch "&" ∉ html ->
    forall u v : list N,
      ContentExtractor.sanitizeHtml html = u ++ ch "<" :: v -> ch ">" ∉ v.
Proof. intros html H. apply sanitizeHtml_tagless. exact H. Qed.

Lemma sanitizeHtml_removes_tags_witness :
  ContentExtractor.sanitizeHtml (jsq "<b class='a'>so</b> 1 < 2") = js "so 1 < 2"
  /\ ch ">" ∉ js " 2".
Proof.
  split; [vm_compute; reflexivity |].
  apply (sanitizeHtml_removes_tags (jsq "<b class='a'>so</b> 1 < 2")) with (u := js "so 1 ").
  - apply (bool_decide_unpack _). vm_compute. exact I.
  - vm_compute. reflexivity.
Defined.

Section EscapedTags.

Import ContentExtractor Shapes.

Lemma alnum_plain (c : N) :
  alnum c = true ->
  c <> ch "&" /\ c <> ch "<" /\ c <> ch ">" /\ isWhiteSpace c = false.
Proof.
  unfold alnum, isWhiteSpace.
  change (ch "&") with 38%N. change (ch "<") with 60%N. change (ch ">") with 62%N.
  intros H.
  repeat match type of H with
         | (_ || _)%bool = true => apply orb_true_iff in H as [H | H]
         end;
    apply andb_true_iff in H as [H1 H2]; apply N.leb_le in H1, H2;
    (split; [lia |]; split; [lia |]; split; [lia |]);
    repeat match goal with
           | |- (_ || _)%bool = false => apply orb_false_iff; split
           | |- (_ && _)%bool = false => apply andb_false_iff
           end;
    try (apply N.eqb_neq; lia);
    try (left; apply N.leb_gt; lia);
    try (right; apply N.leb_gt; lia).
Qed.

Lemma alnum_no_amp (w : list N) :
  Forall (fun c => alnum c = true) w -> ch "&" ∉ w.
Proof.
  induction 1 as [| c w Hc _ IH]; [apply not_elem_of_nil |].
  apply not_elem_of_cons. split; [| exact IH].
  destruct (alnum_plain c Hc) as [H _]. congruence.
Qed.

Lemma strip_tags_plain (s : list N) : ch "<" ∉ s -> strip_tags false s = s.
Proof.
  induction s as [| c s IH]; intros H; [reflexivity |].
  apply not_elem_of_cons in H as [Hc H].
  assert (Hc' : (c =? ch "<")%N = false) by (apply N.eqb_neq; congruence).
  cbn [strip_tags]. rewrite Hc'. cbn [andb]. rewrite IH by exact H. reflexivity.
Qed.

Lemma collapse_spaces_plain (s : list N) :
  Forall (fun c => isWhiteSpace c = false) s -> collapse_spaces false s = s.
Proof.
  induction 1 as [| c s Hc _ IH]; [reflexivity |].
  cbn [collapse_spaces]. rewrite Hc, IH. reflexivity.
Qed.

Lemma trim_plain (s : list N) :
  Forall (fun c => isWhiteSpace c = false) s -> trim s = s.
Proof.
  intros H. destruct s as [| c s]; [reflexivity |].
  unfold trim. apply Forall_cons in H as [Hc H].
  rewrite (trimStart_nonspace c s Hc).
  destruct (snoc_or_nil (c :: s)) as [Hnil | (s' & x & Hs')]; [discriminate |].
  rewrite Hs'. apply trimEnd_nonspace.
  assert (Hall : Forall (fun c => isWhiteSpace c = false) (c :: s))
    by (constructor; assumption).
  rewrite Hs' in Hall. apply Forall_app in Hall as [_ Hx].
  apply Forall_cons in Hx as [Hx _]. exact Hx.
Qed.

Lemma escaped_tag_decoded (w : list N) :
  Forall (fun c => alnum c = true) w ->
  sanitizeHtml (js "&lt;" ++ w ++ js "&gt;") = js "<" ++ w ++ js ">".
Proof.
  intros Hw.
  assert (Hamp : ch "&" ∉ w) by (apply alnum_no_amp; exact Hw).
  assert (Hlt : ch "<" ∉ js "&lt;" ++ w ++ js "&gt;").
  { intros Hin. apply elem_of_app in Hin as [Hin | Hin].
    - revert Hin. apply (bool_decide_unpack _). vm_compute. exact I.
    - apply elem_of_app in Hin as [Hin | Hin].
      + apply list_elem_of_In in Hin.
        rewrite Forall_forall in Hw. rewrite <- list_elem_of_In in Hin.
        destruct (alnum_plain _ (Hw _ Hin)) as (_ & H & _). congruence.
      + revert Hin. apply (bool_decide_unpack _). vm_compute. exact I. }
  unfold sanitizeHtml.
  change (js "&lt;" ++ w ++ js "&gt;")
    with (ch "&" :: ch "l" :: ch "t" :: ch ";" :: w ++ js "&gt;") in *.
  rewrite (strip_tags_plain _ Hlt).
  assert (Hsplit : htmlEntities
                   = [(js "&amp;", js "&"); (js "&lt;", js "<"); (js "&gt;", js ">")]
                     ++ drop 3 htmlEntities) by reflexivity.
  rewrite Hsplit, foldl_app. cbn [foldl].
  assert (H1 : replace_all_ci (js "&amp;") (js "&") 0
                 (ch "&" :: ch "l" :: ch "t" :: ch ";" :: w ++ js "&gt;")
               = ch "&" :: ch "l" :: ch "t" :: ch ";" :: w ++ js "&gt;").
  { change (js "&amp;") with (ch "&" :: js "amp;").
    cbn [replace_all_ci].
    change (startsWith_ci (ch "&" :: ch "l" :: ch "t" :: ch ";" :: w ++ js "&gt;")
              (ch "&" :: js "amp;")) with false. cbv iota.
    do 3 f_equal.
    change (ch "l" :: ch "t" :: ch ";" :: w ++ js "&gt;")
      with ((ch "l" :: ch "t" :: ch ";" :: w) ++ js "&gt;").
    change (replace_all_ci (ch "&" :: js "amp;") (js "&") 0
              (ch "l" :: ch "t" :: ch ";" :: w ++ js "&gt;"))
      with (replace_all_ci (ch "&" :: js "amp;") (js "&") 0
              ((ch "l" :: ch "t" :: ch ";" :: w) ++ js "&gt;")).
    rewrite replace_all_ci_block.
    - reflexivity.
    - repeat (apply not_elem_of_cons; split; [discriminate |]). exact Hamp. }
  rewrite H1.
  assert (H2 : replace_all_ci (js "&lt;") (js "<") 0
                 (ch "&" :: ch "l" :: ch "t" :: ch ";" :: w ++ js "&gt;")
               = ch "<" :: w ++ js "&gt;").
  { change (js "&lt;") with (ch "&" :: js "lt;").
    cbn [replace_all_ci].
    assert (Hm : startsWith_ci (ch "&" :: ch "l" :: ch "t" :: ch ";" :: w ++ js "&gt;")
                   (ch "&" :: js "lt;") = true).
    { change (ch "&" :: js "lt;") with [ch "&"; ch "l"; ch "t"; ch ";"].
      cbn [startsWith_ci]. rewrite !N.eqb_refl. cbn [andb].
      destruct (w ++ js "&gt;"); reflexivity. }
    rewrite Hm.
    change (length (ch "&" :: js "lt;") - 1) with 3.
    change (js "<" ++ ?x) with (ch "<" :: x). cbn [app]. f_equal.
    rewrite replace_all_ci_block by exact Hamp. reflexivity. }
  rewrite H2.
  assert (H3 : replace_all_ci (js "&gt;") (js ">") 0 (ch "<" :: w ++ js "&gt;")
               = ch "<" :: w ++ js ">").
  { change (replace_all_ci (js "&gt;") (js ">") 0 (ch "<" :: w ++ js "&gt;"))
      with (replace_all_ci (ch "&" :: js "gt;") (js ">") 0 ((ch "<" :: w) ++ js "&gt;")).
    rewrite replace_all_ci_block
      by (apply not_elem_of_cons; split; [discriminate | exact Hamp]).
    reflexivity. }
  rewrite H3.
  assert (Hplain : ch "&" ∉ ch "<" :: w ++ js ">").
  { apply not_elem_of_cons. split; [discriminate |].
    intros Hin. apply elem_of_app in Hin as [Hin | Hin]; [exact (Hamp Hin) |].
    revert Hin. apply (bool_decide_unpack _). vm_compute. exact I. }
  rewrite entities_plain; [| | exact Hplain].
  2:{ apply Forall_forall. intros p Hp.
      pose proof htmlEntities_amp as Hall. rewrite Forall_forall in Hall.
      apply Hall. rewrite Hsplit. apply elem_of_app. right. exact Hp. }
  rewrite (strip_entities_plain _ Hplain).
  assert (Hns : Forall (fun c => isWhiteSpace c = false) (ch "<" :: w ++ js ">")).
  { constructor; [reflexivity |]. apply Forall_app. split.
    - eapply Forall_impl; [exact Hw |]. intros c Hc. apply (alnum_plain c Hc).
    - repeat constructor. }
  rewrite (collapse_spaces_plain _ Hns). apply trim_plain. exact Hns.
Qed.

End EscapedTags.

(** X20. sanitizeHtml decodes the character references after it has removed
    the tags, so that its result can hold a tag: a name of letters and
    digits written between the references of the two angle brackets comes
    out as a tag with that name, and it is what the excerpt of such a
    content is. *)
Theorem sanitizeHtml_decodes_escaped_tags :
  forall w : list N,
    Forall (fun c => ContentExtractor.alnum c = true) w ->
    ContentExtractor.sanitizeHtml (js "&lt;" ++ w ++ js "&gt;") = js "<" ++ w ++ js ">"
    /\ (length w <= 198 ->
        ContentExtractor.extractExcerpt (js "&lt;" ++ w ++ js "&gt;")
        = Some (js "<" ++ w ++ js ">")).
Proof.
  intros w Hw. split; [apply escaped_tag_decoded; exact Hw |].
  intros Hlen. unfold ContentExtractor.extractExcerpt.
  rewrite (escaped_tag_decoded w Hw).
  assert (Hl : length (js "<" ++ w ++ js ">") = S (length w + 1)).
  { change (js "<" ++ w ++ js ">") with (ch "<" :: w ++ js ">").
    cbn [length]. rewrite length_app. reflexivity. }
  rewrite Hl.
  destruct (200 <? S (length w + 1)) eqn:Hcmp; [apply Nat.ltb_lt in Hcmp; lia |].
  reflexivity.
Qed.

Lemma sanitizeHtml_decodes_escaped_tags_witness :
  ContentExtractor.sanitizeHtml (js "&lt;script&gt;") = js "<script>"
  /\ ContentExtractor.extractExcerpt (js "&lt;script&gt;") = Some (js "<script>").
Proof.
  destruct (sanitizeHtml_decodes_escaped_tags (js "script")) as [Hs He].
  - repeat constructor.
  - split; [exact Hs |]. apply He. vm_compute. lia.
Defined.

(** ** The image of a content, rewritten *)

Section Rewriting.

Import ContentExtractor Shapes.

Lemma startsWith_ci_nil (s : list N) : startsWith_ci s [] = true.
Proof. destruct s; reflexivity. Qed.

Lemma url_char_plain (c : N) :
  url_char c = true ->
  is_quote c = false /\ not_gt c = true /\ c <> ch "=" /\ c <> dquote.
Proof.
  unfold url_char. intros H.
  apply andb_true_iff in H as [H H3]. apply andb_true_iff in H as [H1 H2].
  apply negb_true_iff in H1, H3. apply N.eqb_neq in H3.
  split; [exact H1 |]. split; [exact H2 |]. split; [exact H3 |].
  intros ->. discriminate H1.
Qed.

Lemma span_app (p : N -> bool) (u r : list N) (c : N) :
  Forall (fun x => p x = true) u -> p c = false ->
  span p (u ++ c :: r) = (u, c :: r).
Proof.
  intros Hu Hc. induction Hu as [| x u Hx _ IH]; cbn [app span].
  - rewrite Hc. reflexivity.
  - rewrite Hx, IH. reflexivity.
Qed.

(** Where [src=] stands, in either case, the fourth code unit is the
    equals sign and none of the first three is a double quote. *)
Lemma src_here_shape (s : list N) :
  startsWith_ci s (js "src=") = true ->
  exists a b c r, s = a :: b :: c :: ch "=" :: r
                  /\ a <> dquote /\ b <> dquote /\ c <> dquote.
Proof.
  change (js "src=") with [ch "s"; ch "r"; ch "c"; ch "="].
  destruct s as [| a [| b [| c [| d r]]]]; cbn [startsWith_ci];
    rewrite ?andb_false_r; try discriminate.
  intros H.
  apply andb_true_iff in H as [Ha H]. apply andb_true_iff in H as [Hb H].
  apply andb_true_iff in H as [Hc H]. apply andb_true_iff in H as [Hd _].
  apply N.eqb_eq in Ha, Hb, Hc, Hd.
  exists a, b, c, r. split.
  - f_equal. f_equal. f_equal. f_equal. apply lower_char_eq_sign. symmetry. exact Hd.
  - repeat split; intros ->; discriminate.
Qed.

Lemma no_src_in_url (u rest : list N) :
  Forall (fun c => url_char c = true) u ->
  startsWith_ci (u ++ dquote :: rest) (js "src=") = false.
Proof.
  intros Hu. apply not_true_iff_false. intros H.
  apply src_here_shape in H as (a & b & c & r & Hs & Ha & Hb & Hc).
  destruct u as [| a' [| b' [| c' [| d' u]]]]; cbn [app] in Hs;
    repeat match goal with
           | H : _ :: _ = _ :: _ |- _ => apply cons_eq_inv in H as [? H]
           end; subst; try congruence.
  - discriminate.
  - do 3 (apply Forall_cons in Hu as [_ Hu]).
    apply Forall_cons in Hu as [Hd _]. apply url_char_plain in Hd as (_ & _ & Hd & _).
    congruence.
Qed.

Lemma img_src_here_None (t : list N) :
  startsWith_ci t (js "src=") = false -> img_src_here t = None.
Proof. unfold img_src_here. intros ->. reflexivity. Qed.

Lemma img_attrs_step (c : N) (t : list N) :
  img_attrs (c :: t)
  = match (if not_gt c then img_attrs t else None) with
    | Some (src, n) => Some (src, S n)
    | None => img_src_here (c :: t)
    end.
Proof. reflexivity. Qed.

Lemma img_attrs_None_step (c : N) (t : list N) :
  img_attrs t = None -> startsWith_ci (c :: t) (js "src=") = false ->
  img_attrs (c :: t) = None.
Proof.
  intros Ht Hc. rewrite img_attrs_step, Ht.
  destruct (not_gt c); apply img_src_here_None; exact Hc.
Qed.

Lemma img_attrs_in_url (u after : list N) :
  Forall (fun c => url_char c = true) u ->
  img_attrs (u ++ dquote :: ch ">" :: after) = None.
Proof.
  intros Hu. induction u as [| c u IH].
  - cbn [app]. apply img_attrs_None_step; [| reflexivity].
    rewrite img_attrs_step. change (not_gt (ch ">")) with false. cbv iota.
    apply img_src_here_None. reflexivity.
  - pose proof (no_src_in_url (c :: u) (ch ">" :: after) Hu) as Hno.
    apply Forall_cons in Hu as [Hc Hu].
    cbn [app]. apply img_attrs_None_step; [exact (IH Hu) | exact Hno].
Qed.

Lemma img_src_here_url (u after : list N) :
  u <> [] -> Forall (fun c => url_char c = true) u ->
  img_src_here (js "src=" ++ dquote :: u ++ dquote :: ch ">" :: after)
  = Some (u, 4 + 1 + length u + 1 + 0 + 1).
Proof.
  intros Hne Hu. unfold img_src_here.
  change (js "src=" ++ dquote :: u ++ dquote :: ch ">" :: after)
    with (ch "s" :: ch "r" :: ch "c" :: ch "=" :: dquote :: u ++ dquote :: ch ">" :: after).
  change (js "src=") with [ch "s"; ch "r"; ch "c"; ch "="].
  cbn [startsWith_ci]. rewrite !N.eqb_refl. cbn [andb].
  change (drop 4 (ch "s" :: ch "r" :: ch "c" :: ch "=" :: dquote
                    :: u ++ dquote :: ch ">" :: after))
    with (dquote :: u ++ dquote :: ch ">" :: after).
  change (is_quote dquote) with true. cbv iota.
  rewrite (span_app (fun c => negb (is_quote c)) u (ch ">" :: after) dquote).
  - destruct u as [| c u]; [congruence |].
    cbn [span]. change (not_gt (ch ">")) with false. cbv iota. reflexivity.
  - eapply Forall_impl; [exact Hu |]. intros c Hc.
    apply url_char_plain in Hc as (Hq & _). rewrite Hq. reflexivity.
  - reflexivity.
Qed.

Lemma img_attrs_url (u after : list N) :
  u <> [] -> Forall (fun c => url_char c = true) u ->
  img_attrs (js "src=" ++ dquote :: u ++ dquote :: ch ">" :: after)
  = Some (u, 4 + 1 + length u + 1 + 0 + 1).
Proof.
  intros Hne Hu.
  pose proof (img_src_here_url u after Hne Hu) as Hhere.
  pose proof (img_attrs_in_url u after Hu) as Hin.
  change (js "src=" ++ dquote :: u ++ dquote :: ch ">" :: after)
    with (ch "s" :: ch "r" :: ch "c" :: ch "=" :: dquote :: u ++ dquote :: ch ">" :: after)
    in *.
  rewrite img_attrs_step.
  rewrite (img_attrs_None_step (ch "r")); [| | reflexivity].
  - change (not_gt (ch "s")) with true. cbv iota. exact Hhere.
  - apply img_attrs_None_step; [| reflexivity].
    apply img_attrs_None_step; [| reflexivity].
    apply img_attrs_None_step; [exact Hin | reflexivity].
Qed.

Lemma image_tag_app (u after : list N) :
  image_tag u ++ after
  = js "<img " ++ js "src=" ++ dquote :: u ++ dquote :: ch ">" :: after.
Proof. unfold image_tag. rewrite <- !app_assoc. reflexivity. Qed.

Lemma image_tag_length (u : list N) : length (image_tag u) = 4 + 1 + (4 + 1 + length u + 1 + 0 + 1).
Proof.
  unfold image_tag. rewrite !length_app.
  change (length (jsq "<img src='")) with 10. change (length (jsq "'>")) with 2. lia.
Qed.

Lemma img_here_tag (u after : list N) :
  u <> [] -> Forall (fun c => url_char c = true) u ->
  img_here (image_tag u ++ after) = Some (image_tag u, u).
Proof.
  intros Hne Hu.
  pose proof (take_app_length (image_tag u) after) as Htake.
  rewrite image_tag_length, image_tag_app in Htake.
  unfold img_here. rewrite image_tag_app.
  pose proof (img_attrs_url u after Hne Hu) as Hattrs.
  revert Htake Hattrs.
  generalize (js "src=" ++ dquote :: u ++ dquote :: ch ">" :: after).
  intros t Htake Ht.
  change (js "<img " ++ t) with (ch "<" :: ch "i" :: ch "m" :: ch "g" :: ch " " :: t) in *.
  change (js "<img") with [ch "<"; ch "i"; ch "m"; ch "g"].
  cbn [startsWith_ci]. rewrite !N.eqb_refl. cbn [andb].
  change (drop 4 (ch "<" :: ch "i" :: ch "m" :: ch "g" :: ch " " :: t)) with (ch " " :: t).
  change (not_gt (ch " ")) with true. cbv iota. rewrite Ht, Htake. reflexivity.
Qed.

Lemma has_img_inv (c : N) (s : list N) :
  has_img (c :: s) = false ->
  startsWith_ci (c :: s) (js "<img") = false /\ has_img s = false.
Proof. cbn [has_img]. apply orb_false_iff. Qed.

(** Before a [<], a text without the beginning of an image tag has no
    place at which one begins. *)
Lemma no_img_before (x s : list N) (c : N) :
  startsWith_ci (c :: x) (js "<img") = false ->
  startsWith_ci (c :: x ++ ch "<" :: s) (js "<img") = false.
Proof.
  change (js "<img") with [ch "<"; ch "i"; ch "m"; ch "g"].
  destruct x as [| x1 [| x2 [| x3 x]]]; cbn [app startsWith_ci].
  - intros _. change (lower_char (ch "i") =? lower_char (ch "<"))%N with false.
    apply andb_false_r.
  - intros _. change (lower_char (ch "m") =? lower_char (ch "<"))%N with false.
    rewrite !andb_false_r. reflexivity.
  - intros _. change (lower_char (ch "g") =? lower_char (ch "<"))%N with false.
    rewrite !andb_false_r. reflexivity.
  - rewrite !startsWith_ci_nil. auto.
Qed.

Lemma img_here_None (s : list N) :
  startsWith_ci s (js "<img") = false -> img_here s = None.
Proof. unfold img_here. intros ->. reflexivity. Qed.

Lemma matchAll_img_before (before s : list N) :
  has_img before = false ->
  matchAll_img 0 (before ++ ch "<" :: s) = matchAll_img 0 (ch "<" :: s).
Proof.
  induction before as [| c before IH]; intros H; [reflexivity |].
  apply has_img_inv in H as [Hc H].
  change ((c :: before) ++ ch "<" :: s) with (c :: before ++ ch "<" :: s).
  change (matchAll_img 0 (c :: ?x))
    with (match img_here (c :: x) with
          | Some (tag, src) => (tag, src) :: matchAll_img (length tag - 1) x
          | None => matchAll_img 0 x
          end).
  rewrite (img_here_None _ (no_img_before before s c Hc)). apply IH. exact H.
Qed.

Lemma matchAll_img_none (s : list N) : has_img s = false -> matchAll_img 0 s = [].
Proof.
  induction s as [| c s IH]; intros H; [reflexivity |].
  apply has_img_inv in H as [Hc H].
  change (matchAll_img 0 (c :: s))
    with (match img_here (c :: s) with
          | Some (tag, src) => (tag, src) :: matchAll_img (length tag - 1) s
          | None => matchAll_img 0 s
          end).
  rewrite (img_here_None _ Hc). apply IH. exact H.
Qed.

Lemma matchAll_img_skip (l r : list N) :
  matchAll_img (length l) (l ++ r) = matchAll_img 0 r.
Proof. induction l as [| c l IH]; [reflexivity | exact IH]. Qed.

Lemma matchAll_img_tag (before after u : list N) :
  has_img before = false -> has_img after = false ->
  u <> [] -> Forall (fun c => url_char c = true) u ->
  matchAll_img 0 (before ++ image_tag u ++ after) = [(image_tag u, u)].
Proof.
  intros Hb Ha Hne Hu.
  pose proof (img_here_tag u after Hne Hu) as Hhere.
  pose proof (image_tag_length u) as Hlen.
  assert (Htag : exists t, image_tag u = ch "<" :: t).
  { unfold image_tag. eexists. reflexivity. }
  destruct Htag as [t Ht]. rewrite Ht in *. cbn [app] in *.
  rewrite (matchAll_img_before before (t ++ after) Hb).
  change (matchAll_img 0 (ch "<" :: ?x))
    with (match img_here (ch "<" :: x) with
          | Some (tag, src) => (tag, src) :: matchAll_img (length tag - 1) x
          | None => matchAll_img 0 x
          end).
  rewrite Hhere. f_equal.
  replace (length (ch "<" :: t) - 1) with (length t) by (cbn [length]; lia).
  rewrite matchAll_img_skip. apply matchAll_img_none. exact Ha.
Qed.

Lemma indexOf_at (pre p post p' : list N) (x : N) :
  p = x :: p' -> Forall (fun c => c <> x) pre ->
  indexOf (pre ++ p ++ post) p = Some (length pre).
Proof.
  intros Hp Hpre. induction Hpre as [| c pre Hc _ IH].
  - destruct (indexOf_first p [] post) as (k & Hk & Hle).
    cbn [app length] in *. rewrite Hk. f_equal. lia.
  - assert (Hs : startsWith (c :: pre ++ p ++ post) p = false).
    { unfold startsWith. apply bool_decide_eq_false. intros [k Hk].
      rewrite Hp in Hk at 2. cbn [app] in Hk. apply cons_eq_inv in Hk as [Hk _].
      congruence. }
    cbn [app length indexOf]. rewrite Hs, IH. reflexivity.
Qed.

Lemma replace_at (pre p post rep : list N) :
  indexOf (pre ++ p ++ post) p = Some (length pre) ->
  Forall (fun c => c <> dollar) rep ->
  replace (pre ++ p ++ post) p rep = pre ++ rep ++ post.
Proof.
  intros Hi Hrep. unfold replace. rewrite Hi, (substitution_plain _ _ _ _ Hrep).
  rewrite take_app_length. rewrite (app_assoc pre p post), <- length_app, drop_app_length.
  reflexivity.
Qed.

Lemma startsWith_image_tag (s u : list N) :
  startsWith s (image_tag u) = true -> startsWith_ci s (js "<img") = true.
Proof.
  intros H. apply startsWith_true in H as [k ->]. rewrite image_tag_app.
  change (js "<img " ++ ?t) with (ch "<" :: ch "i" :: ch "m" :: ch "g" :: ch " " :: t).
  change (js "<img") with [ch "<"; ch "i"; ch "m"; ch "g"].
  cbn [startsWith_ci]. rewrite !N.eqb_refl. reflexivity.
Qed.

Lemma indexOf_image_tag (before after u : list N) :
  has_img before = false ->
  indexOf (before ++ image_tag u ++ after) (image_tag u) = Some (length before).
Proof.
  intros Hb. induction before as [| c before IH].
  - destruct (indexOf_first (image_tag u) [] after) as (k & Hk & Hle).
    cbn [app length] in *. rewrite Hk. f_equal. lia.
  - apply has_img_inv in Hb as [Hc Hb]. cbn [app length indexOf].
    destruct (startsWith (c :: before ++ image_tag u ++ after) (image_tag u)) eqn:Hs.
    + apply startsWith_image_tag in Hs. rewrite image_tag_app in Hs.
      change (js "<img " ++ ?t) with (ch "<" :: (js "img " ++ t)) in Hs.
      rewrite (no_img_before before _ c Hc) in Hs. discriminate Hs.
    + rewrite (IH Hb). reflexivity.
Qed.

Lemma resolveUrl_absolute {R : Runtime} (u : list N) (baseUrl : option (list N)) :
  startsWith u (js "http://") = true \/ startsWith u (js "https://") = true ->
  resolveUrl u baseUrl = u.
Proof.
  intros H. unfold resolveUrl. apply orb_true_iff in H. rewrite H. reflexivity.
Qed.

Lemma downloadAndOptimizeImage_success {R : Runtime} (assetsPath u : list N)
    (fs : gmap (list N) (list N)) (response : Response) (buffer webp : list N) :
  fetch u = Ok response -> ok response = true -> body response = Ok buffer ->
  sharp_webp buffer = Ok webp ->
  downloadAndOptimizeImage assetsPath u fs
  = (Some (localFilename u), <[path_join assetsPath (localFilename u) := webp]> fs).
Proof.
  intros Hf Hok Hb Hs. unfold downloadAndOptimizeImage.
  rewrite Hf, Hok. cbn [negb]. rewrite Hb, Hs. reflexivity.
Qed.

Lemma image_tag_plain (path : list N) :
  Forall (fun c => c <> dollar) path -> Forall (fun c => c <> dollar) (image_tag path).
Proof.
  intros H. unfold image_tag.
  apply Forall_app; split; [repeat constructor; discriminate |].
  apply Forall_app; split; [exact H | repeat constructor; discriminate].
Qed.

Lemma processImagesInContent_tag {R : Runtime} (assetsPath before after u : list N)
    (baseUrl : option (list N)) (fs : gmap (list N) (list N))
    (response : Response) (buffer webp : list N) :
  has_img before = false -> has_img after = false ->
  startsWith u (js "http://") = true \/ startsWith u (js "https://") = true ->
  Forall (fun c => url_char c = true) u ->
  fetch u = Ok response -> ok response = true -> body response = Ok buffer ->
  sharp_webp buffer = Ok webp ->
  processImagesInContent assetsPath (before ++ image_tag u ++ after) baseUrl fs
  = (before ++ image_tag (js "/assets/" ++ localFilename u) ++ after,
     <[path_join assetsPath (localFilename u) := webp]> fs).
Proof.
  intros Hb Ha Habs Hu Hf Hok Hbody Hsharp.
  assert (Hh : exists u', u = ch "h" :: u').
  { destruct Habs as [H | H]; apply startsWith_true in H as [k ->]; eexists; reflexivity. }
  destruct Hh as [u' Hu'].
  assert (Hne : u <> []) by (rewrite Hu'; discriminate).
  unfold processImagesInContent.
  rewrite (matchAll_img_tag before after u Hb Ha Hne Hu). cbn [foldl].
  rewrite (resolveUrl_absolute u baseUrl Habs).
  rewrite (downloadAndOptimizeImage_success assetsPath u fs response buffer webp
             Hf Hok Hbody Hsharp).
  assert (Ht : truthy (Some (localFilename u)) = true).
  { unfold localFilename. destruct (Md5.hex u); reflexivity. }
  rewrite Ht. change (default [] (Some (localFilename u))) with (localFilename u).
  destruct (asset_path_plain u) as (path & Hpath & Hplain). rewrite <- Hpath in Hplain.
  assert (Hnew : replace (image_tag u) u (js "/assets/" ++ localFilename u)
                 = image_tag (js "/assets/" ++ localFilename u)).
  { unfold image_tag at 1. apply replace_at; [| exact Hplain].
    apply (indexOf_at _ _ _ u' (ch "h") Hu'). repeat constructor; discriminate. }
  rewrite Hnew. f_equal.
  apply replace_at; [apply indexOf_image_tag; exact Hb |].
  apply image_tag_plain. exact Hplain.
Qed.

End Rewriting.

(** X21. An image of the content that can be downloaded is served from the
    cache.  For a content with one image tag, whose only attribute is an
    absolute http or https source without quote, closing bracket or equals
    sign, processImagesInContent stores the converted image under its cache
    name in the asset directory and returns the content with the source of
    the tag replaced by /assets/ and that name, all the rest as it was. *)
Theorem image_of_the_content_is_rewritten :
  forall (R : Runtime) (assetsPath before after u : list N) (baseUrl : option (list N))
         (fs : gmap (list N) (list N)) (response : Response) (buffer webp : list N),
    Shapes.has_img before = false ->
    Shapes.has_img after = false ->
    startsWith u (js "http://") = true \/ startsWith u (js "https://") = true ->
    Forall (fun c => Shapes.url_char c = true) u ->
    fetch u = Ok response ->
    ok response = true ->
    body response = Ok buffer ->
    sharp_webp buffer = Ok webp ->
    ContentExtractor.processImagesInContent assetsPath
      (before ++ jsq "<img src='" ++ u ++ jsq "'>" ++ after) baseUrl fs
    = (before ++ jsq "<img src='/assets/" ++ ContentExtractor.localFilename u
         ++ jsq "'>" ++ after,
       <[ContentExtractor.path_join assetsPath (ContentExtractor.localFilename u) := webp]>
         fs).
Proof.
  intros R assetsPath before after u baseUrl fs response buffer webp
    Hb Ha Habs Hu Hf Hok Hbody Hsharp.
  pose proof (processImagesInContent_tag assetsPath before after u baseUrl fs response
                buffer webp Hb Ha Habs Hu Hf Hok Hbody Hsharp) as H.
  unfold Shapes.image_tag in H. rewrite <- !app_assoc in H. exact H.
Qed.

Lemma image_of_the_content_is_rewritten_witness :
  (@ContentExtractor.processImagesInContent online_runtime Samples.assets_dir
     (jsq "<p>Look: <img src='https://cdn.example/a.png'> here</p>") None ∅).1
  = jsq "<p>Look: <img src='/assets/fc39ac27b75a18c1c47cb266cd400ff5.webp'> here</p>".
Proof.
  rewrite (image_of_the_content_is_rewritten online_runtime Samples.assets_dir
             (js "<p>Look: ") (js " here</p>") (js "https://cdn.example/a.png") None ∅
             {| ok := true; status := 200; statusText := js "OK"; body := Ok sample_page |}
             sample_page sample_page).
  - vm_compute. reflexivity.
  - reflexivity.
  - reflexivity.
  - right. vm_compute. reflexivity.
  - apply Forall_forall. intros c Hc.
    apply list_elem_of_In in Hc. vm_compute in Hc.
    repeat (destruct Hc as [<- | Hc]; [reflexivity |]). contradiction.
  - reflexivity.
  - reflexivity.
  - reflexivity.
  - reflexivity.
Defined.


(** ** The article that a job has completed *)

(** X22. The row that a successful job leaves is well formed.  The page was
    fetched with a status that is ok, and the article holds its body, as it
    was fetched, as original HTML; its title is not empty; its content is
    set; its word count is at least 1 and its reading time is the word count
    divided by 200 and rounded up, so at least 1 as well. *)
Theorem completed_article_is_well_formed :
  forall (R : Runtime) (assetsPath : list N) (job : Queue.JobData) (w : Queue.World)
         (a : Queue.Article),
    Queue.articles w !! Queue.articleId job = Some a ->
    (Queue.processArticleExtraction assetsPath job w).1 = Ok () ->
    exists (a' : Queue.Article) (response : Response) (html content : list N)
           (words minutes : nat),
      Queue.articles (Queue.processArticleExtraction assetsPath job w).2
        !! Queue.articleId job = Some a'
      /\ fetch (Queue.job_url job) = Ok response
      /\ ok response = true
      /\ body response = Ok html
      /\ Queue.originalHtml a' = Some html
      /\ Queue.title a' <> []
      /\ Queue.content a' = Some content
      /\ Queue.wordCount a' = Some words
      /\ Queue.readingTime a' = Some minutes
      /\ 1 <= words
      /\ 1 <= minutes
      /\ words <= 200 * minutes < words + 200.
Proof.
  intros R assetsPath job w a Ha Hok.
  destruct (ContentExtractor.extractFromUrl assetsPath (Queue.job_url job) (Queue.assets w))
    as [[extracted | error] fs] eqn:Hx.
  2:{ rewrite (processArticleExtraction_failure assetsPath job w a error fs Ha Hx) in Hok.
      discriminate Hok. }
  rewrite (processArticleExtraction_success assetsPath job w a extracted fs Ha Hx).
  cbn [snd Queue.articles]. rewrite lookup_insert_eq.
  unfold ContentExtractor.extractFromUrl in Hx.
  destruct (fetch (Queue.job_url job)) as [response |] eqn:Hf; [| discriminate].
  destruct (ok response) eqn:Hr; cbn [negb] in Hx; [| discriminate].
  destruct (body response) as [html |] eqn:Hb; [| discriminate].
  apply extractFromHtml_Ok in Hx as (document0 & article & document & _ & _ & ->).
  eexists _, response, html, _, _, _.
  split; [reflexivity |]. split; [first [exact Hf | reflexivity] |].
  split; [exact Hr |]. split; [first [exact Hb | reflexivity] |].
  cbn [Queue.markCompleted Queue.originalHtml Queue.title Queue.content Queue.wordCount
       Queue.readingTime ContentExtractor.assembled ContentExtractor.originalHtml
       ContentExtractor.title ContentExtractor.content ContentExtractor.wordCount
       ContentExtractor.readingTime].
  split; [reflexivity |]. split; [apply chooseFields_title |].
  split; [reflexivity |]. split; [reflexivity |]. split; [reflexivity |].
  match goal with
  | |- 1 <= ?n /\ _ =>
      pose proof (readingTime_of_ceiling n) as Hceil;
      assert (Hn : 1 <= n) by apply countWords_positive
  end.
  split; [exact Hn |]. split; [lia | exact Hceil].
Qed.

Lemma completed_article_is_well_formed_witness :
  exists a' : Queue.Article,
    Queue.articles
      (@Queue.processArticleExtraction online_runtime Samples.assets_dir
         Samples.job1 Samples.world0).2 !! js "a1" = Some a'
    /\ Queue.originalHtml a' = Some sample_page
    /\ Queue.title a' <> [].
Proof.
  destruct (completed_article_is_well_formed online_runtime Samples.assets_dir Samples.job1
              Samples.world0 Samples.read_article)
    as (a' & response & html & content & words & minutes & Ha' & Hf & _ & Hb & Hh & Ht & _).
  - vm_compute. reflexivity.
  - vm_compute. reflexivity.
  - exists a'. split; [exact Ha' |]. split; [| exact Ht].
    rewrite Hh. injection Hf as <-. injection Hb as <-. reflexivity.
Defined.

(** ** The words that are counted *)

Section WordRuns.

Import ContentExtractor Shapes.

Lemma word_runs_blank_prefix (l s : list N) :
  Forall (fun c => isWhiteSpace c = true) l ->
  word_runs false (l ++ s) = word_runs false s.
Proof.
  induction 1 as [| c l Hc _ IH]; [reflexivity |].
  cbn [app word_runs]. rewrite Hc. exact IH.
Qed.

Lemma word_runs_blank_suffix (inword : bool) (s r : list N) :
  Forall (fun c => isWhiteSpace c = true) r ->
  word_runs inword (s ++ r) = word_runs inword s.
Proof.
  intros Hr. revert inword. induction s as [| c s IH]; intros inword.
  - cbn [app]. induction Hr as [| c r Hc _ IHr] in inword |- *; [reflexivity |].
    cbn [word_runs]. rewrite Hc. apply IHr.
  - cbn [app word_runs]. rewrite !IH. reflexivity.
Qed.

Lemma word_runs_trim (s : list N) : word_runs false (trim s) = word_runs false s.
Proof.
  unfold trim.
  destruct (trimStart_split s) as (l & Hl & Hws).
  destruct (trimEnd_split (trimStart s)) as (r & Hr & Hwr).
  rewrite Hl at 2. rewrite (word_runs_blank_prefix l _ Hws).
  rewrite Hr at 2. rewrite (word_runs_blank_suffix false _ r Hwr). reflexivity.
Qed.

Lemma word_runs_collapse (inword inws : bool) (s : list N) :
  (inws = true -> inword = false) ->
  word_runs inword (collapse_spaces inws s) = word_runs inword s.
Proof.
  revert inword inws. induction s as [| c s IH]; intros inword inws Hb; [reflexivity |].
  cbn [collapse_spaces word_runs]. destruct (isWhiteSpace c) eqn:Hc.
  - destruct inws.
    + rewrite (Hb eq_refl). apply IH. reflexivity.
    + cbn [word_runs]. change (isWhiteSpace (ch " ")) with true. cbv iota.
      apply IH. reflexivity.
  - cbn [word_runs]. rewrite Hc. f_equal. apply IH. discriminate.
Qed.

(** The pieces that the split of a text makes, for a text that does not
    end with white space. *)
Lemma split_spaces_runs (s : list N) :
  (forall r c, s = r ++ [c] -> isWhiteSpace c = false) ->
  (forall cur, length (split_spaces false cur s) = 1 + word_runs true s)
  /\ (s <> [] -> forall cur, length (split_spaces true cur s) = word_runs false s).
Proof.
  induction s as [| x s IH]; intros Hend.
  - split; [reflexivity | congruence].
  - assert (Hend' : forall r c, s = r ++ [c] -> isWhiteSpace c = false).
    { intros r c ->. apply (Hend (x :: r) c). reflexivity. }
    destruct (IH Hend') as [IH1 IH2].
    cbn [split_spaces word_runs]. destruct (isWhiteSpace x) eqn:Hx.
    + assert (Hne : s <> []).
      { intros ->. rewrite (Hend [] x eq_refl) in Hx. discriminate. }
      split.
      * intros cur. cbn [length]. rewrite (IH2 Hne). reflexivity.
      * intros _ cur. apply (IH2 Hne).
    + split.
      * intros cur. rewrite IH1. reflexivity.
      * intros _ cur. rewrite IH1. reflexivity.
Qed.

(** [countWords] counts the words of the text, and counts 1 when there
    is none. *)
Lemma countWords_runs (text : list N) :
  countWords text = Nat.max 1 (word_runs false text).
Proof.
  unfold countWords. rewrite <- (word_runs_trim text).
  destruct (split_spaces_runs (trim text)) as [Hsplit _].
  { intros r c. apply trim_last. }
  rewrite Hsplit.
  destruct (trim text) as [| c t] eqn:Ht; [reflexivity |].
  cbn [word_runs]. rewrite (trim_head text c t Ht). lia.
Qed.

Lemma existsb_gt_app (l r : list N) :
  existsb (N.eqb (ch ">")) (l ++ ch ">" :: r) = true.
Proof.
  apply existsb_exists. exists (ch ">"). split; [| apply N.eqb_refl].
  apply in_or_app. right. left. reflexivity.
Qed.

Lemma strip_tags_inside (body rest : list N) :
  ch ">" ∉ body ->
  strip_tags true (body ++ ch ">" :: rest) = strip_tags false rest.
Proof.
  induction body as [| c body IH]; intros H.
  - cbn [app strip_tags]. rewrite N.eqb_refl. reflexivity.
  - apply not_elem_of_cons in H as [Hc H].
    assert (Hc' : (c =? ch ">")%N = false) by (apply N.eqb_neq; congruence).
    cbn [app strip_tags]. rewrite Hc'. cbn [negb]. apply IH. exact H.
Qed.

Lemma strip_tags_tag (t rest : list N) :
  tag t -> strip_tags false (t ++ rest) = strip_tags false rest.
Proof.
  intros (body & -> & Hbody).
  change ((ch "<" :: body ++ [ch ">"]) ++ rest)
    with (ch "<" :: (body ++ [ch ">"]) ++ rest).
  rewrite <- app_assoc. cbn [app strip_tags].
  rewrite N.eqb_refl, existsb_gt_app. cbn [andb].
  apply strip_tags_inside. exact Hbody.
Qed.

Lemma strip_tags_text (text rest : list N) :
  ch "<" ∉ text -> strip_tags false (text ++ rest) = text ++ strip_tags false rest.
Proof.
  induction text as [| c text IH]; intros H; [reflexivity |].
  apply not_elem_of_cons in H as [Hc H].
  assert (Hc' : (c =? ch "<")%N = false) by (apply N.eqb_neq; congruence).
  cbn [app strip_tags]. rewrite Hc'. cbn [andb]. rewrite IH by exact H. reflexivity.
Qed.

(** The text of an element without markup inside, as [sanitizeHtml]
    gives it. *)
Lemma sanitizeHtml_element (opening closing text : list N) :
  tag opening -> tag closing -> ch "<" ∉ text -> ch "&" ∉ text ->
  sanitizeHtml (opening ++ text ++ closing) = trim (collapse_spaces false text).
Proof.
  intros Ho Hc Hlt Hamp. unfold sanitizeHtml.
  destruct (opening ++ text ++ closing) as [| h html'] eqn:Hhtml.
  { destruct Ho as (body & -> & _). discriminate Hhtml. }
  rewrite <- Hhtml. clear Hhtml.
  rewrite (strip_tags_tag opening _ Ho), (strip_tags_text text _ Hlt).
  rewrite <- (app_nil_r closing), (strip_tags_tag closing [] Hc).
  cbn [strip_tags]. rewrite app_nil_r.
  rewrite (entities_plain _ _ htmlEntities_amp Hamp), (strip_entities_plain _ Hamp).
  reflexivity.
Qed.

Lemma countWords_element (opening closing text : list N) :
  tag opening -> tag closing -> ch "<" ∉ text -> ch "&" ∉ text ->
  countWords (sanitizeHtml (opening ++ text ++ closing))
  = Nat.max 1 (word_runs false text).
Proof.
  intros Ho Hc Hlt Hamp.
  rewrite (sanitizeHtml_element opening closing text Ho Hc Hlt Hamp).
  rewrite countWords_runs, word_runs_trim, word_runs_collapse by discriminate.
  reflexivity.
Qed.

Lemma replace_all_ci_miss (e r w rest : list N) :
  ch "&" ∉ w -> ch "&" ∉ rest ->
  startsWith_ci (ch "&" :: rest) (ch "&" :: e) = false ->
  replace_all_ci (ch "&" :: e) r 0 (w ++ ch "&" :: rest) = w ++ ch "&" :: rest.
Proof.
  intros Hw Hrest Hmiss. rewrite replace_all_ci_block by exact Hw. f_equal.
  cbn [replace_all_ci]. rewrite Hmiss. f_equal.
  apply replace_all_ci_plain. exact Hrest.
Qed.

Lemma entities_miss (entities : list (list N * list N)) (w rest : list N) :
  ch "&" ∉ w -> ch "&" ∉ rest ->
  Forall (fun p => exists e, p.1 = ch "&" :: e
                             /\ startsWith_ci (ch "&" :: rest) (ch "&" :: e) = false)
         entities ->
  foldl (fun sanitized '(entity, replacement) =>
           replace_all_ci entity replacement 0 sanitized)
        (w ++ ch "&" :: rest) entities
  = w ++ ch "&" :: rest.
Proof.
  intros Hw Hrest Hall.
  induction Hall as [| [entity replacement] entities (e & He & Hmiss) _ IH];
    [reflexivity |].
  cbn [foldl]. cbn [fst] in He.
  rewrite He, (replace_all_ci_miss e replacement w rest Hw Hrest Hmiss). exact IH.
Qed.

Lemma alnum_no_lt (w : list N) :
  Forall (fun c => alnum c = true) w -> ch "<" ∉ w.
Proof.
  induction 1 as [| c w Hc _ IH]; [apply not_elem_of_nil |].
  apply not_elem_of_cons. split; [| exact IH].
  destruct (alnum_plain c Hc) as (_ & H & _). congruence.
Qed.

Lemma alnum_not_blank (w : list N) :
  Forall (fun c => alnum c = true) w -> Forall (fun c => isWhiteSpace c = false) w.
Proof.
  intros H. eapply Forall_impl; [exact H |]. intros c Hc. apply (alnum_plain c Hc).
Qed.

(** A no-break space that is written as a reference comes out as a
    space. *)
Lemma nbsp_decoded (w1 w2 : list N) :
  Forall (fun c => alnum c = true) w1 -> Forall (fun c => alnum c = true) w2 ->
  w1 <> [] -> w2 <> [] ->
  sanitizeHtml (w1 ++ js "&nbsp;" ++ w2) = w1 ++ js " " ++ w2.
Proof.
  intros H1 H2 Hne1 Hne2.
  assert (Hamp1 : ch "&" ∉ w1) by (apply alnum_no_amp; exact H1).
  assert (Hamp2 : ch "&" ∉ w2) by (apply alnum_no_amp; exact H2).
  assert (Hrest : ch "&" ∉ js "nbsp;" ++ w2).
  { change (js "nbsp;" ++ w2)
      with (ch "n" :: ch "b" :: ch "s" :: ch "p" :: ch ";" :: w2).
    repeat (apply not_elem_of_cons; split; [discriminate |]). exact Hamp2. }
  assert (Hlt : ch "<" ∉ w1 ++ js "&nbsp;" ++ w2).
  { intros Hin. apply elem_of_app in Hin as [Hin | Hin].
    - revert Hin. apply alnum_no_lt. exact H1.
    - revert Hin.
      change (js "&nbsp;" ++ w2)
        with (ch "&" :: ch "n" :: ch "b" :: ch "s" :: ch "p" :: ch ";" :: w2).
      repeat (apply not_elem_of_cons; split; [discriminate |]).
      apply alnum_no_lt. exact H2. }
  unfold sanitizeHtml.
  destruct (w1 ++ js "&nbsp;" ++ w2) as [| h html'] eqn:Hhtml.
  { destruct w1; [congruence | discriminate Hhtml]. }
  rewrite <- Hhtml in Hlt |- *. clear Hhtml.
  rewrite (strip_tags_plain _ Hlt).
  change (js "&nbsp;" ++ w2) with (ch "&" :: js "nbsp;" ++ w2).
  assert (Hsplit : htmlEntities
                   = take 6 htmlEntities ++ (js "&nbsp;", js " ") :: drop 7 htmlEntities)
    by reflexivity.
  rewrite Hsplit, foldl_app.
  rewrite (entities_miss (take 6 htmlEntities) w1 (js "nbsp;" ++ w2) Hamp1 Hrest).
  2:{ repeat constructor; eexists; split; reflexivity. }
  cbn [foldl].
  assert (Hhit : replace_all_ci (js "&nbsp;") (js " ") 0
                   (w1 ++ ch "&" :: js "nbsp;" ++ w2)
                 = w1 ++ js " " ++ w2).
  { change (js "&nbsp;") with (ch "&" :: js "nbsp;").
    rewrite replace_all_ci_block by exact Hamp1. f_equal.
    change (js "nbsp;" ++ w2)
      with (ch "n" :: ch "b" :: ch "s" :: ch "p" :: ch ";" :: w2).
    change (js "nbsp;") with [ch "n"; ch "b"; ch "s"; ch "p"; ch ";"].
    cbn [replace_all_ci startsWith_ci].
    change (lower_char (ch "&")) with (ch "&").
    change (lower_char (ch "n")) with (ch "n").
    change (lower_char (ch "b")) with (ch "b").
    change (lower_char (ch "s")) with (ch "s").
    change (lower_char (ch "p")) with (ch "p").
    change (lower_char (ch ";")) with (ch ";").
    rewrite !N.eqb_refl. cbn [andb].
    assert (Hend : startsWith_ci w2 [] = true) by (destruct w2; reflexivity).
    rewrite Hend. cbv iota. cbn [length Nat.sub replace_all_ci].
    f_equal. apply replace_all_ci_plain. exact Hamp2. }
  rewrite Hhit.
  assert (Hplain : ch "&" ∉ w1 ++ js " " ++ w2).
  { intros Hin. apply elem_of_app in Hin as [Hin | Hin]; [exact (Hamp1 Hin) |].
    change (js " " ++ w2) with (ch " " :: w2) in Hin.
    apply elem_of_cons in Hin as [Hin | Hin]; [discriminate Hin | exact (Hamp2 Hin)]. }
  rewrite entities_plain; [| | exact Hplain].
  2:{ apply Forall_forall. intros p Hp.
      pose proof htmlEntities_amp as Hall. rewrite Forall_forall in Hall.
      apply Hall. rewrite Hsplit. apply elem_of_app. right.
      apply list_elem_of_further. exact Hp. }
  rewrite (strip_entities_plain _ Hplain).
  change (js " " ++ w2) with ([ch " "] ++ w2).
  destruct w1 as [| a w1]; [congruence |]. destruct w2 as [| b w2]; [congruence |].
  apply Forall_cons in H1 as [Ha H1]. apply Forall_cons in H2 as [Hb H2].
  destruct (alnum_plain a Ha) as (_ & _ & _ & Hwa).
  destruct (alnum_plain b Hb) as (_ & _ & _ & Hwb).
  assert (Hcollapse : forall s, collapse_spaces false (w1 ++ [ch " "] ++ b :: w2 ++ s)
                                = w1 ++ [ch " "] ++ b :: collapse_spaces false (w2 ++ s)).
  { intros s. clear Hamp1 Hlt Hrest Hplain Hne1 Hhit.
    induction H1 as [| c w1 Hc _ IH].
    - cbn [app collapse_spaces]. change (isWhiteSpace (ch " ")) with true.
      rewrite Hwb. reflexivity.
    - cbn [app collapse_spaces]. rewrite (proj2 (proj2 (proj2 (alnum_plain c Hc)))).
      f_equal. exact IH. }
  specialize (Hcollapse []). rewrite !app_nil_r in Hcollapse.
  change ((a :: w1) ++ [ch " "] ++ b :: w2) with (a :: w1 ++ [ch " "] ++ b :: w2).
  cbn [collapse_spaces]. rewrite Hwa, Hcollapse.
  rewrite (collapse_spaces_plain w2 (alnum_not_blank w2 H2)).
  unfold trim. rewrite (trimStart_nonspace a _ Hwa).
  destruct (snoc_or_nil (b :: w2)) as [Hnil | (w2' & x & Hw2)]; [discriminate |].
  assert (Hx : isWhiteSpace x = false).
  { assert (Hall : Forall (fun c => isWhiteSpace c = false) (b :: w2))
      by (constructor; [exact Hwb | apply alnum_not_blank; exact H2]).
    rewrite Hw2 in Hall. apply Forall_app in Hall as [_ Hall].
    apply Forall_cons in Hall as [Hall _]. exact Hall. }
  rewrite Hw2.
  change (a :: w1 ++ [ch " "] ++ w2' ++ [x]) with ((a :: w1) ++ [ch " "] ++ w2' ++ [x]).
  rewrite !app_assoc. apply trimEnd_nonspace. exact Hx.
Qed.

Lemma word_runs_word (inword : bool) (w rest : list N) :
  Forall (fun c => isWhiteSpace c = false) w -> w <> [] ->
  word_runs inword (w ++ rest) = (if inword then 0 else 1) + word_runs true rest.
Proof.
  intros Hw. revert inword. induction Hw as [| c w Hc Hw IH]; intros inword Hne;
    [congruence |].
  cbn [app word_runs]. rewrite Hc. f_equal.
  destruct w as [| d w]; [reflexivity |]. rewrite IH by discriminate. reflexivity.
Qed.

Lemma countWords_nbsp (w1 w2 : list N) :
  Forall (fun c => alnum c = true) w1 -> Forall (fun c => alnum c = true) w2 ->
  w1 <> [] -> w2 <> [] ->
  countWords (sanitizeHtml (w1 ++ js "&nbsp;" ++ w2)) = 2.
Proof.
  intros H1 H2 Hne1 Hne2. rewrite (nbsp_decoded w1 w2 H1 H2 Hne1 Hne2).
  rewrite countWords_runs.
  rewrite (word_runs_word false w1 _ (alnum_not_blank w1 H1) Hne1).
  change (js " " ++ w2) with (ch " " :: w2). cbn [word_runs].
  change (isWhiteSpace (ch " ")) with true. cbv iota.
  rewrite <- (app_nil_r w2), (word_runs_word false w2 [] (alnum_not_blank w2 H2) Hne2).
  reflexivity.
Qed.

End WordRuns.

(** C9. For every result of [extractFromHtml], the reading time is the word
    count divided by 200 and rounded up, and it is never 0; the words are
    counted in the plain text of Readability when there is one, and otherwise
    in the chosen content with its tags stripped and its entities decoded; a
    text of exactly 400 words gives a reading time of 2 and a text of one
    word a reading time of 1.  The words of a text are its runs of
    characters that are not white space, whatever white space is between,
    before and after them, and a text without any counts as one word.  When
    the content is counted, the words of an element without markup inside
    are those between its two tags, and two words with the reference of a
    no-break space between them are two words. *)
Theorem reading_time_is_ceiling_of_word_count :
  forall (R : Runtime) (assetsPath html : list N) (baseUrl : option (list N))
         (fs fs' : gmap (list N) (list N))
         (extracted : ContentExtractor.ExtractedArticle),
    ContentExtractor.extractFromHtml assetsPath html baseUrl fs = (Ok extracted, fs') ->
    (ContentExtractor.wordCount extracted <= 200 * ContentExtractor.readingTime extracted
     /\ 200 * ContentExtractor.readingTime extracted
        < ContentExtractor.wordCount extracted + 200)
    /\ 1 <= ContentExtractor.readingTime extracted
    /\ exists (document0 : Document) (article : option ReadabilityArticle)
              (document : Document) (text : list N),
         JSDOM_document html baseUrl = Ok document0
         /\ Readability_parse document0 = Ok (article, document)
         /\ ContentExtractor.wordCount extracted = ContentExtractor.countWords text
         /\ (forall a t, article = Some a -> r_textContent a = Some t -> t <> [] ->
               text = t)
         /\ ((article = None
              \/ exists a, article = Some a
                           /\ (r_textContent a = None \/ r_textContent a = Some [])) ->
             text = ContentExtractor.sanitizeHtml
                      (ContentExtractor.chooseFields article document baseUrl).2)
         /\ (forall words, Forall ContentExtractor.is_word words ->
               text = ContentExtractor.sentence words ->
               (length words = 400 -> ContentExtractor.readingTime extracted = 2)
               /\ (length words = 1 -> ContentExtractor.readingTime extracted = 1))
         /\ ContentExtractor.wordCount extracted
            = Nat.max 1 (Shapes.word_runs false text)
         /\ (Shapes.word_runs false text = 400 ->
             ContentExtractor.readingTime extracted = 2)
         /\ (Shapes.word_runs false text <= 1 ->
             ContentExtractor.wordCount extracted = 1
             /\ ContentExtractor.readingTime extracted = 1)
         /\ ((article = None
              \/ exists a, article = Some a
                           /\ (r_textContent a = None \/ r_textContent a = Some [])) ->
             (forall opening closing inner : list N,
                Shapes.tag opening -> Shapes.tag closing ->
                ch "<" ∉ inner -> ch "&" ∉ inner ->
                (ContentExtractor.chooseFields article document baseUrl).2
                = opening ++ inner ++ closing ->
                ContentExtractor.wordCount extracted
                = Nat.max 1 (Shapes.word_runs false inner))
             /\ (forall w1 w2 : list N,
                   Forall (fun c => ContentExtractor.alnum c = true) w1 ->
                   Forall (fun c => ContentExtractor.alnum c = true) w2 ->
                   w1 <> [] -> w2 <> [] ->
                   (ContentExtractor.chooseFields article document baseUrl).2
                   = w1 ++ js "&nbsp;" ++ w2 ->
                   ContentExtractor.wordCount extracted = 2)).
Proof.
  intros R assetsPath html baseUrl fs fs' extracted H.
  apply extractFromHtml_Ok in H as (document0 & article & document & Hdom & Hread & ->).
  unfold ContentExtractor.assembled. cbn [ContentExtractor.wordCount ContentExtractor.readingTime].
  set (fields := ContentExtractor.chooseFields article document baseUrl).
  set (text := ContentExtractor.counted_text article fields.2).
  pose proof (readingTime_of_ceiling (ContentExtractor.countWords text)) as Hceil.
  pose proof (countWords_positive text) as Hpos.
  assert (Hfallback :
            (article = None
             \/ exists a, article = Some a
                          /\ (r_textContent a = None \/ r_textContent a = Some [])) ->
            text = ContentExtractor.sanitizeHtml fields.2).
  { intros [-> | (a & -> & [Ht | Ht])]; subst text; unfold ContentExtractor.counted_text;
      [reflexivity | rewrite Ht; reflexivity | rewrite Ht; reflexivity]. }
  split; [exact Hceil |]. split; [lia |].
  exists document0, article, document, text.
  split; [exact Hdom |]. split; [exact Hread |]. split; [reflexivity |].
  split.
  { intros a t -> Ht Hne. subst text. unfold ContentExtractor.counted_text.
    rewrite Ht. destruct t; [congruence | reflexivity]. }
  split; [exact Hfallback |].
  split.
  { intros words Hwords Htext. split; intros Hlen;
      (rewrite Htext, countWords_sentence, Hlen; [reflexivity | | assumption]);
      intros ->; discriminate. }
  split; [apply countWords_runs |].
  split.
  { intros Hruns. rewrite countWords_runs, Hruns. reflexivity. }
  split.
  { intros Hruns. rewrite countWords_runs.
    replace (Nat.max 1 (Shapes.word_runs false text)) with 1 by lia.
    split; reflexivity. }
  intros Hnone. rewrite (Hfallback Hnone). unfold fields. split.
  - intros opening closing inner Ho Hc Hlt Hamp Hcontent. rewrite Hcontent.
    apply countWords_element; assumption.
  - intros w1 w2 H1 H2 Hne1 Hne2 Hcontent. rewrite Hcontent.
    apply countWords_nbsp; assumption.
Qed.

Lemma reading_time_is_ceiling_of_word_count_witness :
  exists extracted : ContentExtractor.ExtractedArticle,
    (@ContentExtractor.extractFromHtml
       (Samples.reader_runtime
          (Samples.article_of_text (ContentExtractor.sentence Samples.four_hundred_words)))
       Samples.assets_dir sample_page (Some (js "https://blog.example/post")) ∅).1
    = Ok extracted
    /\ ContentExtractor.wordCount extracted = 400
    /\ ContentExtractor.readingTime extracted = 2.
Proof.
  set (R := Samples.reader_runtime
              (Samples.article_of_text (ContentExtractor.sentence Samples.four_hundred_words))).
  destruct (@ContentExtractor.extractFromHtml R Samples.assets_dir sample_page
              (Some (js "https://blog.example/post")) ∅) as [[extracted | e] fs'] eqn:Hrun;
    [| vm_compute in Hrun; discriminate].
  exists extracted. split; [reflexivity |].
  destruct (reading_time_is_ceiling_of_word_count R Samples.assets_dir sample_page
              (Some (js "https://blog.example/post")) ∅ fs' extracted Hrun)
    as (_ & _ & document0 & article & document & text & Hdom & Hread & Hcount & Htext
        & _ & Hwords & _).
  injection Hread as <- _.
  specialize (Htext _ _ eq_refl eq_refl).
  assert (Ht : text = ContentExtractor.sentence Samples.four_hundred_words).
  { apply Htext. vm_compute. discriminate. }
  assert (Hall : Forall ContentExtractor.is_word Samples.four_hundred_words).
  { apply Forall_replicate. split; [discriminate |]. repeat constructor. }
  destruct (Hwords Samples.four_hundred_words Hall Ht) as [H400 _].
  split; [| apply H400; reflexivity].
  rewrite Hcount, Ht. vm_compute. reflexivity.
Defined.
